(** * WeatherAgent: a shallow embedding of [agent/data_collection_agent.py]

    The agent collects weather data for a list of cities from two HTTP
    sources (OpenWeatherMap, two endpoints; WeatherAPI, one endpoint), inside
    a bounded retry loop, scores every collected record and flattens it into
    a standard record.

    The embedding follows the Python text:
    - JSON bodies are values of [json]; Python's dynamically typed operations
      on them ([x[k]], [x.get(k, d)], [k in x], [len(x)], truthiness, [<],
      [*], [round]) are functions into [result], whose [Raise] branch carries
      the exception class Python raises;
    - Python floats are IEEE binary64 numbers ([PrimFloat.float]);
    - the agent object ([self]) and the outside world (HTTP answers, the
      sequence of requests, sleeps, log lines and files written) are one
      state threaded through a state-and-exception monad [M]; a raised
      exception keeps the state reached so far, as in Python;
    - strings are kept as their UTF-8 bytes, and [len] counts code points;
    - the configured pause is a rational number; [time.sleep] and the
      backoff product are modelled without their [OverflowError], and what
      depends on a pause returning is stated for pauses in range
      ([pause_in_range], [backoff_in_range]). *)

From Stdlib Require Import ZArith QArith List String Ascii Bool Lia.
From Stdlib Require Import Floats.
Import ListNotations.

Local Open Scope string_scope.
Local Open Scope Z_scope.
Local Open Scope list_scope.

(** ** Exceptions and results *)

Module Py.

(** The exception classes the modelled code can raise.  All of them derive
    from [Exception]. *)
Inductive exn : Type :=
| KeyError
| TypeError
| AttributeError
| IndexError
| OverflowError
| ZeroDivisionError
| ValueError
| RequestException
| JSONDecodeError.

Definition exn_eqb (a b : exn) : bool :=
  match a, b with
  | KeyError, KeyError | TypeError, TypeError
  | AttributeError, AttributeError | IndexError, IndexError
  | OverflowError, OverflowError | ZeroDivisionError, ZeroDivisionError
  | ValueError, ValueError | RequestException, RequestException
  | JSONDecodeError, JSONDecodeError => true
  | _, _ => false
  end.

Inductive result (A : Type) : Type :=
| Ok (a : A)
| Raise (e : exn).
Arguments Ok {A} a.
Arguments Raise {A} e.

Definition rbind {A B} (r : result A) (k : A -> result B) : result B :=
  match r with
  | Ok a => k a
  | Raise e => Raise e
  end.

Definition is_ok {A} (r : result A) : bool :=
  match r with Ok _ => true | Raise _ => false end.

(** ** Floats *)

Definition float_of_Z (z : Z) : float :=
  SF2Prim (binary_normalize prec emax z 0 false).

(** [float(n)] for a Python int: the nearest double, [OverflowError] when
    the int is too large. *)
Definition int_to_float (z : Z) : result float :=
  let f := float_of_Z z in
  if PrimFloat.is_infinity f then Raise OverflowError else Ok f.

(** Nearest integer to [n / d] ([n >= 0], [d > 0]), ties to even. *)
Definition div_half_even (n d : Z) : Z :=
  let q := n / d in
  let r := n mod d in
  match 2 * r ?= d with
  | Lt => q
  | Gt => q + 1
  | Eq => if Z.even q then q else q + 1
  end.

(** [round(x, 2)] on a float.  CPython prints [x] correctly rounded to two
    decimals (ties on the exact binary value go to even) and reads the
    decimal string back as the nearest double; non-finite values and zeros
    are returned unchanged. *)
Definition round2 (x : float) : float :=
  match Prim2SF x with
  | S754_finite s m e =>
      let hundredths :=
        if 0 <=? e then Zpos m * 2 ^ e * 100
        else div_half_even (Zpos m * 100) (2 ^ (- e)) in
      match hundredths with
      | Zpos h => SF2Prim (SFdiv prec emax (S754_finite s h 0) (S754_finite false 100 0))
      | _ => SF2Prim (S754_zero s)
      end
  | _ => x
  end.

(** ** JSON values as Python sees them after [response.json()] *)

#[local] Unset Elimination Schemes.
Inductive json : Type :=
| JNull
| JBool (b : bool)
| JInt (z : Z)
| JFloat (f : float)
| JStr (s : string)
| JList (l : list json)
| JDict (kvs : list (string * json)).

#[local] Set Elimination Schemes.

(** A dict is kept as its list of items; a key is looked up from the front. *)
Fixpoint dict_lookup (k : string) (kvs : list (string * json)) : option json :=
  match kvs with
  | [] => None
  | (k', v) :: rest => if String.eqb k k' then Some v else dict_lookup k rest
  end.

Fixpoint dict_keys (kvs : list (string * json)) : list string :=
  match kvs with
  | [] => []
  | (k, _) :: rest =>
      let ks := dict_keys rest in
      if existsb (String.eqb k) ks then ks else k :: ks
  end.

Fixpoint is_substring (needle hay : string) : bool :=
  String.prefix needle hay ||
  match hay with
  | EmptyString => false
  | String _ rest => is_substring needle rest
  end.

Definition is_str (k : string) (v : json) : bool :=
  match v with JStr s => String.eqb k s | _ => false end.

(** [v[k]] for a string key [k]. *)
Definition getitem (v : json) (k : string) : result json :=
  match v with
  | JDict kvs =>
      match dict_lookup k kvs with
      | Some x => Ok x
      | None => Raise KeyError
      end
  | _ => Raise TypeError
  end.

(** [v.get(k, d)]: only dicts have the method. *)
Definition get (v : json) (k : string) (d : json) : result json :=
  match v with
  | JDict kvs =>
      match dict_lookup k kvs with
      | Some x => Ok x
      | None => Ok d
      end
  | _ => Raise AttributeError
  end.

(** [k in v] for a string [k]: key test on a dict, element test on a list,
    substring test on a string; other values are not iterable. *)
Definition contains (k : string) (v : json) : result bool :=
  match v with
  | JDict kvs => Ok (match dict_lookup k kvs with Some _ => true | None => false end)
  | JList l => Ok (existsb (is_str k) l)
  | JStr s => Ok (is_substring k s)
  | _ => Raise TypeError
  end.

(** A Python [str] is kept as its UTF-8 bytes.  A byte [10xxxxxx] continues
    the code point started before it. *)
Definition is_continuation (a : ascii) : bool :=
  match a with
  | Ascii _ _ _ _ _ _ false true => true
  | _ => false
  end.

(** The number of code points of a string, which is what [len] counts. *)
Fixpoint code_points (s : string) : nat :=
  match s with
  | EmptyString => 0
  | String a rest =>
      ((if is_continuation a then 0 else 1) + code_points rest)%nat
  end.

(** The bytes that continue a code point, at the head of [s]. *)
Fixpoint continuation (s : string) : string :=
  match s with
  | String a rest =>
      if is_continuation a then String a (continuation rest) else EmptyString
  | EmptyString => EmptyString
  end.

(** [len(v)]. *)
Definition len (v : json) : result Z :=
  match v with
  | JDict kvs => Ok (Z.of_nat (List.length (dict_keys kvs)))
  | JList l => Ok (Z.of_nat (List.length l))
  | JStr s => Ok (Z.of_nat (code_points s))
  | _ => Raise TypeError
  end.

(** [bool(v)]. *)
Definition truthy (v : json) : bool :=
  match v with
  | JNull => false
  | JBool b => b
  | JInt z => negb (z =? 0)
  | JFloat f => negb (PrimFloat.eqb f 0)
  | JStr s => negb (String.eqb s "")
  | JList l => match l with [] => false | _ => true end
  | JDict kvs => match kvs with [] => false | _ => true end
  end.

(** [v[0]]. *)
Definition index0 (v : json) : result json :=
  match v with
  | JList (x :: _) => Ok x
  | JList [] => Raise IndexError
  | JStr (String c rest) => Ok (JStr (String c (continuation rest)))
  | JStr EmptyString => Raise IndexError
  | JDict _ => Raise KeyError
  | _ => Raise TypeError
  end.

(** [v < c] and [v > c] against an int literal [c]. *)
Definition lt_int (v : json) (c : Z) : result bool :=
  match v with
  | JInt z => Ok (z <? c)
  | JBool b => Ok ((if b then 1 else 0) <? c)
  | JFloat f => Ok (PrimFloat.ltb f (float_of_Z c))
  | _ => Raise TypeError
  end.

Definition gt_int (v : json) (c : Z) : result bool :=
  match v with
  | JInt z => Ok (c <? z)
  | JBool b => Ok (c <? (if b then 1 else 0))
  | JFloat f => Ok (PrimFloat.ltb (float_of_Z c) f)
  | _ => Raise TypeError
  end.

(** [v * c] for a float literal [c]. *)
Definition mul_float (v : json) (c : float) : result float :=
  match v with
  | JInt z => rbind (int_to_float z) (fun f => Ok (PrimFloat.mul f c))
  | JBool b => Ok (PrimFloat.mul (if b then 1 else 0)%float c)
  | JFloat f => Ok (PrimFloat.mul f c)
  | _ => Raise TypeError
  end.

(** [s.split('.')]. *)
Fixpoint split_dot_aux (acc : string) (s : string) : list string :=
  match s with
  | EmptyString => [acc]
  | String c rest =>
      if Ascii.eqb c "."%char then acc :: split_dot_aux EmptyString rest
      else split_dot_aux (acc ++ String c EmptyString)%string rest
  end.

Definition split_dot (s : string) : list string := split_dot_aux EmptyString s.

End Py.

Import Py.

(** ** Data model *)

(** A collected record: the dict [{'api': .., 'city': .., 'data': ..}] built
    by a fetch function; [quality_score] is the key the assessment adds. *)
Record record : Type := mk_record {
  api : string;
  city : string;
  data : json;
  quality_score : option Z
}.

Definition with_quality_score (r : record) (q : Z) : record :=
  mk_record (api r) (city r) (data r) (Some q).

(** The flat dict built by [_process_raw_data].  [forecast_summary] is an
    f-string: a fixed prefix followed by the printed value of a JSON field;
    the pair keeps the prefix and the value. *)
Record processed : Type := mk_processed {
  p_city : string;
  p_collection_timestamp : string;
  p_source_api : string;
  p_quality_score : json;
  current_temp_c : json;
  current_humidity_p : json;
  current_wind_speed_m_s : json;
  forecast_summary : option (string * json)
}.

(** Entries of [summary_metrics['issues']], one constructor per f-string:
    - [HardFailure c n]: "Hard failure for {c} after {n} attempts."
    - [SuspectTemp c a t]: "Suspect Temp in {c} ({a}): {t}C"
    - [AgentCrash e]: "CRITICAL: Agent crash at runtime: {e}" *)
Inductive issue : Type :=
| HardFailure (c : string) (max_retries : Z)
| SuspectTemp (c a : string) (temp : json)
| AgentCrash (e : exn).

Record metrics : Type := mk_metrics {
  total_requests : Z;
  successful_requests : Z;
  failures : Z;
  data_points_collected : Z;
  owm_success : Z;
  wapi_success : Z;
  total_quality_score : Z;
  issues : list issue
}.

(** [config.json]: the two API keys and [COLLECTION_SETTINGS]. *)
Record api_keys : Type := mk_api_keys {
  OPENWEATHERMAP_KEY : string;
  WEATHERAPI_KEY : string
}.

Record settings : Type := mk_settings {
  UNITS : string;
  CITIES : list string;
  MAX_RETRIES : Z;
  RESPECTFUL_DELAY_SECONDS : Q;
  API_PRIORITY : list string
}.

(** What [requests.get(url, timeout=10)] followed by [response.json()] can
    do: raise, or answer with a status code and a body that decodes to JSON
    or does not. *)
Inductive http_outcome : Type :=
| ConnectionFailed
| Response (status_code : Z) (body : option json).

(** The environment of a run: the configuration, the run's timestamp and the
    network, which answers the [n]-th request of the run by its URL. *)
Record env : Type := mk_env {
  keys : api_keys;
  conf : settings;
  collection_timestamp : string;
  http_get : nat -> string -> http_outcome
}.

Inductive level : Type := INFO | WARNING | ERROR | CRITICAL.

(** The log lines of the program, one constructor per [logging] call. *)
Inductive log_msg : Type :=
| OwmRequesting (name c : string)
| OwmFailed (name c : string) (status_code : Z)
| OwmException (name c : string) (e : exn)
| WapiRequesting (c : string)
| WapiFailed (c : string) (status_code : Z)
| WapiException (c : string) (e : exn)
| AttemptOf (attempt_no max_retries : Z) (c : string)
| NoDataRetrying (c : string) (delay : Q)
| ForecastListIncomplete (c : string)
| ForecastDaysIncomplete (c : string)
| MissingCriticalField (c a field : string)
| DataQuality (c a : string) (score : Z)
| StandardizationError (c a : string) (e : exn)
| NoDataSkippingSave
| RawDataSaved
| ProcessedDataSaved
| MetadataSaved
| QualityReportGenerated
| CollectionSummaryGenerated
| WorkflowStarting
| WorkflowCompleted
| AgentTerminated (e : exn).

(** Files written, with the in-memory structures they are rendered from. *)
Inductive file : Type :=
| RawFile (raw : list record)
| ProcessedFile (proc : list processed)
| MetadataFile (m : metrics)
| QualityReportFile (m : metrics) (raw : list record)
| CollectionSummaryFile (m : metrics).

(** The two call sites of [time.sleep]: the pause after an OpenWeatherMap
    endpoint call, and the wait between two attempts of the retry loop. *)
Inductive pause : Type := Respectful | Backoff.

(** What the program does to the outside world, in order. *)
Inductive event : Type :=
| EvLog (lvl : level) (m : log_msg)
| EvGet (url : string)
| EvSleep (why : pause) (d : Q)
| EvWrite (f : file).

(** The agent object together with the world's trace.  [requests_sent]
    counts the HTTP requests of the run and selects the network's answer. *)
Record agent : Type := mk_agent {
  raw_data : list record;
  processed_data : list processed;
  summary_metrics : metrics;
  requests_sent : nat;
  trace : list event
}.

Definition init_metrics : metrics := mk_metrics 0 0 0 0 0 0 0 [].

(** [WeatherAgent.__init__] (the state it builds). *)
Definition init_agent : agent := mk_agent [] [] init_metrics 0%nat [].

(** ** The state-and-exception monad *)

Definition ST (S A : Type) : Type := S -> result A * S.

Definition ret {S A} (a : A) : ST S A := fun s => (Ok a, s).

Definition bind {S A B} (m : ST S A) (k : A -> ST S B) : ST S B :=
  fun s =>
    match m s with
    | (Ok a, s') => k a s'
    | (Raise e, s') => (Raise e, s')
    end.

Definition raise {S A} (e : exn) : ST S A := fun s => (Raise e, s).

Definition lift {S A} (r : result A) : ST S A := fun s => (r, s).

Definition modify {S} (f : S -> S) : ST S unit := fun s => (Ok tt, f s).

Definition gets {S A} (f : S -> A) : ST S A := fun s => (Ok (f s), s).

(** [try: m  except Exception as e: h e]. *)
Definition try_except {S A} (m : ST S A) (h : exn -> ST S A) : ST S A :=
  fun s =>
    match m s with
    | (Ok a, s') => (Ok a, s')
    | (Raise e, s') => h e s'
    end.

(** [try: m  except (c1, c2, ...): h]: other classes propagate. *)
Definition try_except_only {S A} (classes : list exn) (m : ST S A)
    (h : exn -> ST S A) : ST S A :=
  try_except m (fun e => if existsb (exn_eqb e) classes then h e else raise e).

Declare Scope st_scope.
Delimit Scope st_scope with st.
Notation "x <- m ;; k" := (bind m (fun x => k))
  (at level 61, m at next level, right associativity) : st_scope.
Notation "m ;; k" := (bind m (fun _ => k))
  (at level 61, right associativity) : st_scope.
Local Open Scope st_scope.

Definition M : Type -> Type := ST agent.

(** *** Updates of [summary_metrics] and of the collections *)

Definition upd_metrics (f : metrics -> metrics) : M unit :=
  modify (fun s => mk_agent (raw_data s) (processed_data s)
                            (f (summary_metrics s)) (requests_sent s) (trace s)).

Definition incr_total_requests (m : metrics) : metrics :=
  mk_metrics (total_requests m + 1) (successful_requests m) (failures m)
    (data_points_collected m) (owm_success m) (wapi_success m)
    (total_quality_score m) (issues m).

Definition incr_successful_requests (m : metrics) : metrics :=
  mk_metrics (total_requests m) (successful_requests m + 1) (failures m)
    (data_points_collected m) (owm_success m) (wapi_success m)
    (total_quality_score m) (issues m).

Definition incr_failures (m : metrics) : metrics :=
  mk_metrics (total_requests m) (successful_requests m) (failures m + 1)
    (data_points_collected m) (owm_success m) (wapi_success m)
    (total_quality_score m) (issues m).

Definition incr_data_points (m : metrics) : metrics :=
  mk_metrics (total_requests m) (successful_requests m) (failures m)
    (data_points_collected m + 1) (owm_success m) (wapi_success m)
    (total_quality_score m) (issues m).

Definition incr_owm_success (m : metrics) : metrics :=
  mk_metrics (total_requests m) (successful_requests m) (failures m)
    (data_points_collected m) (owm_success m + 1) (wapi_success m)
    (total_quality_score m) (issues m).

Definition incr_wapi_success (m : metrics) : metrics :=
  mk_metrics (total_requests m) (successful_requests m) (failures m)
    (data_points_collected m) (owm_success m) (wapi_success m + 1)
    (total_quality_score m) (issues m).

Definition add_quality_score (q : Z) (m : metrics) : metrics :=
  mk_metrics (total_requests m) (successful_requests m) (failures m)
    (data_points_collected m) (owm_success m) (wapi_success m)
    (total_quality_score m + q) (issues m).

Definition append_issue (i : issue) (m : metrics) : metrics :=
  mk_metrics (total_requests m) (successful_requests m) (failures m)
    (data_points_collected m) (owm_success m) (wapi_success m)
    (total_quality_score m) (issues m ++ [i]).

Definition emit (e : event) : M unit :=
  modify (fun s => mk_agent (raw_data s) (processed_data s) (summary_metrics s)
                            (requests_sent s) (trace s ++ [e])).

Definition log (lvl : level) (m : log_msg) : M unit := emit (EvLog lvl m).

(** [time.sleep(d)]: a negative duration is a [ValueError].  The
    [OverflowError] of a duration outside the 64-bit range of nanoseconds is
    left out: what needs a pause to return, or to raise [ValueError], is
    stated for durations within [max_pause] (see [pause_in_range]). *)
Definition sleep (why : pause) (d : Q) : M unit :=
  if Qle_bool 0 d then emit (EvSleep why d) else raise ValueError.

Definition append_raw (r : record) : M unit :=
  modify (fun s => mk_agent (raw_data s ++ [r]) (processed_data s)
                            (summary_metrics s) (requests_sent s) (trace s)).

(** The record appended to [raw_data] is the object the assessment later
    mutates; [set_last_raw] writes the mutated record back in place. *)
Definition set_last_raw (r : record) : M unit :=
  modify (fun s => mk_agent (removelast (raw_data s) ++ [r]) (processed_data s)
                            (summary_metrics s) (requests_sent s) (trace s)).

Definition append_processed (p : processed) : M unit :=
  modify (fun s => mk_agent (raw_data s) (processed_data s ++ [p])
                            (summary_metrics s) (requests_sent s) (trace s)).

(** [d[k] = v] on a dict kept as its list of items. *)
Fixpoint dict_set (k : string) (v : json) (kvs : list (string * json))
  : list (string * json) :=
  match kvs with
  | [] => [(k, v)]
  | (k', v') :: rest =>
      if String.eqb k k' then (k, v) :: rest else (k', v') :: dict_set k v rest
  end.

(** ** The agent *)

Section Agent.

Variable E : env.

(** [requests.get(url, timeout=10)] and [response.json()], answered by the
    environment. *)
Definition http_request (url : string) : M http_outcome :=
  fun s =>
    (Ok (http_get E (requests_sent s) url),
     mk_agent (raw_data s) (processed_data s) (summary_metrics s)
              (S (requests_sent s)) (trace s ++ [EvGet url])).

(** *** API helper functions *)

Definition owm_current_url (c : string) : string :=
  ("http://api.openweathermap.org/data/2.5/weather?q=" ++ c ++ "&units="
     ++ UNITS (conf E) ++ "&appid=" ++ OPENWEATHERMAP_KEY (keys E))%string.

Definition owm_forecast_url (c : string) : string :=
  ("http://api.openweathermap.org/data/2.5/forecast?q=" ++ c ++ "&units="
     ++ UNITS (conf E) ++ "&appid=" ++ OPENWEATHERMAP_KEY (keys E))%string.

Definition owm_endpoints (c : string) : list (string * string) :=
  [ ("current", owm_current_url c); ("forecast", owm_forecast_url c) ].

(** One iteration of the loop over [endpoints.items()]; [acc] is the pair of
    the locals [data] and [overall_success]. *)
Definition owm_endpoint (c name url : string) (acc : list (string * json) * bool)
  : M (list (string * json) * bool) :=
  upd_metrics incr_total_requests ;;
  log INFO (OwmRequesting name c) ;;
  acc' <- try_except
            (r <- http_request url ;;
             match r with
             | ConnectionFailed => raise RequestException
             | Response code body =>
                 if code =? 200 then
                   match body with
                   | Some j =>
                       upd_metrics incr_owm_success ;;
                       ret (dict_set name j (fst acc), true)
                   | None => raise JSONDecodeError
                   end
                 else
                   log WARNING (OwmFailed name c code) ;; ret acc
             end)
            (fun e => log ERROR (OwmException name c e) ;; ret acc) ;;
  sleep Respectful (RESPECTFUL_DELAY_SECONDS (conf E)) ;;
  ret acc'.

Fixpoint owm_loop (c : string) (eps : list (string * string))
    (acc : list (string * json) * bool) : M (list (string * json) * bool) :=
  match eps with
  | [] => ret acc
  | (name, url) :: rest =>
      acc' <- owm_endpoint c name url acc ;;
      owm_loop c rest acc'
  end.

Definition _fetch_owm_data (c : string) : M (option record) :=
  acc <- owm_loop c (owm_endpoints c) ([], false) ;;
  if snd acc
  then ret (Some (mk_record "OpenWeatherMap" c (JDict (fst acc)) None))
  else ret None.

Definition wapi_url (c : string) : string :=
  ("http://api.weatherapi.com/v1/forecast.json?key=" ++ WEATHERAPI_KEY (keys E)
     ++ "&q=" ++ c ++ "&days=5")%string.

Definition _fetch_wapi_data (c : string) : M (option record) :=
  upd_metrics incr_total_requests ;;
  log INFO (WapiRequesting c) ;;
  try_except
    (r <- http_request (wapi_url c) ;;
     match r with
     | ConnectionFailed => raise RequestException
     | Response code body =>
         if code =? 200 then
           upd_metrics incr_wapi_success ;;
           match body with
           | Some j => ret (Some (mk_record "WeatherAPI" c j None))
           | None => raise JSONDecodeError
           end
         else
           log WARNING (WapiFailed c code) ;; ret None
     end)
    (fun e => log ERROR (WapiException c e) ;; ret None).

(** *** Data quality assessment *)

(** ['forecast' not in data or
     len(data.get('forecast', {}).get(key, [])) < threshold]. *)
Definition forecast_incomplete (d : json) (key : string) (threshold : Z)
  : result bool :=
  rbind (contains "forecast" d) (fun present =>
  if negb present then Ok true
  else
    rbind (get d "forecast" (JDict [])) (fun f =>
    rbind (get f key (JList [])) (fun l =>
    rbind (len l) (fun n => Ok (n <? threshold))))).

(** [for part in parts: value = value[part]]. *)
Fixpoint walk (parts : list string) (value : json) : result json :=
  match parts with
  | [] => Ok value
  | part :: rest => rbind (getitem value part) (walk rest)
  end.

Definition required_fields (a : string) : list string :=
  if String.eqb a "OpenWeatherMap"
  then ["current.main.temp"; "current.main.humidity"; "current.wind.speed"]
  else if String.eqb a "WeatherAPI"
  then ["current.temp_c"; "current.humidity"; "current.wind_kph"]
  else [].

(** The forecast check of the branch for [a]; returns the score after it. *)
Definition forecast_check (c a : string) (d : json) (score : Z) : M Z :=
  if String.eqb a "OpenWeatherMap" then
    incomplete <- lift (forecast_incomplete d "list" 30) ;;
    if incomplete
    then log WARNING (ForecastListIncomplete c) ;; ret (score - 20)
    else ret score
  else if String.eqb a "WeatherAPI" then
    incomplete <- lift (forecast_incomplete d "forecastday" 5) ;;
    if incomplete
    then log WARNING (ForecastDaysIncomplete c) ;; ret (score - 20)
    else ret score
  else ret score.

(** One iteration of [for field in required_fields]. *)
Definition check_field (c a : string) (d : json) (score : Z) (field : string)
  : M Z :=
  try_except_only [KeyError; TypeError]
    (_ <- lift (walk (split_dot field) d) ;;
     upd_metrics incr_data_points ;;
     ret score)
    (fun _ => log WARNING (MissingCriticalField c a field) ;; ret (score - 5)).

Fixpoint check_fields (c a : string) (d : json) (fields : list string)
    (score : Z) : M Z :=
  match fields with
  | [] => ret score
  | field :: rest =>
      score' <- check_field c a d score field ;;
      check_fields c a d rest score'
  end.

Definition read_temp (a : string) (d : json) : result json :=
  if String.eqb a "OpenWeatherMap" then
    rbind (get d "current" (JDict [])) (fun cur =>
    rbind (get cur "main" (JDict [])) (fun main =>
    get main "temp" JNull))
  else if String.eqb a "WeatherAPI" then
    rbind (get d "current" (JDict [])) (fun cur =>
    get cur "temp_c" JNull)
  else Ok JNull.

(** [temp_value is not None and (temp_value < -70 or temp_value > 50)]. *)
Definition suspect (t : json) : result bool :=
  match t with
  | JNull => Ok false
  | _ => rbind (lt_int t (-70)) (fun below =>
         if below then Ok true else gt_int t 50)
  end.

Definition validity_check (c a : string) (d : json) (score : Z) : M Z :=
  try_except
    (t <- lift (read_temp a d) ;;
     bad <- lift (suspect t) ;;
     if bad
     then upd_metrics (append_issue (SuspectTemp c a t)) ;; ret (score - 10)
     else ret score)
    (fun _ => ret score).

(** The value of [completeness_score] just before the final [max(0, ..)]. *)
Definition completeness_score (r : record) : M Z :=
  s1 <- forecast_check (city r) (api r) (data r) 100 ;;
  s2 <- check_fields (city r) (api r) (data r) (required_fields (api r)) s1 ;;
  validity_check (city r) (api r) (data r) s2.

(** Returns the record as mutated ([record['quality_score'] = ...]). *)
Definition _assess_and_log_quality (r : record) : M record :=
  score <- completeness_score r ;;
  let q := Z.max 0 score in
  upd_metrics (add_quality_score q) ;;
  log INFO (DataQuality (city r) (api r) q) ;;
  ret (with_quality_score r q).

(** *** Data processing and standardization *)

Definition set_temp (v : json) : ST processed unit :=
  modify (fun p => mk_processed (p_city p) (p_collection_timestamp p)
    (p_source_api p) (p_quality_score p) v (current_humidity_p p)
    (current_wind_speed_m_s p) (forecast_summary p)).

Definition set_humidity (v : json) : ST processed unit :=
  modify (fun p => mk_processed (p_city p) (p_collection_timestamp p)
    (p_source_api p) (p_quality_score p) (current_temp_c p) v
    (current_wind_speed_m_s p) (forecast_summary p)).

Definition set_wind (v : json) : ST processed unit :=
  modify (fun p => mk_processed (p_city p) (p_collection_timestamp p)
    (p_source_api p) (p_quality_score p) (current_temp_c p)
    (current_humidity_p p) v (forecast_summary p)).

Definition set_summary (prefix : string) (v : json) : ST processed unit :=
  modify (fun p => mk_processed (p_city p) (p_collection_timestamp p)
    (p_source_api p) (p_quality_score p) (current_temp_c p)
    (current_humidity_p p) (current_wind_speed_m_s p) (Some (prefix, v))).

Definition set_quality (v : json) (p : processed) : processed :=
  mk_processed (p_city p) (p_collection_timestamp p) (p_source_api p) v
    (current_temp_c p) (current_humidity_p p) (current_wind_speed_m_s p)
    (forecast_summary p).

#[local] Set Warnings "-inexact-float".
Definition kph_to_m_s : float := 0.277778%float.
#[local] Set Warnings "+inexact-float".

(** The body of the [try] for [api == 'OpenWeatherMap']. *)
Definition map_owm (d : json) : ST processed unit :=
  current <- lift (get d "current" (JDict [])) ;;
  main <- lift (get current "main" (JDict [])) ;;
  wind <- lift (get current "wind" (JDict [])) ;;
  t <- lift (get main "temp" JNull) ;;
  set_temp t ;;
  h <- lift (get main "humidity" JNull) ;;
  set_humidity h ;;
  w <- lift (get wind "speed" JNull) ;;
  set_wind w ;;
  f <- lift (get d "forecast" (JDict [])) ;;
  forecast_list <- lift (get f "list" (JList [])) ;;
  if truthy forecast_list then
    first <- lift (index0 forecast_list) ;;
    dt <- lift (get first "dt_txt" JNull) ;;
    set_summary "3-hour steps starting " dt
  else ret tt.

(** The body of the [try] for [api == 'WeatherAPI']. *)
Definition map_wapi (d : json) : ST processed unit :=
  current <- lift (get d "current" (JDict [])) ;;
  t <- lift (get current "temp_c" JNull) ;;
  set_temp t ;;
  h <- lift (get current "humidity" JNull) ;;
  set_humidity h ;;
  wind_kph <- lift (get current "wind_kph" JNull) ;;
  match wind_kph with
  | JNull => ret tt
  | _ =>
      x <- lift (mul_float wind_kph kph_to_m_s) ;;
      set_wind (JFloat (round2 x))
  end ;;
  f <- lift (get d "forecast" (JDict [])) ;;
  forecast_day <- lift (get f "forecastday" (JList [])) ;;
  if truthy forecast_day then
    first <- lift (index0 forecast_day) ;;
    dt <- lift (get first "date" JNull) ;;
    set_summary "5-day forecast starting " dt
  else ret tt.

Definition mapping (r : record) : ST processed unit :=
  if String.eqb (api r) "OpenWeatherMap" then map_owm (data r)
  else if String.eqb (api r) "WeatherAPI" then map_wapi (data r)
  else ret tt.

(** The dict [processed] as first built: [record.get('quality_score', 'N/A')]
    and the four optional fields at [None]. *)
Definition initial_processed (r : record) : processed :=
  mk_processed (city r) (collection_timestamp E) (api r)
    (match quality_score r with Some q => JInt q | None => JStr "N/A" end)
    JNull JNull JNull None.

Definition _process_raw_data (r : record) : M processed :=
  match mapping r (initial_processed r) with
  | (Ok _, p) => ret p
  | (Raise e, p) =>
      log ERROR (StandardizationError (city r) (api r) e) ;;
      ret (set_quality (JInt 0) p)
  end.

(** *** Collection *)

(** [range(n)]. *)
Definition range (n : Z) : list Z := map Z.of_nat (seq 0 (Z.to_nat n)).

(** The loop over [API_PRIORITY]; [d] is the local [data], which an unknown
    API name leaves as it is. *)
Fixpoint api_loop (c : string) (apis : list string) (d : option record)
  : M (option record) :=
  match apis with
  | [] => ret d
  | api_name :: rest =>
      d' <- (if String.eqb api_name "OpenWeatherMap" then _fetch_owm_data c
             else if String.eqb api_name "WeatherAPI" then _fetch_wapi_data c
             else ret d) ;;
      match d' with
      | Some _ => upd_metrics incr_successful_requests ;; ret d'
      | None => api_loop c rest d'
      end
  end.

(** The retry loop over [range(MAX_RETRIES)].  The backoff is the exact
    product; the [OverflowError] of [delay * (2 ** attempt)] for a float
    delay from attempt 1024 on is left out: what needs the loop to return is
    stated for at most 1025 retries (see [backoff_in_range]). *)
Fixpoint retry_loop (c : string) (attempts : list Z) (d : option record)
  : M (option record) :=
  match attempts with
  | [] => ret d
  | attempt :: rest =>
      log INFO (AttemptOf (attempt + 1) (MAX_RETRIES (conf E)) c) ;;
      d' <- api_loop c (API_PRIORITY (conf E)) d ;;
      match d' with
      | Some _ => ret d'
      | None =>
          (if attempt <? MAX_RETRIES (conf E) - 1 then
             let delay :=
               (RESPECTFUL_DELAY_SECONDS (conf E) * inject_Z (2 ^ attempt))%Q in
             log WARNING (NoDataRetrying c delay) ;;
             sleep Backoff delay
           else ret tt) ;;
          retry_loop c rest d'
      end
  end.

(** The body of [for city in self.settings['CITIES']]. *)
Definition collect_city (c : string) : M unit :=
  d <- retry_loop c (range (MAX_RETRIES (conf E))) None ;;
  match d with
  | Some r =>
      append_raw r ;;
      r' <- _assess_and_log_quality r ;;
      set_last_raw r' ;;
      p <- _process_raw_data r' ;;
      append_processed p
  | None =>
      upd_metrics incr_failures ;;
      upd_metrics (append_issue (HardFailure c (MAX_RETRIES (conf E))))
  end.

Fixpoint collect_cities (cs : list string) : M unit :=
  match cs with
  | [] => ret tt
  | c :: rest => collect_city c ;; collect_cities rest
  end.

Definition collect_data : M unit := collect_cities (CITIES (conf E)).

(** *** Saving and reporting

    Writing a file is taken to succeed; what is written is recorded with the
    structures it is rendered from. *)

Definition _save_data : M unit :=
  raw <- gets raw_data ;;
  match raw with
  | [] => log WARNING NoDataSkippingSave
  | _ =>
      emit (EvWrite (RawFile raw)) ;;
      log INFO RawDataSaved ;;
      proc <- gets processed_data ;;
      emit (EvWrite (ProcessedFile proc)) ;;
      log INFO ProcessedDataSaved
  end.

Definition _generate_and_save_metadata : M unit :=
  m <- gets summary_metrics ;;
  emit (EvWrite (MetadataFile m)) ;;
  log INFO MetadataSaved.

Definition _generate_quality_report : M unit :=
  m <- gets summary_metrics ;;
  raw <- gets raw_data ;;
  emit (EvWrite (QualityReportFile m raw)) ;;
  log INFO QualityReportGenerated.

(** The summary's OWM failure rate divides by [total_requests] unguarded. *)
Definition _generate_collection_summary : M unit :=
  m <- gets summary_metrics ;;
  if total_requests m =? 0 then raise ZeroDivisionError
  else
    emit (EvWrite (CollectionSummaryFile m)) ;;
    log INFO CollectionSummaryGenerated.

Definition run_agent : M unit :=
  log INFO WorkflowStarting ;;
  try_except
    (collect_data ;;
     _save_data ;;
     _generate_and_save_metadata ;;
     _generate_quality_report ;;
     _generate_collection_summary ;;
     log INFO WorkflowCompleted)
    (fun e =>
       log CRITICAL (AgentTerminated e) ;;
       upd_metrics (append_issue (AgentCrash e)) ;;
       _generate_quality_report ;;
       _generate_collection_summary).

End Agent.

(** * Specification vocabulary *)

(** ** A weakest-precondition reading of [ST]

    [wp m s Q X]: from state [s], [m] either returns [a] in a state [s']
    with [Q a s'], or raises [e] in a state [s'] with [X e s']. *)

Definition wp {S A} (m : ST S A) (s : S) (Q : A -> S -> Prop)
    (X : exn -> S -> Prop) : Prop :=
  match m s with
  | (Ok a, s') => Q a s'
  | (Raise e, s') => X e s'
  end.

(** ** Payload shapes *)

Definition empty_section (v : json) : bool :=
  match v with JDict [] => true | _ => false end.

(** A payload whose sections are all empty: a dict (possibly with no key at
    all) every value of which is the empty dict. *)
Definition sections_empty (d : json) : bool :=
  match d with
  | JDict kvs => forallb (fun kv => empty_section (snd kv)) kvs
  | _ => false
  end.

(** ** Sample runs *)

Definition sample_keys : api_keys := mk_api_keys "owm-key" "wapi-key".

Definition sample_settings : settings :=
  mk_settings "metric" ["Paris"; "Oslo"] 3 (1 # 2)
    ["OpenWeatherMap"; "WeatherAPI"].

(** OpenWeatherMap answers both endpoints with HTTP 200 and the body [{}]. *)
Definition empty_bodies_env : env :=
  mk_env sample_keys sample_settings "20250101_000000"
    (fun _ _ => Response 200 (Some (JDict []))).

Definition empty_owm_record : record :=
  mk_record "OpenWeatherMap" "Paris"
    (JDict [("current", JDict []); ("forecast", JDict [])]) (Some 65).

Definition unscored_record : record :=
  mk_record "WeatherAPI" "Paris" (JDict []) None.

(** A WeatherAPI body reporting 36.0 kph. *)
Definition windy_record : record :=
  mk_record "WeatherAPI" "Paris"
    (JDict [("current", JDict [("wind_kph", JFloat 36)])]) (Some 65).

(** ** What a computation leaves alone *)

Definition is_hard_failure (i : issue) : bool :=
  match i with HardFailure _ _ => true | _ => false end.

Definition hard_failures (m : metrics) : list issue :=
  filter is_hard_failure (issues m).

(** The retry loop's own marks in a trace: the start of attempt [k] (the
    loop variable [attempt], counted from 0; the log line prints [k + 1])
    and a backoff sleep. *)
Inductive step : Type :=
| Attempt (k : Z)
| Wait (d : Q).

Definition step_of (e : event) : list step :=
  match e with
  | EvLog _ (AttemptOf n _ _) => [Attempt (n - 1)]
  | EvSleep Backoff d => [Wait d]
  | _ => []
  end.

Definition skeleton (tr : list event) : list step := flat_map step_of tr.

(** [s'] differs from [s] in nothing the collection loop accounts for: the
    two collections, the failure counter and the hard-failure issues. *)
Record same_books (s s' : agent) : Prop := mk_same_books {
  books_raw : raw_data s' = raw_data s;
  books_processed : processed_data s' = processed_data s;
  books_failures :
    failures (summary_metrics s') = failures (summary_metrics s);
  books_hard :
    hard_failures (summary_metrics s') = hard_failures (summary_metrics s)
}.

(** [s'] extends the trace of [s] by events that are no mark of the retry
    loop. *)
Definition silent (s s' : agent) : Prop :=
  exists seg, trace s' = trace s ++ seg /\ skeleton seg = [].

Definition quiet (s s' : agent) : Prop := same_books s s' /\ silent s s'.

(** A metrics update that touches neither [failures] nor the hard-failure
    issues. *)
Definition keeps_books (f : metrics -> metrics) : Prop :=
  forall m, failures (f m) = failures m /\ hard_failures (f m) = hard_failures m.

(** [qwp m s P X]: [m] returns a value satisfying [P] or raises an exception
    satisfying [X], quietly in both cases. *)
Definition qwp {A} (m : M A) (s : agent) (P : A -> Prop) (X : exn -> Prop)
  : Prop :=
  wp m s (fun a s' => P a /\ quiet s s') (fun e s' => X e /\ quiet s s').

(** ** The forecast check as a test on the payload *)

(** The forecast check of [_assess_and_log_quality] is its only code outside
    a [try]: [forecast_readable a d] tells whether it evaluates without an
    exception on the payload [d] of source [a]. *)
Definition forecast_readable (a : string) (d : json) : bool :=
  if String.eqb a "OpenWeatherMap" then is_ok (forecast_incomplete d "list" 30)
  else if String.eqb a "WeatherAPI" then is_ok (forecast_incomplete d "forecastday" 5)
  else true.

(** ** Endpoint outcomes *)

(** An endpoint call succeeded: HTTP 200 with a body that decodes. *)
Definition succeeded (o : http_outcome) : bool :=
  match o with
  | Response code (Some _) => code =? 200
  | _ => false
  end.

(** What a fetched record looks like, whatever the source. *)
Definition fresh_for (c : string) (d : option record) : Prop :=
  forall r, d = Some r -> city r = c /\ quality_score r = None.

(** ** The retry loop's expected marks *)

(** [n] attempts in a row, the first being attempt [k]: each attempt but the
    last is followed by a backoff of [base * 2^attempt]. *)
Fixpoint alternate (base : Q) (k : Z) (n : nat) : list step :=
  match n with
  | O => []
  | S n' =>
      Attempt k ::
      match n' with
      | O => []
      | S _ => Wait (base * inject_Z (2 ^ k)) :: alternate base (k + 1) n'
      end
  end.

(** What the retry loop over the [m] attempts [k], [k+1], ... has done when
    it returns [d] in state [s'], having started in [s]. *)
Definition retried (base : Q) (c : string) (k : Z) (m : nat) (s : agent)
    (d : option record) (s' : agent) : Prop :=
  same_books s s' /\
  fresh_for c d /\
  exists (n : nat) (seg : list event),
    (n <= m)%nat /\
    ((0 < m)%nat -> (0 < n)%nat) /\
    (d = None -> n = m) /\
    trace s' = trace s ++ seg /\
    skeleton seg = alternate base k n.

Definition is_attempt (x : step) : bool :=
  match x with Attempt _ => true | Wait _ => false end.

(** ** Tallies of a run *)

Definition issue_city (i : issue) : list string :=
  match i with HardFailure c _ => [c] | _ => [] end.

(** The cities named by the hard-failure issues, in order. *)
Definition hard_cities (m : metrics) : list string :=
  flat_map issue_city (hard_failures m).

(** How many processed records, raw records and hard-failure issues a state
    holds for the city [c]. *)
Definition produced (c : string) (s : agent) : nat :=
  count_occ string_dec (map p_city (processed_data s)) c.

Definition kept_raw (c : string) (s : agent) : nat :=
  count_occ string_dec (map city (raw_data s)) c.

Definition failed (c : string) (s : agent) : nat :=
  count_occ string_dec (hard_cities (summary_metrics s)) c.

(** The two ways one iteration of the loop over [CITIES] can end. *)
Definition city_succeeded (c : string) (s s' : agent) : Prop :=
  exists r p,
    raw_data s' = raw_data s ++ [r] /\ city r = c /\
    processed_data s' = processed_data s ++ [p] /\ p_city p = c /\
    failures (summary_metrics s') = failures (summary_metrics s) /\
    hard_failures (summary_metrics s') = hard_failures (summary_metrics s).

Definition city_failed (max : Z) (c : string) (s s' : agent) : Prop :=
  raw_data s' = raw_data s /\
  processed_data s' = processed_data s /\
  failures (summary_metrics s') = failures (summary_metrics s) + 1 /\
  hard_failures (summary_metrics s') =
    hard_failures (summary_metrics s) ++ [HardFailure c max].

(** The tallies of [s'] account for the cities [cs] processed since [s]:
    every city of [cs] added either one raw and one processed record or one
    hard failure, and [failures] moved with the hard-failure issues. *)
Definition balanced (cs : list string) (s s' : agent) : Prop :=
  (forall c, kept_raw c s' + produced c s = kept_raw c s + produced c s')%nat /\
  (forall c, produced c s' + failed c s' =
             produced c s + failed c s + count_occ string_dec cs c)%nat /\
  failures (summary_metrics s')
    - Z.of_nat (List.length (hard_failures (summary_metrics s')))
  = failures (summary_metrics s)
    - Z.of_nat (List.length (hard_failures (summary_metrics s))).

(** ** Pauses between requests *)

(** [pauses_kept d pending tr]: in the trace [tr], no request is sent while
    an earlier one is still [pending], that is, not yet followed by a sleep
    of at least [d] seconds (a respectful pause or a backoff). *)
Fixpoint pauses_kept (d : Q) (pending : bool) (tr : list event) : bool :=
  match tr with
  | [] => true
  | EvGet _ :: rest => negb pending && pauses_kept d true rest
  | EvSleep _ d' :: rest =>
      pauses_kept d (if Qle_bool d d' then false else pending) rest
  | _ :: rest => pauses_kept d pending rest
  end.

Definition is_sleep (e : event) : bool :=
  match e with EvSleep _ _ => true | _ => false end.

Definition is_metadata_write (e : event) : bool :=
  match e with EvWrite (MetadataFile _) => true | _ => false end.

Definition is_report_write (e : event) : bool :=
  match e with
  | EvWrite (QualityReportFile _ _) | EvWrite (CollectionSummaryFile _) => true
  | _ => false
  end.

(** ** More sample runs *)

Definition complete_current : json :=
  JDict [("main", JDict [("temp", JFloat 21.5); ("humidity", JInt 40)]);
         ("wind", JDict [("speed", JFloat 3.5)])].

(** Paris: OpenWeatherMap answers 'current' with 200 and 'forecast' with
    500.  Oslo: every request fails. *)
Definition partial_env : env :=
  mk_env sample_keys sample_settings "20250101_000000"
    (fun n _ =>
       match n with
       | 0%nat => Response 200 (Some complete_current)
       | 1%nat => Response 500 None
       | _ => ConnectionFailed
       end).

(** WeatherAPI comes first in the priority list and answers 500;
    OpenWeatherMap then answers 200 to both endpoints. *)
Definition wapi_first_env : env :=
  mk_env sample_keys
    (mk_settings "metric" ["Paris"] 3 (1 # 2) ["WeatherAPI"; "OpenWeatherMap"])
    "20250101_000000"
    (fun n _ =>
       match n with
       | 0%nat => Response 500 None
       | _ => Response 200 (Some (JDict []))
       end).

(** WeatherAPI answers 200 with the JSON body [5]. *)
Definition crash_env : env :=
  mk_env sample_keys
    (mk_settings "metric" ["Paris"; "Oslo"] 3 (1 # 2) ["WeatherAPI"])
    "20250101_000000"
    (fun _ _ => Response 200 (Some (JInt 5))).

(** The state [collect_data] leaves on [partial_env]. *)
Definition partial_run : agent := snd (collect_data partial_env init_agent).

(** The state in which the exception leaves [collect_data] on [crash_env],
    inside [run_agent]. *)
Definition crash_state : agent :=
  snd (collect_data crash_env (snd (log INFO WorkflowStarting init_agent))).

(** An OpenWeatherMap payload whose 'forecast' section is a list. *)
Definition list_forecast_record : record :=
  mk_record "OpenWeatherMap" "Paris"
    (JDict [("current", complete_current); ("forecast", JList [])]) None.

Definition no_sections_record : record :=
  mk_record "OpenWeatherMap" "Paris" (JDict []) None.

(** ** Accounts of the source clients *)

Definition is_get (e : event) : bool :=
  match e with EvGet _ => true | _ => false end.

Definition is_write (e : event) : bool :=
  match e with EvWrite _ => true | _ => false end.

Definition b2z (b : bool) : Z := if b then 1 else 0.

Definition is_some {A} (o : option A) : bool :=
  match o with Some _ => true | None => false end.

(** The answer carries HTTP 200, decodable or not. *)
Definition status_200 (o : http_outcome) : bool :=
  match o with
  | Response code _ => code =? 200
  | ConnectionFailed => false
  end.

(** The section an endpoint call contributes to the payload. *)
Definition section_of (o : http_outcome) : option json :=
  match o with
  | Response code (Some j) => if code =? 200 then Some j else None
  | _ => None
  end.

(** [moved n o w k s s']: between [s] and [s'] exactly [n] requests were
    sent (and counted in [total_requests]), [owm_success] grew by [o],
    [wapi_success] by [w], [successful_requests] by [k]; nothing was written
    and nothing else in the agent changed. *)
Record moved (n : nat) (o w k : Z) (s s' : agent) : Prop := mk_moved {
  moved_raw : raw_data s' = raw_data s;
  moved_processed : processed_data s' = processed_data s;
  moved_sent : requests_sent s' = (requests_sent s + n)%nat;
  moved_total :
    total_requests (summary_metrics s')
    = total_requests (summary_metrics s) + Z.of_nat n;
  moved_successful :
    successful_requests (summary_metrics s')
    = successful_requests (summary_metrics s) + k;
  moved_failures :
    failures (summary_metrics s') = failures (summary_metrics s);
  moved_points :
    data_points_collected (summary_metrics s')
    = data_points_collected (summary_metrics s);
  moved_owm :
    owm_success (summary_metrics s') = owm_success (summary_metrics s) + o;
  moved_wapi :
    wapi_success (summary_metrics s') = wapi_success (summary_metrics s) + w;
  moved_quality :
    total_quality_score (summary_metrics s')
    = total_quality_score (summary_metrics s);
  moved_issues : issues (summary_metrics s') = issues (summary_metrics s);
  moved_trace :
    exists seg,
      trace s' = trace s ++ seg /\
      List.length (filter is_get seg) = n /\
      existsb is_write seg = false
}.

(** The payload sections two OpenWeatherMap answers give. *)
Definition owm_sections (o1 o2 : http_outcome) : list (string * json) :=
  match section_of o1 with Some j => [("current", j)] | None => [] end ++
  match section_of o2 with Some j => [("forecast", j)] | None => [] end.

(** The requests of one full pass over a priority list when no source
    answers: two per 'OpenWeatherMap' entry, one per 'WeatherAPI' entry,
    none for any other name. *)
Fixpoint per_pass (apis : list string) : nat :=
  match apis with
  | [] => 0
  | a :: rest =>
      ((if String.eqb a "OpenWeatherMap" then 2
        else if String.eqb a "WeatherAPI" then 1 else 0) + per_pass rest)%nat
  end.

(** No request of the run is answered with HTTP 200 and a decodable body. *)
Definition network_down (E : env) : Prop :=
  forall n url, succeeded (http_get E n url) = false.

(** ** Pauses in range

    [time.sleep] keeps its argument as a count of nanoseconds in a signed
    64-bit integer and raises [OverflowError] when it does not fit, whatever
    its sign; and [RESPECTFUL_DELAY_SECONDS * (2 ** attempt)] raises
    [OverflowError] for a float delay once [2 ** attempt] is no float, from
    attempt 1024 on.  [sleep] and the backoff of [retry_loop] do not have
    these two errors.  What is stated about a pause that returns, or that
    raises [ValueError], is therefore stated for durations of at most
    [max_pause] seconds in absolute value (about 48 days, far inside the
    64-bit range of about 292 years), and what is stated about a retry loop
    that returns, for at most 1025 retries. *)
Definition max_pause : Q := inject_Z (2 ^ 22).

Definition pause_in_range (d : Q) : Prop := (0 <= d)%Q /\ (d <= max_pause)%Q.

(** The backoffs of the retry loop are computed and in range: the last one
    follows attempt [MAX_RETRIES - 2]. *)
Definition backoff_in_range (c : settings) : Prop :=
  MAX_RETRIES c <= 1025 /\
  (RESPECTFUL_DELAY_SECONDS c * inject_Z (2 ^ (MAX_RETRIES c - 2))
   <= max_pause)%Q.

(** ** The timeline of the retry loop *)

(** The URLs an entry of the priority list stands for, in the order they are
    requested. *)
Definition api_urls (E : env) (c a : string) : list string :=
  if String.eqb a "OpenWeatherMap"
  then [owm_current_url E c; owm_forecast_url E c]
  else if String.eqb a "WeatherAPI" then [wapi_url E c]
  else [].

(** The requests of a pass over the entries [apis]. *)
Definition pass_urls (E : env) (c : string) (apis : list string)
  : list string :=
  flat_map (api_urls E c) apis.

(** The marks of the retry loop together with the requests sent. *)
Inductive mark : Type :=
| MAttempt (k : Z)
| MRequest (url : string)
| MWait (d : Q).

Definition mark_of (e : event) : list mark :=
  match e with
  | EvLog _ (AttemptOf n _ _) => [MAttempt (n - 1)]
  | EvGet url => [MRequest url]
  | EvSleep Backoff d => [MWait d]
  | _ => []
  end.

Definition timeline (tr : list event) : list mark := flat_map mark_of tr.

Definition step_of_mark (x : mark) : list step :=
  match x with
  | MAttempt k => [Attempt k]
  | MRequest _ => []
  | MWait d => [Wait d]
  end.

(** [n] attempts in a row, the first being attempt [k]: every attempt but
    the last requests the URLs [full] and is followed by a backoff of
    [base * 2^attempt]; the last one requests the URLs [last]. *)
Fixpoint schedule (base : Q) (full last : list string) (k : Z) (n : nat)
  : list mark :=
  match n with
  | O => []
  | S n' =>
      MAttempt k ::
      match n' with
      | O => map MRequest last
      | S _ =>
          map MRequest full ++
          MWait (base * inject_Z (2 ^ k)) :: schedule base full last (k + 1) n'
      end
  end.

(** ** Accounts of the assessment *)

Definition is_log (e : event) : bool :=
  match e with EvLog _ _ => true | _ => false end.

(** [noted p q iss s s']: between [s] and [s'] only log lines were emitted,
    [data_points_collected] grew by [p], [total_quality_score] by [q], the
    issues [iss] were appended; nothing else in the agent changed. *)
Record noted (p q : Z) (iss : list issue) (s s' : agent) : Prop := mk_noted {
  noted_raw : raw_data s' = raw_data s;
  noted_processed : processed_data s' = processed_data s;
  noted_sent : requests_sent s' = requests_sent s;
  noted_total :
    total_requests (summary_metrics s') = total_requests (summary_metrics s);
  noted_successful :
    successful_requests (summary_metrics s')
    = successful_requests (summary_metrics s);
  noted_failures :
    failures (summary_metrics s') = failures (summary_metrics s);
  noted_points :
    data_points_collected (summary_metrics s')
    = data_points_collected (summary_metrics s) + p;
  noted_owm :
    owm_success (summary_metrics s') = owm_success (summary_metrics s);
  noted_wapi :
    wapi_success (summary_metrics s') = wapi_success (summary_metrics s);
  noted_quality :
    total_quality_score (summary_metrics s')
    = total_quality_score (summary_metrics s) + q;
  noted_issues :
    issues (summary_metrics s') = issues (summary_metrics s) ++ iss;
  noted_trace :
    exists seg, trace s' = trace s ++ seg /\ forallb is_log seg = true
}.

(** The dotted path [field] leads to a value in the payload [d]. *)
Definition resolves (d : json) (field : string) : bool :=
  is_ok (walk (split_dot field) d).

Definition resolved_count (a : string) (d : json) : Z :=
  Z.of_nat (List.length (filter (resolves d) (required_fields a))).

Definition missing_count (a : string) (d : json) : Z :=
  Z.of_nat (List.length (filter (fun f => negb (resolves d f))
                           (required_fields a))).

(** The forecast check finds the forecast incomplete. *)
Definition forecast_short (a : string) (d : json) : bool :=
  if String.eqb a "OpenWeatherMap" then
    match forecast_incomplete d "list" 30 with Ok b => b | Raise _ => false end
  else if String.eqb a "WeatherAPI" then
    match forecast_incomplete d "forecastday" 5 with
    | Ok b => b
    | Raise _ => false
    end
  else false.

(** A temperature is out of range when it is a number below -70 or above
    50; [True]/[False] count as 1/0, anything else cannot be compared. *)
Definition out_of_range (t : json) : bool :=
  match t with
  | JInt z => (z <? -70) || (50 <? z)
  | JFloat f => PrimFloat.ltb f (-70)%float || PrimFloat.ltb 50%float f
  | _ => false
  end.

(** The temperature the validity check flags, if any. *)
Definition suspect_temp (a : string) (d : json) : option json :=
  match read_temp a d with
  | Ok t => if out_of_range t then Some t else None
  | Raise _ => None
  end.

Definition suspect_issue (c a : string) (d : json) : list issue :=
  match suspect_temp a d with
  | Some t => [SuspectTemp c a t]
  | None => []
  end.

(** The score of a payload: 100, minus 20 for an incomplete forecast, 5 for
    each required field that does not resolve, 10 for a suspect
    temperature. *)
Definition expected_score (a : string) (d : json) : Z :=
  100 - 20 * b2z (forecast_short a d) - 5 * missing_count a d
      - 10 * b2z (is_some (suspect_temp a d)).

(** An OpenWeatherMap payload with no forecast, no humidity, no wind and a
    temperature of 100 degrees. *)
Definition hot_record : record :=
  mk_record "OpenWeatherMap" "Paris"
    (JDict [("current", JDict [("main", JDict [("temp", JInt 100)])])]) None.

(** ** The books of a run *)

Definition score_of (r : record) : Z :=
  match quality_score r with Some q => q | None => 0 end.

Definition score_sum (l : list record) : Z :=
  fold_right (fun r acc => score_of r + acc) 0 l.

(** What holds of the agent at every point where [collect_data] can be
    left, normally or by an exception. *)
Record sound (s : agent) : Prop := mk_sound {
  sound_total :
    total_requests (summary_metrics s) = Z.of_nat (requests_sent s);
  sound_gets : List.length (filter is_get (trace s)) = requests_sent s;
  sound_writes : existsb is_write (trace s) = false;
  sound_owm : 0 <= owm_success (summary_metrics s);
  sound_wapi : 0 <= wapi_success (summary_metrics s);
  sound_sources :
    owm_success (summary_metrics s) + wapi_success (summary_metrics s)
    <= total_requests (summary_metrics s);
  sound_successful :
    successful_requests (summary_metrics s)
    <= owm_success (summary_metrics s) + wapi_success (summary_metrics s);
  sound_raw :
    Z.of_nat (List.length (raw_data s))
    = successful_requests (summary_metrics s);
  sound_processed :
    (List.length (processed_data s) <= List.length (raw_data s)
     <= List.length (processed_data s) + 1)%nat;
  sound_failures :
    failures (summary_metrics s)
    = Z.of_nat (List.length (hard_failures (summary_metrics s)));
  sound_quality :
    total_quality_score (summary_metrics s) = score_sum (raw_data s);
  sound_points :
    0 <= data_points_collected (summary_metrics s)
      <= 3 * successful_requests (summary_metrics s)
}.

(** The standardized record [p] belongs to the raw record [r] of the run
    stamped [ts]. *)
Definition standardizes (ts : string) (r : record) (p : processed) : Prop :=
  p_city p = city r /\
  p_source_api p = api r /\
  p_collection_timestamp p = ts /\
  exists q,
    quality_score r = Some q /\ 60 <= q <= 100 /\
    (p_quality_score p = JInt q \/ p_quality_score p = JInt 0).

(** Every raw record has its standardized record, in the same position. *)
Definition settled (ts : string) (s : agent) : Prop :=
  Forall2 (standardizes ts) (raw_data s) (processed_data s).

(** What [collect_data] has done for the cities [cs] when no source ever
    answers: [k] requests and one hard failure per city, no record. *)
Definition gave_up (max : Z) (k : nat) (cs : list string) (s s' : agent)
  : Prop :=
  raw_data s' = raw_data s /\
  processed_data s' = processed_data s /\
  successful_requests (summary_metrics s')
    = successful_requests (summary_metrics s) /\
  failures (summary_metrics s')
    = failures (summary_metrics s) + Z.of_nat (List.length cs) /\
  issues (summary_metrics s')
    = issues (summary_metrics s) ++ map (fun c => HardFailure c max) cs /\
  total_requests (summary_metrics s')
    = total_requests (summary_metrics s) + Z.of_nat (List.length cs * k) /\
  requests_sent s' = (requests_sent s + List.length cs * k)%nat.

(** Every source is down. *)
Definition down_env : env :=
  mk_env sample_keys sample_settings "20250101_000000"
    (fun _ _ => ConnectionFailed).

(** No city is configured. *)
Definition no_city_env : env :=
  mk_env sample_keys
    (mk_settings "metric" [] 3 (1 # 2) ["OpenWeatherMap"; "WeatherAPI"])
    "20250101_000000"
    (fun _ _ => ConnectionFailed).

(** The priority list names no known source; every request would be answered
    with HTTP 200. *)
Definition unknown_source_env : env :=
  mk_env sample_keys
    (mk_settings "metric" ["Paris"; "Oslo"] 3 (1 # 2) ["AccuWeather"])
    "20250101_000000"
    (fun _ _ => Response 200 (Some complete_current)).

(** A negative pause is configured; every request would be answered with
    HTTP 200. *)
Definition negative_delay_env : env :=
  mk_env sample_keys
    (mk_settings "metric" ["Paris"; "Oslo"] 3 (-1 # 2)
       ["OpenWeatherMap"; "WeatherAPI"])
    "20250101_000000"
    (fun _ _ => Response 200 (Some complete_current)).

(** ** Standardization details *)

(** [d.get(k)] on a dict: the value, or [None]. *)
Definition or_null (o : option json) : json :=
  match o with Some v => v | None => JNull end.

(** A complete OpenWeatherMap payload with a one-entry forecast list. *)
Definition owm_full_record : record :=
  mk_record "OpenWeatherMap" "Paris"
    (JDict [("current", complete_current);
            ("forecast",
             JDict [("list",
                     JList [JDict [("dt_txt", JStr "2025-01-01 00:00:00")]])])])
    (Some 80).

(** A WeatherAPI payload whose wind speed is a string. *)
Definition bad_wind_record : record :=
  mk_record "WeatherAPI" "Paris"
    (JDict [("current",
             JDict [("temp_c", JFloat 21.5); ("humidity", JInt 40);
                    ("wind_kph", JStr "36")]);
            ("forecast",
             JDict [("forecastday", JList [JDict [("date", JStr "2025-01-01")]])])])
    (Some 80).

(** ** The end of a run *)

(** [s] with the events [tr] added to its trace. *)
Definition extend (s : agent) (tr : list event) : agent :=
  mk_agent (raw_data s) (processed_data s) (summary_metrics s)
           (requests_sent s) (trace s ++ tr).

(** The events of [_save_data], [_generate_and_save_metadata],
    [_generate_quality_report] and [_generate_collection_summary] in the
    state [s]. *)
Definition save_events (s : agent) : list event :=
  match raw_data s with
  | [] => [EvLog WARNING NoDataSkippingSave]
  | _ => [EvWrite (RawFile (raw_data s)); EvLog INFO RawDataSaved;
          EvWrite (ProcessedFile (processed_data s));
          EvLog INFO ProcessedDataSaved]
  end.

Definition metadata_events (s : agent) : list event :=
  [EvWrite (MetadataFile (summary_metrics s)); EvLog INFO MetadataSaved].

Definition report_events (s : agent) : list event :=
  [EvWrite (QualityReportFile (summary_metrics s) (raw_data s));
   EvLog INFO QualityReportGenerated].

Definition summary_events (s : agent) : list event :=
  [EvWrite (CollectionSummaryFile (summary_metrics s));
   EvLog INFO CollectionSummaryGenerated].

(** [s] with the crash issue for [e] appended. *)
Definition with_crash (e : exn) (s : agent) : agent :=
  mk_agent (raw_data s) (processed_data s)
           (append_issue (AgentCrash e) (summary_metrics s))
           (requests_sent s) (trace s).

(** * Verification *)

(** ** Rules of the weakest precondition [wp] *)

Lemma wp_ret {S A} (a : A) (s : S) Q X : Q a s -> wp (ret a) s Q X.
Proof. exact (fun H => H). Qed.

Lemma wp_raise {S A} (e : exn) (s : S) (Q : A -> S -> Prop) X :
  X e s -> wp (raise e) s Q X.
Proof. exact (fun H => H). Qed.

Lemma wp_modify {S} (f : S -> S) (s : S) Q X :
  Q tt (f s) -> wp (modify f) s Q X.
Proof. exact (fun H => H). Qed.

Lemma wp_gets {S A} (f : S -> A) (s : S) Q X :
  Q (f s) s -> wp (gets f) s Q X.
Proof. exact (fun H => H). Qed.

Lemma wp_lift {S A} (r : result A) (s : S) Q X :
  match r with Ok a => Q a s | Raise e => X e s end -> wp (lift r) s Q X.
Proof. unfold wp, lift. destruct r; auto. Qed.

Lemma wp_bind {S A B} (m : ST S A) (k : A -> ST S B) (s : S) Q X :
  wp m s (fun a s' => wp (k a) s' Q X) X -> wp (bind m k) s Q X.
Proof.
  unfold wp, bind. destruct (m s) as [[a | e] s']; auto.
Qed.

Lemma wp_try_except {S A} (m : ST S A) (h : exn -> ST S A) (s : S) Q X :
  wp m s Q (fun e s' => wp (h e) s' Q X) -> wp (try_except m h) s Q X.
Proof.
  unfold wp, try_except. destruct (m s) as [[a | e] s']; auto.
Qed.

Lemma wp_mono {S A} (m : ST S A) (s : S) (Q Q' : A -> S -> Prop)
    (X X' : exn -> S -> Prop) :
  wp m s Q X ->
  (forall a s', Q a s' -> Q' a s') ->
  (forall e s', X e s' -> X' e s') ->
  wp m s Q' X'.
Proof.
  unfold wp. destruct (m s) as [[a | e] s']; auto.
Qed.

Lemma wp_ok {S A} (m : ST S A) (s : S) (Q : A -> S -> Prop) X a s' :
  wp m s Q X -> m s = (Ok a, s') -> Q a s'.
Proof. unfold wp. intros H Hm. now rewrite Hm in H. Qed.

Lemma wp_total {S A} (m : ST S A) (s : S) (Q : A -> S -> Prop) :
  wp m s Q (fun _ _ => False) -> exists a s', m s = (Ok a, s') /\ Q a s'.
Proof.
  unfold wp. destruct (m s) as [[a | e] s']; [eauto | tauto].
Qed.

Ltac wp_step :=
  lazymatch goal with
  | |- wp (bind _ _) _ _ _ => apply wp_bind
  | |- wp (ret _) _ _ _ => apply wp_ret
  | |- wp (raise _) _ _ _ => apply wp_raise
  | |- wp (lift ?r) _ _ _ => apply wp_lift; destruct r
  | |- wp (modify _) _ _ _ => apply wp_modify
  | |- wp (gets _) _ _ _ => apply wp_gets
  | |- wp (try_except _ _) _ _ _ => apply wp_try_except
  | |- wp (if ?b then _ else _) _ _ _ => destruct b
  | |- wp (match ?x with _ => _ end) _ _ _ => destruct x
  end.

(** ** Standardization ([_process_raw_data]) *)

Section Processing.

Variable E : env.

(** The field mapping never touches ['quality_score']. *)
Lemma mapping_keeps_quality (r : record) (p0 : processed) :
  p_quality_score (snd (mapping r p0)) = p_quality_score p0.
Proof.
  assert (H : wp (mapping r) p0
                (fun _ p => p_quality_score p = p_quality_score p0)
                (fun _ p => p_quality_score p = p_quality_score p0)).
  { unfold mapping, map_owm, map_wapi, set_temp, set_humidity, set_wind,
      set_summary.
    repeat wp_step; reflexivity. }
  unfold wp in H. destruct (mapping r p0) as [[u | e] p]; exact H.
Qed.

Lemma mapping_keeps_city (r : record) (p0 : processed) :
  p_city (snd (mapping r p0)) = p_city p0.
Proof.
  assert (H : wp (mapping r) p0
                (fun _ p => p_city p = p_city p0)
                (fun _ p => p_city p = p_city p0)).
  { unfold mapping, map_owm, map_wapi, set_temp, set_humidity, set_wind,
      set_summary.
    repeat wp_step; reflexivity. }
  unfold wp in H. destruct (mapping r p0) as [[u | e] p]; exact H.
Qed.

Lemma mapping_keeps_identity (r : record) (p0 : processed) :
  p_source_api (snd (mapping r p0)) = p_source_api p0 /\
  p_collection_timestamp (snd (mapping r p0)) = p_collection_timestamp p0.
Proof.
  assert (H : wp (mapping r) p0
                (fun _ p => p_source_api p = p_source_api p0 /\
                            p_collection_timestamp p = p_collection_timestamp p0)
                (fun _ p => p_source_api p = p_source_api p0 /\
                            p_collection_timestamp p = p_collection_timestamp p0)).
  { unfold mapping, map_owm, map_wapi, set_temp, set_humidity, set_wind,
      set_summary.
    repeat wp_step; split; reflexivity. }
  unfold wp in H. destruct (mapping r p0) as [[u | e] p]; exact H.
Qed.

Lemma process_unfold (r : record) (s : agent) :
  _process_raw_data E r s =
  match mapping r (initial_processed E r) with
  | (Ok _, p) => (Ok p, s)
  | (Raise e, p) =>
      (Ok (set_quality (JInt 0) p),
       snd (log ERROR (StandardizationError (city r) (api r) e) s))
  end.
Proof.
  unfold _process_raw_data.
  destruct (mapping r (initial_processed E r)) as [[u | e] p]; reflexivity.
Qed.

End Processing.

Section ProcessingResults.

Variable E : env.

Lemma get_dict_ok (kvs : list (string * json)) (k : string) (d : json) :
  exists v, get (JDict kvs) k d = Ok v.
Proof. simpl. destruct (dict_lookup k kvs); eauto. Qed.

Lemma get_in_empty_sections (kvs : list (string * json)) (k : string) :
  forallb (fun kv => empty_section (snd kv)) kvs = true ->
  get (JDict kvs) k (JDict []) = Ok (JDict []).
Proof.
  intros H. simpl.
  induction kvs as [| [k' v] rest IH]; simpl in *; [reflexivity |].
  apply andb_prop in H. destruct H as [Hv Hrest].
  destruct (String.eqb k k').
  - destruct v as [| | | | | | [| ? ?]]; try discriminate. reflexivity.
  - auto.
Qed.

Lemma mapping_empty_sections (r : record) :
  sections_empty (data r) = true ->
  mapping r (initial_processed E r) = (Ok tt, initial_processed E r).
Proof.
  intros H. unfold sections_empty in H.
  destruct (data r) as [| | | | | | kvs] eqn:Hd; try discriminate.
  unfold mapping. rewrite Hd.
  destruct (String.eqb (api r) "OpenWeatherMap").
  { unfold map_owm, bind, lift.
    rewrite !(get_in_empty_sections kvs _ H). reflexivity. }
  destruct (String.eqb (api r) "WeatherAPI").
  { unfold map_wapi, bind, lift.
    rewrite !(get_in_empty_sections kvs _ H). reflexivity. }
  reflexivity.
Qed.

(** C2 (amended): [_process_raw_data] always returns a record and never
    raises; on a payload whose sections are all empty the four optional
    fields stay unset, nothing is logged, and the quality score is the one
    the record carries ('N/A' when it carries none): it is not forced to 0,
    because the [.get] defaults raise no exception. *)
Theorem process_never_raises (r : record) (s : agent) :
  exists p s',
    _process_raw_data E r s = (Ok p, s') /\
    (sections_empty (data r) = true ->
       current_temp_c p = JNull /\
       current_humidity_p p = JNull /\
       current_wind_speed_m_s p = JNull /\
       forecast_summary p = None /\
       p_quality_score p =
         match quality_score r with Some q => JInt q | None => JStr "N/A" end /\
       s' = s).
Proof.
  rewrite process_unfold.
  destruct (mapping r (initial_processed E r)) as [[u | e] p] eqn:Hm.
  - exists p, s. split; [reflexivity |]. intros Hs.
    rewrite (mapping_empty_sections r Hs) in Hm. inversion Hm; subst.
    simpl. auto 10.
  - eexists _, _. split; [reflexivity |]. intros Hs.
    rewrite (mapping_empty_sections r Hs) in Hm. discriminate.
Qed.

(** C10: on a record that carries no ['quality_score'], the standardized
    record's score is the string 'N/A', unless the field mapping raised, in
    which case it is the integer 0. *)
Theorem process_unscored_record (r : record) (s : agent) :
  quality_score r = None ->
  exists p s',
    _process_raw_data E r s = (Ok p, s') /\
    p_quality_score p =
      if is_ok (fst (mapping r (initial_processed E r)))
      then JStr "N/A" else JInt 0.
Proof.
  intros Hq. rewrite process_unfold.
  pose proof (mapping_keeps_quality r (initial_processed E r)) as Hk.
  destruct (mapping r (initial_processed E r)) as [[u | e] p]; simpl in *.
  - exists p, s. split; [reflexivity |]. rewrite Hk, Hq. reflexivity.
  - eexists _, _. split; reflexivity.
Qed.

Lemma round2_of_36_kph : round2 (36 * kph_to_m_s) = 10%float.
Proof. vm_compute. reflexivity. Qed.

(** C8: for a WeatherAPI record whose [current.wind_kph] is the float [f],
    the standardized wind speed is [round(f * 0.277778, 2)]; for 36.0 kph it
    is exactly 10.0 m/s. *)
Theorem wapi_wind_speed_conversion (r : record) (kvs cur : list (string * json))
    (f : float) (s : agent) :
  api r = "WeatherAPI" ->
  data r = JDict kvs ->
  dict_lookup "current" kvs = Some (JDict cur) ->
  dict_lookup "wind_kph" cur = Some (JFloat f) ->
  exists p s',
    _process_raw_data E r s = (Ok p, s') /\
    current_wind_speed_m_s p = JFloat (round2 (f * kph_to_m_s)) /\
    (f = 36%float -> current_wind_speed_m_s p = JFloat 10).
Proof.
  intros Ha Hd Hcur Hwind.
  assert (Hw : wp (mapping r) (initial_processed E r)
            (fun _ p => current_wind_speed_m_s p = JFloat (round2 (f * kph_to_m_s)))
            (fun _ p => current_wind_speed_m_s p = JFloat (round2 (f * kph_to_m_s)))).
  { unfold mapping. rewrite Ha, Hd. simpl String.eqb. cbv iota.
    unfold map_wapi.
    apply wp_bind, wp_lift. simpl get. rewrite Hcur.
    apply wp_bind, wp_lift.
    destruct (get_dict_ok cur "temp_c" JNull) as [t ->].
    apply wp_bind. unfold set_temp. apply wp_modify.
    apply wp_bind, wp_lift.
    destruct (get_dict_ok cur "humidity" JNull) as [h ->].
    apply wp_bind. unfold set_humidity. apply wp_modify.
    apply wp_bind, wp_lift. simpl get. rewrite Hwind.
    apply wp_bind. apply wp_bind, wp_lift. simpl mul_float.
    unfold set_wind. apply wp_modify.
    unfold set_summary. repeat wp_step; reflexivity. }
  rewrite process_unfold. unfold wp in Hw.
  destruct (mapping r (initial_processed E r)) as [[u | e] p].
  - exists p, s. split; [reflexivity |]. split; [exact Hw |].
    intros ->. rewrite Hw, round2_of_36_kph. reflexivity.
  - eexists _, _. split; [reflexivity |]. simpl. split; [exact Hw |].
    intros ->. rewrite Hw, round2_of_36_kph. reflexivity.
Qed.

End ProcessingResults.

Lemma process_never_raises_witness :
  exists p s',
    _process_raw_data empty_bodies_env empty_owm_record init_agent = (Ok p, s') /\
    current_temp_c p = JNull /\
    current_humidity_p p = JNull /\
    current_wind_speed_m_s p = JNull /\
    forecast_summary p = None /\
    p_quality_score p = JInt 65 /\
    s' = init_agent.
Proof.
  destruct (process_never_raises empty_bodies_env empty_owm_record init_agent)
    as [p [s' [Hrun Hempty]]].
  exists p, s'. split; [exact Hrun | apply Hempty; reflexivity].
Defined.

(** C2 (as stated, refuted): OpenWeatherMap answers both endpoints with the
    body [{}]; the collected record has two empty sections and the
    assessment gives it the score 65.  Its standardized record keeps 65: the
    score is not forced to 0. *)
Lemma process_empty_sections_not_zero :
  hd_error (raw_data (snd (collect_data empty_bodies_env init_agent)))
    = Some empty_owm_record /\
  sections_empty (data empty_owm_record) = true /\
  exists p,
    fst (_process_raw_data empty_bodies_env empty_owm_record init_agent) = Ok p /\
    p_quality_score p = JInt 65 /\
    p_quality_score p <> JInt 0.
Proof.
  split; [vm_compute; reflexivity |].
  split; [reflexivity |].
  eexists. split; [reflexivity |]. split; [reflexivity | discriminate].
Qed.

Lemma process_unscored_record_witness :
  exists p s',
    _process_raw_data empty_bodies_env unscored_record init_agent = (Ok p, s') /\
    p_quality_score p =
      if is_ok (fst (mapping unscored_record
                       (initial_processed empty_bodies_env unscored_record)))
      then JStr "N/A" else JInt 0.
Proof.
  apply (process_unscored_record empty_bodies_env unscored_record init_agent).
  reflexivity.
Defined.

Lemma wapi_wind_speed_conversion_witness :
  exists p s',
    _process_raw_data empty_bodies_env windy_record init_agent = (Ok p, s') /\
    current_wind_speed_m_s p = JFloat (round2 (36 * kph_to_m_s)) /\
    (36%float = 36%float -> current_wind_speed_m_s p = JFloat 10).
Proof.
  apply (wapi_wind_speed_conversion empty_bodies_env windy_record
           [("current", JDict [("wind_kph", JFloat 36)])]
           [("wind_kph", JFloat 36)] 36 init_agent); reflexivity.
Defined.

(** ** Quiet computations *)

Lemma skeleton_app (a b : list event) :
  skeleton (a ++ b) = skeleton a ++ skeleton b.
Proof. unfold skeleton. apply flat_map_app. Qed.

Lemma same_books_refl (s : agent) : same_books s s.
Proof. now constructor. Qed.

Lemma same_books_trans (s1 s2 s3 : agent) :
  same_books s1 s2 -> same_books s2 s3 -> same_books s1 s3.
Proof.
  intros [A1 A2 A3 A4] [B1 B2 B3 B4].
  constructor; congruence.
Qed.

Lemma silent_refl (s : agent) : silent s s.
Proof. exists []. now rewrite app_nil_r. Qed.

Lemma silent_trans (s1 s2 s3 : agent) :
  silent s1 s2 -> silent s2 s3 -> silent s1 s3.
Proof.
  intros [a [Ha Sa]] [b [Hb Sb]]. exists (a ++ b).
  rewrite Hb, Ha, app_assoc, skeleton_app, Sa, Sb. auto.
Qed.

Lemma quiet_refl (s : agent) : quiet s s.
Proof. split; [apply same_books_refl | apply silent_refl]. Qed.

Lemma quiet_trans (s1 s2 s3 : agent) : quiet s1 s2 -> quiet s2 s3 -> quiet s1 s3.
Proof.
  intros [A B] [C D].
  split; [eapply same_books_trans | eapply silent_trans]; eauto.
Qed.

Lemma keeps_incr_total_requests : keeps_books incr_total_requests.
Proof. intro m. now split. Qed.

Lemma keeps_incr_successful_requests : keeps_books incr_successful_requests.
Proof. intro m. now split. Qed.

Lemma keeps_incr_data_points : keeps_books incr_data_points.
Proof. intro m. now split. Qed.

Lemma keeps_incr_owm_success : keeps_books incr_owm_success.
Proof. intro m. now split. Qed.

Lemma keeps_incr_wapi_success : keeps_books incr_wapi_success.
Proof. intro m. now split. Qed.

Lemma keeps_add_quality_score (q : Z) : keeps_books (add_quality_score q).
Proof. intro m. now split. Qed.

Lemma keeps_suspect_temp (c a : string) (t : json) :
  keeps_books (append_issue (SuspectTemp c a t)).
Proof.
  intro m. split; [reflexivity |].
  unfold hard_failures, append_issue. simpl.
  rewrite filter_app. simpl. apply app_nil_r.
Qed.

Create HintDb books.

#[local] Hint Resolve keeps_incr_total_requests keeps_incr_successful_requests
  keeps_incr_data_points keeps_incr_owm_success keeps_incr_wapi_success
  keeps_add_quality_score keeps_suspect_temp : books.

Section QuietRules.

Context {A : Type}.
Variables (P : A -> Prop) (X : exn -> Prop).

Lemma qwp_ret (a : A) (s : agent) : P a -> qwp (ret a) s P X.
Proof. intros H. split; [exact H | apply quiet_refl]. Qed.

Lemma qwp_raise (e : exn) (s : agent) : X e -> qwp (raise e) s P X.
Proof. intros H. split; [exact H | apply quiet_refl]. Qed.

Lemma qwp_lift (r : result A) (s : agent) :
  match r with Ok a => P a | Raise e => X e end -> qwp (lift r) s P X.
Proof.
  intros H. unfold qwp, wp, lift.
  destruct r; (split; [exact H | apply quiet_refl]).
Qed.

Lemma qwp_bind {B} (m : M B) (k : B -> M A) (s : agent) (P1 : B -> Prop) :
  qwp m s P1 X ->
  (forall b s', P1 b -> qwp (k b) s' P X) ->
  qwp (bind m k) s P X.
Proof.
  unfold qwp, wp, bind. intros Hm Hk.
  destruct (m s) as [[b | e] s1]; [| exact Hm].
  destruct Hm as [Hb Hq]. specialize (Hk b s1 Hb).
  destruct (k b s1) as [[a | e] s2]; destruct Hk as [H1 H2];
    (split; [exact H1 | eapply quiet_trans; eauto]).
Qed.

Lemma qwp_try_except (m : M A) (h : exn -> M A) (s : agent) (X1 : exn -> Prop) :
  qwp m s P X1 ->
  (forall e s', X1 e -> qwp (h e) s' P X) ->
  qwp (try_except m h) s P X.
Proof.
  unfold qwp, wp, try_except. intros Hm Hh.
  destruct (m s) as [[a | e] s1]; [exact Hm |].
  destruct Hm as [He Hq]. specialize (Hh e s1 He).
  destruct (h e s1) as [[a | e'] s2]; destruct Hh as [H1 H2];
    (split; [exact H1 | eapply quiet_trans; eauto]).
Qed.

Lemma qwp_mono (m : M A) (s : agent) (P' : A -> Prop) (X' : exn -> Prop) :
  qwp m s P' X' ->
  (forall a, P' a -> P a) -> (forall e, X' e -> X e) ->
  qwp m s P X.
Proof.
  unfold qwp. intros H HP HX. eapply wp_mono; [exact H | |]; simpl;
    intros ? ? [? ?]; auto.
Qed.

End QuietRules.

Section QuietUnitRules.

Variables (P : unit -> Prop) (X : exn -> Prop).

Lemma qwp_upd_metrics (f : metrics -> metrics) (s : agent) :
  keeps_books f -> P tt -> qwp (upd_metrics f) s P X.
Proof.
  intros Hf HP. split; [exact HP |]. split.
  - destruct (Hf (summary_metrics s)). now constructor.
  - exists []. simpl. now rewrite app_nil_r.
Qed.

Lemma qwp_emit (e : event) (s : agent) :
  step_of e = [] -> P tt -> qwp (emit e) s P X.
Proof.
  intros He HP. split; [exact HP |]. split.
  - now constructor.
  - exists [e]. split; [reflexivity |]. simpl. now rewrite He.
Qed.

Lemma qwp_sleep_respectful (d : Q) (s : agent) :
  P tt -> (Qle_bool 0 d = false -> X ValueError) ->
  qwp (sleep Respectful d) s P X.
Proof.
  intros HP HX. unfold sleep. destruct (Qle_bool 0 d).
  - now apply qwp_emit.
  - apply qwp_raise. now apply HX.
Qed.

End QuietUnitRules.

Ltac qstep :=
  lazymatch goal with
  | |- qwp (bind _ _) _ _ _ =>
      eapply qwp_bind with (P1 := fun _ => True); [| intros ? ? _]
  | |- qwp (ret _) _ _ _ => apply qwp_ret
  | |- qwp (raise _) _ _ _ => apply qwp_raise
  | |- qwp (upd_metrics _) _ _ _ => apply qwp_upd_metrics; [auto with books |]
  | |- qwp (log _ _) _ _ _ => apply qwp_emit; [reflexivity |]
  | |- qwp (emit _) _ _ _ => apply qwp_emit; [reflexivity |]
  | |- qwp (if ?b then _ else _) _ _ _ => destruct b eqn:?
  | |- qwp (match ?x with _ => _ end) _ _ _ => destruct x eqn:?
  end.

(** [len] of a string counts code points, not bytes: twice U+00E9 (bytes
    195, 169) followed by an ASCII letter has length 3. *)
Example len_counts_code_points :
  len (JStr (String (ascii_of_nat 195) (String (ascii_of_nat 169)
            (String (ascii_of_nat 195) (String (ascii_of_nat 169) "x")))))
  = Ok 3.
Proof. reflexivity. Qed.

(** ** Quality assessment ([_assess_and_log_quality]) *)

Section Assessment.

Variable E : env.

Lemma getitem_raises (v : json) (k : string) (e : exn) :
  getitem v k = Raise e -> existsb (exn_eqb e) [KeyError; TypeError] = true.
Proof.
  destruct v; simpl; try (intros [= <-]; reflexivity).
  destruct (dict_lookup k kvs); [discriminate | intros [= <-]; reflexivity].
Qed.

Lemma walk_raises (parts : list string) (v : json) (e : exn) :
  walk parts v = Raise e -> existsb (exn_eqb e) [KeyError; TypeError] = true.
Proof.
  revert v. induction parts as [| part rest IH]; intros v; simpl.
  - discriminate.
  - destruct (getitem v part) as [x | e'] eqn:Hg; simpl.
    + apply IH.
    + intros [= <-]. eapply getitem_raises; eauto.
Qed.

Lemma check_field_quiet (c a : string) (d : json) (score : Z) (field : string)
    (s : agent) :
  qwp (check_field c a d score field) s
      (fun z => z = score \/ z = score - 5) (fun _ => False).
Proof.
  unfold check_field, try_except_only.
  eapply qwp_try_except
    with (X1 := fun e => existsb (exn_eqb e) [KeyError; TypeError] = true).
  - eapply qwp_bind with (P1 := fun _ => True).
    + apply qwp_lift. destruct (walk (split_dot field) d) eqn:Hw; [exact I |].
      eapply walk_raises; eauto.
    + intros ? ? _. repeat qstep; auto.
  - intros e s' He. rewrite He. repeat qstep; auto.
Qed.

Lemma check_fields_quiet (c a : string) (d : json) (fields : list string)
    (score : Z) (s : agent) :
  qwp (check_fields c a d fields score) s
      (fun z => score - 5 * Z.of_nat (List.length fields) <= z <= score)
      (fun _ => False).
Proof.
  revert score s. induction fields as [| field rest IH]; intros score s.
  - apply qwp_ret. simpl. lia.
  - cbn [check_fields].
    eapply qwp_bind; [apply check_field_quiet |].
    intros z s' Hz. eapply qwp_mono; [apply IH | | auto].
    cbv beta in *. intros z' Hz'. cbn [List.length]. lia.
Qed.

Lemma validity_check_quiet (c a : string) (d : json) (score : Z) (s : agent) :
  qwp (validity_check c a d score) s
      (fun z => z = score \/ z = score - 10) (fun _ => False).
Proof.
  unfold validity_check.
  eapply qwp_try_except with (X1 := fun _ => True).
  - eapply qwp_bind with (P1 := fun _ => True).
    { apply qwp_lift. now destruct (read_temp a d). }
    intros t s1 _.
    eapply qwp_bind with (P1 := fun _ => True).
    { apply qwp_lift. now destruct (suspect t). }
    intros bad s2 _. repeat qstep; auto.
  - intros e s' _. apply qwp_ret. auto.
Qed.

Lemma forecast_check_quiet (c a : string) (d : json) (score : Z) (s : agent) :
  qwp (forecast_check c a d score) s
      (fun z => z = score \/ z = score - 20)
      (fun _ => forecast_readable a d = false).
Proof.
  unfold forecast_check, forecast_readable.
  destruct (String.eqb a "OpenWeatherMap").
  { eapply qwp_bind with (P1 := fun _ => True).
    - apply qwp_lift. now destruct (forecast_incomplete d "list" 30).
    - intros inc s' _. repeat qstep; auto. }
  destruct (String.eqb a "WeatherAPI").
  { eapply qwp_bind with (P1 := fun _ => True).
    - apply qwp_lift. now destruct (forecast_incomplete d "forecastday" 5).
    - intros inc s' _. repeat qstep; auto. }
  apply qwp_ret. auto.
Qed.

(** When the forecast check raises, nothing has happened yet. *)
Lemma forecast_check_unreadable (c a : string) (d : json) (score : Z)
    (s : agent) :
  forecast_readable a d = false ->
  exists e, forecast_check c a d score s = (Raise e, s).
Proof.
  unfold forecast_check, forecast_readable.
  destruct (String.eqb a "OpenWeatherMap").
  { unfold bind, lift.
    destruct (forecast_incomplete d "list" 30); [discriminate | eauto]. }
  destruct (String.eqb a "WeatherAPI").
  { unfold bind, lift.
    destruct (forecast_incomplete d "forecastday" 5); [discriminate | eauto]. }
  discriminate.
Qed.

Lemma required_fields_length (a : string) :
  (List.length (required_fields a) <= 3)%nat.
Proof.
  unfold required_fields.
  destruct (String.eqb a "OpenWeatherMap"); [simpl; lia |].
  destruct (String.eqb a "WeatherAPI"); simpl; lia.
Qed.

Lemma completeness_score_quiet (r : record) (s : agent) :
  qwp (completeness_score r) s
      (fun z => 55 <= z <= 100)
      (fun _ => forecast_readable (api r) (data r) = false).
Proof.
  unfold completeness_score.
  eapply qwp_bind; [apply forecast_check_quiet |].
  intros s1 st1 H1.
  eapply qwp_bind.
  { eapply qwp_mono; [apply check_fields_quiet | intros z Hz; exact Hz | intros ? []]. }
  intros s2 st2 H2.
  eapply qwp_mono; [apply validity_check_quiet | | intros ? []].
  cbv beta in *. intros z Hz.
  pose proof (required_fields_length (api r)). lia.
Qed.

Lemma assess_quiet (r : record) (s : agent) :
  qwp (_assess_and_log_quality r) s
      (fun r' => exists q, r' = with_quality_score r q /\ 55 <= q <= 100)
      (fun _ => forecast_readable (api r) (data r) = false).
Proof.
  unfold _assess_and_log_quality.
  eapply qwp_bind; [apply completeness_score_quiet |].
  intros z s1 Hz. cbv beta in Hz. repeat qstep; try exact I.
  exists (Z.max 0 z). split; [reflexivity | lia].
Qed.

Lemma assess_unreadable (r : record) (s : agent) :
  forecast_readable (api r) (data r) = false ->
  exists e, _assess_and_log_quality r s = (Raise e, s).
Proof.
  intros H.
  destruct (forecast_check_unreadable (city r) (api r) (data r) 100 s H)
    as [e He].
  exists e. unfold _assess_and_log_quality, completeness_score, bind.
  now rewrite He.
Qed.

(** C6: the score the assessment attaches is an integer between 0 and 100,
    for every payload.  The assessment attaches a score whenever its
    forecast check can be evaluated on the payload ([forecast_readable]),
    which includes every dict payload without a 'forecast' section, so every
    payload with entirely missing sections; otherwise
    the forecast check raises before anything else happens and no score is
    attached at all. *)
Theorem assess_score_in_range (r : record) (s : agent) :
  (if forecast_readable (api r) (data r)
   then exists r' s' q,
          _assess_and_log_quality r s = (Ok r', s') /\
          quality_score r' = Some q /\ 0 <= q <= 100
   else exists e, _assess_and_log_quality r s = (Raise e, s))
  /\ (forall kvs,
        data r = JDict kvs -> dict_lookup "forecast" kvs = None ->
        forecast_readable (api r) (data r) = true).
Proof.
  split.
  - destruct (forecast_readable (api r) (data r)) eqn:Hr.
    + pose proof (assess_quiet r s) as H. unfold qwp, wp in H.
      destruct (_assess_and_log_quality r s) as [[r' | e] s'].
      * destruct H as [[q [-> Hq]] _]. exists (with_quality_score r q), s', q.
        repeat split; try reflexivity; lia.
      * destruct H as [H _]. rewrite Hr in H. discriminate.
    + now apply assess_unreadable.
  - intros kvs Hd Hf.
    unfold forecast_readable, forecast_incomplete. rewrite Hd.
    cbn [contains]. rewrite Hf.
    destruct (String.eqb (api r) "OpenWeatherMap"); [reflexivity |].
    destruct (String.eqb (api r) "WeatherAPI"); reflexivity.
Qed.

(** C9: the deductions of one assessment add up to at most 45, so the score
    before the final [max(0, ..)] is at least 55, the clamp leaves it as it
    is, and the attached score is never 0.  (When the forecast check cannot
    be evaluated, the assessment raises before any deduction.) *)
Theorem assess_deduction_bound (r : record) (s : agent) :
  if forecast_readable (api r) (data r) then
    exists z s1 r' s',
      completeness_score r s = (Ok z, s1) /\
      0 <= 100 - z <= 45 /\
      Z.max 0 z = z /\
      _assess_and_log_quality r s = (Ok r', s') /\
      quality_score r' = Some z /\
      55 <= z /\ z <> 0
  else exists e, _assess_and_log_quality r s = (Raise e, s).
Proof.
  destruct (forecast_readable (api r) (data r)) eqn:Hr.
  - pose proof (completeness_score_quiet r s) as H. unfold qwp, wp in H.
    destruct (completeness_score r s) as [[z | e] s1] eqn:Hc.
    + destruct H as [Hz _].
      assert (Hmax : Z.max 0 z = z) by lia.
      exists z, s1. eexists _, _. split; [reflexivity |].
      split; [lia |]. split; [exact Hmax |].
      split.
      * unfold _assess_and_log_quality, bind. rewrite Hc. simpl. reflexivity.
      * simpl. rewrite Hmax. repeat split; lia.
    + destruct H as [H _]. rewrite Hr in H. discriminate.
  - now apply assess_unreadable.
Qed.

(** Once the forecast check has returned, the assessment runs to its end
    and deducts at most 25 more points. *)
Lemma assess_after_forecast_check (r : record) (s s1 : agent) (z0 : Z) :
  forecast_check (city r) (api r) (data r) 100 s = (Ok z0, s1) ->
  0 <= z0 - 25 ->
  exists r' s' q,
    _assess_and_log_quality r s = (Ok r', s') /\
    quality_score r' = Some q /\ z0 - 25 <= q <= z0.
Proof.
  intros Hf Hpos.
  unfold _assess_and_log_quality, completeness_score, bind. rewrite Hf.
  pose proof (check_fields_quiet (city r) (api r) (data r)
                (required_fields (api r)) z0 s1) as H2.
  unfold qwp, wp in H2.
  destruct (check_fields (city r) (api r) (data r) (required_fields (api r))
              z0 s1) as [[z2 | e] s2]; [| now destruct H2].
  destruct H2 as [H2 _].
  pose proof (validity_check_quiet (city r) (api r) (data r) z2 s2) as H3.
  unfold qwp, wp in H3.
  destruct (validity_check (city r) (api r) (data r) z2 s2) as [[z3 | e] s3];
    [| now destruct H3].
  destruct H3 as [H3 _]. simpl.
  pose proof (required_fields_length (api r)).
  eexists _, _, _. split; [reflexivity |]. split; [reflexivity |]. lia.
Qed.

End Assessment.

(** ** The source clients ([_fetch_owm_data], [_fetch_wapi_data]) *)

Section Fetching.

Variable E : env.

#[local] Abbreviation delay := (RESPECTFUL_DELAY_SECONDS (conf E)).

Lemma http_request_quiet (url : string) (s : agent)
    (P : http_outcome -> Prop) (X : exn -> Prop) :
  P (http_get E (requests_sent s) url) -> qwp (http_request E url) s P X.
Proof.
  intros HP. split; [exact HP |]. split.
  - now constructor.
  - exists [EvGet url]. now split.
Qed.

Ltac fstep :=
  lazymatch goal with
  | |- qwp (try_except _ _) _ _ _ =>
      eapply qwp_try_except with (X1 := fun _ => True); [| intros ? ? _]
  | |- qwp (http_request _ _) _ _ _ => apply http_request_quiet
  | |- qwp (sleep Respectful _) _ _ _ => apply qwp_sleep_respectful
  | _ => qstep
  end.

Lemma owm_endpoint_quiet (c name url : string)
    (acc : list (string * json) * bool) (s : agent) :
  qwp (owm_endpoint E c name url acc) s
      (fun _ => True) (fun _ => Qle_bool 0 delay = false).
Proof.
  unfold owm_endpoint. repeat fstep; auto.
Qed.

Lemma owm_loop_quiet (c : string) (eps : list (string * string))
    (acc : list (string * json) * bool) (s : agent) :
  qwp (owm_loop E c eps acc) s
      (fun _ => True) (fun _ => Qle_bool 0 delay = false).
Proof.
  revert acc s. induction eps as [| [name url] rest IH]; intros acc s.
  - now apply qwp_ret.
  - cbn [owm_loop]. eapply qwp_bind; [apply owm_endpoint_quiet |].
    intros acc' s' _. apply IH.
Qed.

Lemma fetch_owm_quiet (c : string) (s : agent) :
  qwp (_fetch_owm_data E c) s
      (fresh_for c) (fun _ => Qle_bool 0 delay = false).
Proof.
  unfold _fetch_owm_data.
  eapply qwp_bind; [apply owm_loop_quiet |].
  intros acc s' _. destruct (snd acc); apply qwp_ret.
  - intros r [= <-]. now split.
  - intros r [=].
Qed.

Lemma fetch_wapi_quiet (c : string) (s : agent) :
  qwp (_fetch_wapi_data E c) s
      (fresh_for c) (fun _ => Qle_bool 0 delay = false).
Proof.
  unfold _fetch_wapi_data.
  eapply qwp_bind with (P1 := fun _ => True);
    [apply qwp_upd_metrics; auto with books | intros ? ? _].
  eapply qwp_bind with (P1 := fun _ => True);
    [apply qwp_emit; auto | intros ? ? _].
  eapply qwp_try_except with (X1 := fun _ => True).
  - eapply qwp_bind with (P1 := fun _ => True);
      [now apply http_request_quiet | intros o ? _].
    destruct o as [| code body].
    + now apply qwp_raise.
    + destruct (code =? 200).
      * eapply qwp_bind with (P1 := fun _ => True);
          [apply qwp_upd_metrics; auto with books | intros ? ? _].
        destruct body as [j |].
        -- apply qwp_ret. intros r [= <-]. now split.
        -- now apply qwp_raise.
      * eapply qwp_bind with (P1 := fun _ => True);
          [apply qwp_emit; auto | intros ? ? _].
        apply qwp_ret. intros r [=].
  - intros e s2 _.
    eapply qwp_bind with (P1 := fun _ => True);
      [apply qwp_emit; auto | intros ? ? _].
    apply qwp_ret. intros r [=].
Qed.

Lemma owm_endpoint_result (c name url : string)
    (acc : list (string * json) * bool) (s : agent) :
  Qle_bool 0 delay = true ->
  exists s',
    owm_endpoint E c name url acc s =
      (Ok (match http_get E (requests_sent s) url with
           | Response code (Some j) =>
               if code =? 200 then (dict_set name j (fst acc), true) else acc
           | _ => acc
           end), s') /\
    requests_sent s' = S (requests_sent s).
Proof.
  intros Hd.
  unfold owm_endpoint, bind, try_except, upd_metrics, log, emit, modify,
    http_request, sleep, raise, ret.
  rewrite Hd. simpl.
  destruct (http_get E (requests_sent s) url) as [| code [j |]]; simpl;
    try destruct (code =? 200); simpl; eauto.
Qed.

Lemma fetch_owm_result (c : string) (s : agent) :
  Qle_bool 0 delay = true ->
  exists s',
    _fetch_owm_data E c s =
      (Ok (let acc1 :=
             match http_get E (requests_sent s) (owm_current_url E c) with
             | Response code (Some j) =>
                 if code =? 200 then ([("current", j)], true) else ([], false)
             | _ => ([], false)
             end in
           let acc2 :=
             match http_get E (S (requests_sent s)) (owm_forecast_url E c) with
             | Response code (Some j) =>
                 if code =? 200 then (dict_set "forecast" j (fst acc1), true)
                 else acc1
             | _ => acc1
             end in
           if snd acc2
           then Some (mk_record "OpenWeatherMap" c (JDict (fst acc2)) None)
           else None), s').
Proof.
  intros Hd. unfold _fetch_owm_data, owm_endpoints. cbn [owm_loop].
  unfold bind.
  destruct (owm_endpoint_result c "current" (owm_current_url E c) ([], false)
              s Hd) as [s1 [H1 Hn1]].
  rewrite H1.
  match goal with
  | |- context [owm_endpoint E c "forecast" ?u ?acc s1] =>
      destruct (owm_endpoint_result c "forecast" u acc s1 Hd) as [s2 [H2 _]]
  end.
  rewrite H2, Hn1. cbn [ret fst dict_set].
  eexists.
  destruct (snd _); reflexivity.
Qed.

Lemma fetch_wapi_result (c : string) (s : agent) :
  exists s',
    _fetch_wapi_data E c s =
      (Ok (match http_get E (requests_sent s) (wapi_url E c) with
           | Response code (Some j) =>
               if code =? 200 then Some (mk_record "WeatherAPI" c j None)
               else None
           | _ => None
           end), s').
Proof.
  unfold _fetch_wapi_data, bind, try_except, upd_metrics, log, emit, modify,
    http_request, raise, ret.
  simpl.
  destruct (http_get E (requests_sent s) (wapi_url E c)) as [| code [j |]];
    simpl; try destruct (code =? 200); simpl; eauto.
Qed.

Lemma forecast_check_current_only (c : string) (j : json) (s : agent) :
  forecast_check c "OpenWeatherMap" (JDict [("current", j)]) 100 s =
  (Ok 80, snd (log WARNING (ForecastListIncomplete c) s)).
Proof. reflexivity. Qed.

(** C5: a fetch returns [None] exactly when every endpoint call of the
    source failed (no HTTP 200 with a decodable body).  When OpenWeatherMap
    answers 200 for 'current' and another status for 'forecast', the payload
    holds the single section 'current', the fetch returns it (an overall
    success), and the assessment's forecast check deducts exactly 20 (score
    80 after it; at most 25 more points go for missing fields and a suspect
    temperature).  The OpenWeatherMap fetch pauses after each call: it is
    stated for a pause in range ([pause_in_range]), which [time.sleep]
    accepts. *)
Theorem fetch_absent_iff_all_failed (c : string) (s : agent) :
  pause_in_range delay ->
  (exists d s',
     _fetch_owm_data E c s = (Ok d, s') /\
     (d = None <->
        succeeded (http_get E (requests_sent s) (owm_current_url E c)) = false /\
        succeeded (http_get E (S (requests_sent s)) (owm_forecast_url E c)) = false) /\
     (forall j code body,
        http_get E (requests_sent s) (owm_current_url E c) = Response 200 (Some j) ->
        http_get E (S (requests_sent s)) (owm_forecast_url E c) = Response code body ->
        code <> 200 ->
        let r := mk_record "OpenWeatherMap" c (JDict [("current", j)]) None in
        d = Some r /\
        forall s1,
          forecast_check (city r) (api r) (data r) 100 s1 =
            (Ok (100 - 20), snd (log WARNING (ForecastListIncomplete c) s1)) /\
          exists r' s2 q,
            _assess_and_log_quality r s1 = (Ok r', s2) /\
            quality_score r' = Some q /\ 55 <= q <= 80))
  /\
  (exists d s',
     _fetch_wapi_data E c s = (Ok d, s') /\
     (d = None <->
        succeeded (http_get E (requests_sent s) (wapi_url E c)) = false)).
Proof.
  intros [Hd _]. apply Qle_bool_iff in Hd. split.
  - destruct (fetch_owm_result c s Hd) as [s' Hf].
    eexists _, s'. split; [exact Hf |]. split.
    + destruct (http_get E (requests_sent s) (owm_current_url E c))
        as [| c1 [j1 |]];
      destruct (http_get E (S (requests_sent s)) (owm_forecast_url E c))
        as [| c2 [j2 |]];
      simpl; try destruct (c1 =? 200); try destruct (c2 =? 200); simpl;
      split; try (intros [? ?]); try intro; try discriminate; auto.
    + intros j code body H1 H2 Hcode r.
      rewrite H1, H2. apply Z.eqb_neq in Hcode.
      cbn [Z.eqb Pos.eqb]. rewrite Hcode.
      split; [now destruct body |].
      intros s1. split; [reflexivity |].
      destruct (assess_after_forecast_check r s1 _ 80
                  (forecast_check_current_only c j s1))
        as [r' [s2 [q [Ha [Hq Hb]]]]]; [lia |].
      exists r', s2, q. repeat split; auto; lia.
  - destruct (fetch_wapi_result c s) as [s' Hf].
    eexists _, s'. split; [exact Hf |].
    destruct (http_get E (requests_sent s) (wapi_url E c)) as [| c1 [j1 |]];
      simpl; try destruct (c1 =? 200); simpl;
      split; intro; try discriminate; auto.
Qed.

(** The two sources differ: every OpenWeatherMap endpoint call ends with the
    respectful pause, a WeatherAPI call sleeps nowhere. *)
Lemma owm_endpoint_pauses (c name url : string)
    (acc : list (string * json) * bool) (s : agent) :
  Qle_bool 0 delay = true ->
  exists seg,
    trace (snd (owm_endpoint E c name url acc s)) =
      trace s ++
      EvLog INFO (OwmRequesting name c) :: EvGet url :: seg ++
      [EvSleep Respectful delay].
Proof.
  intros Hd.
  unfold owm_endpoint, bind, try_except, upd_metrics, log, emit, modify,
    http_request, sleep, raise, ret.
  rewrite Hd. simpl.
  destruct (http_get E (requests_sent s) url) as [| code [j |]]; simpl;
    try destruct (code =? 200); simpl; rewrite <- ?app_assoc; simpl;
    first [exists []; reflexivity | eexists [_]; reflexivity].
Qed.

Lemma fetch_wapi_never_sleeps (c : string) (s : agent) :
  exists seg,
    trace (snd (_fetch_wapi_data E c s)) = trace s ++ seg /\
    existsb is_sleep seg = false.
Proof.
  unfold _fetch_wapi_data, bind, try_except, upd_metrics, log, emit, modify,
    http_request, raise, ret.
  simpl.
  destruct (http_get E (requests_sent s) (wapi_url E c)) as [| code [j |]];
    simpl; try destruct (code =? 200); simpl; rewrite <- ?app_assoc; simpl;
    eexists; split; reflexivity.
Qed.

End Fetching.

(** ** The collection loops *)

Lemma alternate_head (base : Q) (k : Z) (n : nat) (x : step) (rest : list step) :
  alternate base k n = x :: rest -> x = Attempt k.
Proof. destruct n; simpl; [discriminate | now intros [= <- _]]. Qed.

(** A backoff is always followed by an attempt, and the backoff before
    attempt [j] lasts [base * 2^(j-1)]. *)
Lemma alternate_wait (base : Q) (n : nat) :
  forall (k : Z) (pre post : list step) (d : Q),
    alternate base k n = pre ++ Wait d :: post ->
    exists j post',
      post = Attempt j :: post' /\ d = (base * inject_Z (2 ^ (j - 1)))%Q.
Proof.
  induction n as [| n' IH]; intros k pre post d H.
  - destruct pre; discriminate.
  - cbn [alternate] in H. destruct pre as [| x pre']; [discriminate |].
    injection H as _ H. destruct n' as [| n'']; [destruct pre'; discriminate |].
    destruct pre' as [| y pre''].
    + injection H as Hd Hpost. subst d.
      destruct post as [| z post'];
        [destruct n''; discriminate |].
      injection Hpost as <- _.
      exists (k + 1), post'. split; [reflexivity |].
      replace (k + 1 - 1) with k by lia. reflexivity.
    + injection H as _ H. exact (IH (k + 1) pre'' post d H).
Qed.

Lemma alternate_last (base : Q) (n : nat) :
  forall (k : Z) (pre : list step) (x : step),
    alternate base k n = pre ++ [x] -> exists j, x = Attempt j.
Proof.
  induction n as [| n' IH]; intros k pre x H.
  - destruct pre; discriminate.
  - cbn [alternate] in H. destruct n' as [| n''].
    + destruct pre as [| y [| ? ?]]; try discriminate.
      injection H as <-. eauto.
    + destruct pre as [| y pre']; [discriminate |].
      injection H as _ H.
      destruct pre' as [| z pre''].
      * injection H as _ H. destruct n''; discriminate.
      * injection H as _ H. eapply IH; eauto.
Qed.

Lemma alternate_attempts (base : Q) (n : nat) (k : Z) :
  List.length (filter is_attempt (alternate base k n)) = n.
Proof.
  revert k. induction n as [| n' IH]; intros k; [reflexivity |].
  cbn [alternate filter is_attempt List.length]. f_equal.
  destruct n' as [| n'']; [reflexivity |].
  cbn [filter is_attempt]. apply IH.
Qed.

Lemma timeline_app (a b : list event) :
  timeline (a ++ b) = timeline a ++ timeline b.
Proof. apply flat_map_app. Qed.

(** The marks of the retry loop are those of its timeline, requests left
    out. *)
Lemma skeleton_timeline (tr : list event) :
  skeleton tr = flat_map step_of_mark (timeline tr).
Proof.
  induction tr as [| e rest IH]; [reflexivity |].
  change (skeleton (e :: rest)) with (step_of e ++ skeleton rest).
  change (timeline (e :: rest)) with (mark_of e ++ timeline rest).
  rewrite flat_map_app, IH. f_equal.
  destruct e as [lvl m | url | why d | f]; try reflexivity.
  - destruct m; reflexivity.
  - destruct why; reflexivity.
Qed.

Lemma requests_no_step (urls : list string) :
  flat_map step_of_mark (map MRequest urls) = [].
Proof. induction urls; [reflexivity | exact IHurls]. Qed.

Lemma steps_schedule (base : Q) (full last : list string) (n : nat) :
  forall k, flat_map step_of_mark (schedule base full last k n)
            = alternate base k n.
Proof.
  induction n as [| n' IH]; intros k; [reflexivity |].
  cbn [schedule alternate flat_map step_of_mark app]. f_equal.
  destruct n' as [| n'']; [apply requests_no_step |].
  rewrite flat_map_app, requests_no_step.
  cbn [flat_map step_of_mark app]. f_equal. apply IH.
Qed.

(** The attempt a backoff is followed by, with its number. *)
Lemma alternate_wait_bound (base : Q) (n : nat) :
  forall (k : Z) (pre post : list step) (d : Q),
    alternate base k n = pre ++ Wait d :: post ->
    exists j post',
      post = Attempt j :: post' /\ d = (base * inject_Z (2 ^ (j - 1)))%Q /\
      k + 1 <= j < k + Z.of_nat n.
Proof.
  induction n as [| n' IH]; intros k pre post d H.
  - destruct pre; discriminate.
  - cbn [alternate] in H. destruct pre as [| x pre']; [discriminate |].
    injection H as _ H. destruct n' as [| n'']; [destruct pre'; discriminate |].
    destruct pre' as [| y pre''].
    + injection H as Hd Hpost. subst d.
      destruct post as [| z post'];
        [destruct n''; discriminate |].
      injection Hpost as <- _.
      exists (k + 1), post'. split; [reflexivity |].
      replace (k + 1 - 1) with k by lia. split; [reflexivity | lia].
    + injection H as _ H.
      destruct (IH (k + 1) pre'' post d H) as [j [post' [H1 [H2 H3]]]].
      exists j, post'. repeat split; auto; lia.
Qed.

Lemma log_snd (lvl : level) (m : log_msg) (s : agent) :
  log lvl m s = (Ok tt, snd (log lvl m s)).
Proof. reflexivity. Qed.

Section Collection.

Variable E : env.

#[local] Abbreviation delay := (RESPECTFUL_DELAY_SECONDS (conf E)).
#[local] Abbreviation max_retries := (MAX_RETRIES (conf E)).

Lemma api_loop_quiet (c : string) (apis : list string) (d : option record)
    (s : agent) :
  fresh_for c d ->
  qwp (api_loop E c apis d) s (fresh_for c) (fun _ => Qle_bool 0 delay = false).
Proof.
  revert d s. induction apis as [| a rest IH]; intros d s Hd.
  - now apply qwp_ret.
  - cbn [api_loop]. eapply qwp_bind with (P1 := fresh_for c).
    + destruct (String.eqb a "OpenWeatherMap"); [apply fetch_owm_quiet |].
      destruct (String.eqb a "WeatherAPI"); [apply fetch_wapi_quiet |].
      now apply qwp_ret.
    + intros d' s' Hd'. destruct d' as [r |].
      * eapply qwp_bind with (P1 := fun _ => True);
          [apply qwp_upd_metrics; auto with books | intros ? ? _].
        now apply qwp_ret.
      * now apply IH.
Qed.

Lemma backoff_nonneg (a : Z) :
  Qle_bool 0 (delay * inject_Z (2 ^ a)) = false -> Qle_bool 0 delay = false.
Proof.
  intros Hb. destruct (Qle_bool 0 delay) eqn:Hd; [| reflexivity].
  apply Qle_bool_iff in Hd.
  assert (H : (0 <= delay * inject_Z (2 ^ a))%Q).
  { apply Qmult_le_0_compat; [exact Hd |].
    unfold Qle. simpl. pose proof (Z.pow_nonneg 2 a). lia. }
  apply Qle_bool_iff in H. congruence.
Qed.

Lemma same_books_emit (s : agent) (e : event) : same_books s (snd (emit e s)).
Proof. now constructor. Qed.

Lemma retry_loop_wp (c : string) :
  forall (m k : nat) (s : agent),
    (m = 0%nat \/ Z.of_nat (k + m) = max_retries) ->
    wp (retry_loop E c (map Z.of_nat (seq k m)) None) s
       (retried delay c (Z.of_nat k) m s)
       (fun _ _ => Qle_bool 0 delay = false).
Proof.
  induction m as [| m' IH]; intros k s Hm.
  - apply wp_ret. split; [apply same_books_refl |]. split; [intros r [=] |].
    exists 0%nat, []. rewrite app_nil_r. repeat split; auto; lia.
  - destruct Hm as [Hm | Hm]; [discriminate |].
    cbn [seq map retry_loop].
    apply wp_bind. unfold log at 1, emit at 1. apply wp_modify.
    set (s0 := mk_agent _ _ _ _ _).
    apply wp_bind.
    eapply wp_mono;
      [apply (api_loop_quiet c (API_PRIORITY (conf E)) None s0); intros r [=]
      | | intros e s1 [HX _]; exact HX].
    intros d s1 [Hfresh [Hbooks [seg1 [Htr1 Hsk1]]]].
    assert (Hb01 : same_books s s1).
    { eapply same_books_trans; [| exact Hbooks]. now constructor. }
    assert (Hmark : skeleton [EvLog INFO (AttemptOf (Z.of_nat k + 1) max_retries c)]
                    = [Attempt (Z.of_nat k)]).
    { cbn. now rewrite Z.add_simpl_r. }
    destruct d as [r |].
    + apply wp_ret. split; [exact Hb01 |]. split; [exact Hfresh |].
      exists 1%nat, ([EvLog INFO (AttemptOf (Z.of_nat k + 1) max_retries c)] ++ seg1).
      repeat split; try lia; try discriminate.
      * rewrite Htr1. subst s0. cbn [trace]. now rewrite <- app_assoc.
      * now rewrite skeleton_app, Hmark, Hsk1.
    + apply wp_bind.
      destruct (Z.of_nat k <? max_retries - 1) eqn:Hlast.
      * apply Z.ltb_lt in Hlast.
        apply wp_bind. unfold log at 1, emit at 1. apply wp_modify.
        unfold sleep.
        destruct (Qle_bool 0 (delay * inject_Z (2 ^ Z.of_nat k))) eqn:Hq;
          [| apply wp_raise; eapply backoff_nonneg; eauto].
        unfold emit at 1. apply wp_modify.
        set (s3 := mk_agent _ _ _ _ _).
        eapply wp_mono; [apply (IH (S k) s3); right; lia | | auto].
        intros d s' [Hb [Hf [n [seg [Hn [Hpos [Hnone [Htr Hsk]]]]]]]].
        assert (Hn0 : (0 < n)%nat) by (apply Hpos; lia).
        split.
        { eapply same_books_trans; [exact Hb01 |].
          eapply same_books_trans; [| exact Hb]. now constructor. }
        split; [exact Hf |].
        exists (S n),
          ([EvLog INFO (AttemptOf (Z.of_nat k + 1) max_retries c)] ++ seg1 ++
           [EvLog WARNING (NoDataRetrying c (delay * inject_Z (2 ^ Z.of_nat k)));
            EvSleep Backoff (delay * inject_Z (2 ^ Z.of_nat k))] ++ seg).
        repeat split; try lia.
        -- intros Hd. rewrite (Hnone Hd). reflexivity.
        -- rewrite Htr. subst s3. cbn [trace]. rewrite Htr1. subst s0.
           cbn [trace]. rewrite <- !app_assoc. reflexivity.
        -- rewrite !skeleton_app, Hmark, Hsk1, Hsk.
           destruct n as [| n']; [lia |].
           replace (Z.of_nat (S k)) with (Z.of_nat k + 1) by lia.
           reflexivity.
      * apply Z.ltb_ge in Hlast.
        apply wp_ret.
        assert (m' = 0%nat) by lia. subst m'.
        cbn [seq map retry_loop]. apply wp_ret.
        split; [exact Hb01 |]. split; [intros r [=] |].
        exists 1%nat, ([EvLog INFO (AttemptOf (Z.of_nat k + 1) max_retries c)] ++ seg1).
        repeat split; try lia.
        -- rewrite Htr1. subst s0. cbn [trace]. now rewrite <- app_assoc.
        -- now rewrite skeleton_app, Hmark, Hsk1.
Qed.

Lemma owm_endpoint_timeline (c name url : string)
    (acc : list (string * json) * bool) (s : agent) :
  Qle_bool 0 delay = true ->
  exists acc' s' seg,
    owm_endpoint E c name url acc s = (Ok acc', s') /\
    trace s' = trace s ++ seg /\
    timeline seg = [MRequest url].
Proof.
  intros Hd.
  unfold owm_endpoint, bind, try_except, upd_metrics, log, emit, modify,
    http_request, sleep, raise, ret.
  rewrite Hd. simpl.
  destruct (http_get E (requests_sent s) url) as [| code [j |]]; simpl;
    try destruct (code =? 200); simpl;
    (eexists _, _, _; split; [reflexivity |]);
    (split; [rewrite <- ?app_assoc; simpl; reflexivity |]);
    reflexivity.
Qed.

Lemma fetch_owm_timeline (c : string) (s : agent) :
  Qle_bool 0 delay = true ->
  exists d s' seg,
    _fetch_owm_data E c s = (Ok d, s') /\
    trace s' = trace s ++ seg /\
    timeline seg = map MRequest (api_urls E c "OpenWeatherMap") /\
    (forall r, d = Some r -> api r = "OpenWeatherMap").
Proof.
  intros Hd. unfold _fetch_owm_data, owm_endpoints. cbn [owm_loop].
  unfold bind.
  destruct (owm_endpoint_timeline c "current" (owm_current_url E c)
              ([], false) s Hd) as [acc1 [s1 [seg1 [H1 [T1 L1]]]]].
  rewrite H1.
  destruct (owm_endpoint_timeline c "forecast" (owm_forecast_url E c)
              acc1 s1 Hd) as [acc2 [s2 [seg2 [H2 [T2 L2]]]]].
  rewrite H2. unfold ret.
  assert (Htl : trace s2 = trace s ++ seg1 ++ seg2 /\
                timeline (seg1 ++ seg2)
                = map MRequest (api_urls E c "OpenWeatherMap")).
  { split; [now rewrite T2, T1, app_assoc |].
    now rewrite timeline_app, L1, L2. }
  destruct Htl as [Ht Hl].
  destruct (snd acc2).
  - eexists _, s2, _. split; [reflexivity |]. split; [exact Ht |].
    split; [exact Hl |]. now intros r [= <-].
  - eexists _, s2, _. split; [reflexivity |]. split; [exact Ht |].
    split; [exact Hl |]. intros r [=].
Qed.

Lemma fetch_wapi_timeline (c : string) (s : agent) :
  exists d s' seg,
    _fetch_wapi_data E c s = (Ok d, s') /\
    trace s' = trace s ++ seg /\
    timeline seg = map MRequest (api_urls E c "WeatherAPI") /\
    (forall r, d = Some r -> api r = "WeatherAPI").
Proof.
  unfold _fetch_wapi_data, bind, try_except, upd_metrics, log, emit, modify,
    http_request, raise, ret.
  simpl.
  destruct (http_get E (requests_sent s) (wapi_url E c)) as [| code [j |]];
    simpl; try destruct (code =? 200); simpl;
    (eexists _, _, _; split; [reflexivity |]);
    (split; [rewrite <- ?app_assoc; simpl; reflexivity |]);
    (split; [reflexivity |]);
    intros r [=]; subst; reflexivity.
Qed.

(** One pass over the priority list requests the URLs of its entries, in
    order, up to and including the first entry that gives a record. *)
Lemma api_loop_timeline (c : string) (apis : list string) :
  Qle_bool 0 delay = true ->
  forall s,
  exists d s' seg tried rest,
    api_loop E c apis None s = (Ok d, s') /\
    trace s' = trace s ++ seg /\
    timeline seg = map MRequest (pass_urls E c tried) /\
    apis = tried ++ rest /\
    (d = None -> tried = apis) /\
    (forall r, d = Some r -> exists pre, tried = pre ++ [api r]).
Proof.
  intros Hd. induction apis as [| a rest0 IH]; intros s.
  - exists None, s, [], [], []. rewrite app_nil_r.
    repeat split; auto. intros r [=].
  - cbn [api_loop]. unfold bind at 1.
    assert (Hdis : exists d1 s1 seg1,
               (if String.eqb a "OpenWeatherMap" then _fetch_owm_data E c
                else if String.eqb a "WeatherAPI" then _fetch_wapi_data E c
                else ret None) s = (Ok d1, s1) /\
               trace s1 = trace s ++ seg1 /\
               timeline seg1 = map MRequest (api_urls E c a) /\
               (forall r, d1 = Some r -> api r = a)).
    { unfold api_urls.
      destruct (String.eqb a "OpenWeatherMap") eqn:Ho.
      - apply String.eqb_eq in Ho. subst a. apply (fetch_owm_timeline c s Hd).
      - destruct (String.eqb a "WeatherAPI") eqn:Hw.
        + apply String.eqb_eq in Hw. subst a. apply fetch_wapi_timeline.
        + exists None, s, []. rewrite app_nil_r.
          repeat split; auto. intros r [=]. }
    destruct Hdis as [d1 [s1 [seg1 [H1 [T1 [L1 A1]]]]]].
    destruct d1 as [r |].
    + destruct (String.eqb a "OpenWeatherMap");
        [| destruct (String.eqb a "WeatherAPI")]; rewrite H1;
        (unfold bind, upd_metrics, modify, ret;
         eexists (Some r), _, seg1, [a], rest0;
         split; [reflexivity |]; split; [exact T1 |];
         split; [unfold pass_urls; cbn [flat_map]; now rewrite app_nil_r |];
         split; [reflexivity |]; split; [discriminate |];
         intros r' [= <-]; exists []; now rewrite (A1 r eq_refl)).
    + destruct (IH s1)
        as [d [s' [seg [tried [rest [H2 [T2 [L2 [Hs [Hn Hp]]]]]]]]]].
      destruct (String.eqb a "OpenWeatherMap");
        [| destruct (String.eqb a "WeatherAPI")]; rewrite H1, H2;
        (exists d, s', (seg1 ++ seg), (a :: tried), rest;
         split; [reflexivity |];
         split; [now rewrite T2, T1, app_assoc |];
         split;
         [rewrite timeline_app, L1, L2; unfold pass_urls; cbn [flat_map];
          now rewrite map_app |];
         split; [now rewrite Hs |];
         split; [intros Hd0; now rewrite (Hn Hd0) |];
         intros r Hr; destruct (Hp r Hr) as [pre ->]; now exists (a :: pre)).
Qed.

Lemma backoff_accepted (a : Z) :
  Qle_bool 0 delay = true -> Qle_bool 0 (delay * inject_Z (2 ^ a)) = true.
Proof.
  intros Hd. destruct (Qle_bool 0 (delay * inject_Z (2 ^ a))) eqn:Hb;
    [reflexivity |].
  apply backoff_nonneg in Hb. congruence.
Qed.

(** The retry loop, attempt by attempt: every attempt that gives no record
    is a full pass over the priority list, followed by a backoff unless it
    is the last attempt. *)
Lemma retry_loop_timeline (c : string) :
  Qle_bool 0 delay = true ->
  forall (m k : nat) (s : agent),
    (m = 0%nat \/ Z.of_nat (k + m) = max_retries) ->
    exists d s' seg n tried rest,
      retry_loop E c (map Z.of_nat (seq k m)) None s = (Ok d, s') /\
      trace s' = trace s ++ seg /\
      timeline seg
      = schedule delay (pass_urls E c (API_PRIORITY (conf E)))
          (pass_urls E c tried) (Z.of_nat k) n /\
      (n <= m)%nat /\
      ((0 < m)%nat -> (0 < n)%nat) /\
      API_PRIORITY (conf E) = tried ++ rest /\
      (d = None -> n = m /\ tried = API_PRIORITY (conf E)) /\
      (forall r, d = Some r -> exists pre, tried = pre ++ [api r]).
Proof.
  intros Hd. induction m as [| m' IH]; intros k s Hm.
  - exists None, s, [], 0%nat, (API_PRIORITY (conf E)), [].
    rewrite !app_nil_r. repeat split; auto; try lia. intros r [=].
  - destruct Hm as [Hm | Hm]; [discriminate |].
    cbn [seq map retry_loop]. unfold bind at 1. rewrite log_snd.
    set (s0 := snd (log INFO (AttemptOf (Z.of_nat k + 1) max_retries c) s)).
    unfold bind at 1.
    destruct (api_loop_timeline c (API_PRIORITY (conf E)) Hd s0)
      as [d1 [s1 [seg1 [tried1 [rest1 [H1 [T1 [L1 [Hs1 [Hn1 Hp1]]]]]]]]]].
    rewrite H1.
    assert (T01 : trace s1
                  = trace s
                    ++ [EvLog INFO (AttemptOf (Z.of_nat k + 1) max_retries c)]
                    ++ seg1).
    { rewrite T1. subst s0. cbn [log emit modify snd trace].
      now rewrite <- app_assoc. }
    assert (L01 : timeline
                    ([EvLog INFO (AttemptOf (Z.of_nat k + 1) max_retries c)]
                     ++ seg1)
                  = MAttempt (Z.of_nat k)
                    :: map MRequest (pass_urls E c tried1)).
    { rewrite timeline_app, L1. cbn. now rewrite Z.add_simpl_r. }
    destruct d1 as [r |].
    + exists (Some r), s1,
        ([EvLog INFO (AttemptOf (Z.of_nat k + 1) max_retries c)] ++ seg1),
        1%nat, tried1, rest1.
      split; [reflexivity |]. split; [exact T01 |].
      split; [exact L01 |].
      repeat split; auto; try lia. discriminate.
    + specialize (Hn1 eq_refl). subst tried1.
      unfold bind at 1.
      destruct (Z.of_nat k <? max_retries - 1) eqn:Hlast.
      * apply Z.ltb_lt in Hlast.
        unfold bind at 1. rewrite log_snd.
        unfold sleep. rewrite (backoff_accepted (Z.of_nat k) Hd).
        set (s3 := snd (emit (EvSleep Backoff
                                (delay * inject_Z (2 ^ Z.of_nat k)))
                          (snd (log WARNING
                                  (NoDataRetrying c
                                     (delay * inject_Z (2 ^ Z.of_nat k)))
                                  s1)))).
        assert (He : emit (EvSleep Backoff (delay * inject_Z (2 ^ Z.of_nat k)))
                       (snd (log WARNING
                               (NoDataRetrying c
                                  (delay * inject_Z (2 ^ Z.of_nat k))) s1))
                     = (Ok tt, s3)) by reflexivity.
        rewrite He.
        destruct (IH (S k) s3)
          as [d [s' [seg [n [tried [rest [H2 [T2 [L2 [Hle [Hpos [Hs [Hn Hp]]]]]]]]]]]]];
          [right; lia |].
        rewrite H2.
        assert (Hn0 : (0 < n)%nat) by (apply Hpos; lia).
        exists d, s',
          (([EvLog INFO (AttemptOf (Z.of_nat k + 1) max_retries c)] ++ seg1)
           ++ [EvLog WARNING
                 (NoDataRetrying c (delay * inject_Z (2 ^ Z.of_nat k)));
               EvSleep Backoff (delay * inject_Z (2 ^ Z.of_nat k))] ++ seg),
          (S n), tried, rest.
        split; [reflexivity |].
        split.
        { rewrite T2. subst s3. cbn [log emit modify snd trace].
          rewrite T01, <- !app_assoc. reflexivity. }
        split.
        { rewrite timeline_app, L01, timeline_app, L2.
          destruct n as [| n']; [lia |].
          replace (Z.of_nat (S k)) with (Z.of_nat k + 1) by lia.
          reflexivity. }
        split; [lia |]. split; [lia |]. split; [exact Hs |].
        split; [| exact Hp].
        intros Hd0. destruct (Hn Hd0) as [-> ->]. auto.
      * apply Z.ltb_ge in Hlast.
        assert (m' = 0%nat) by lia. subst m'.
        exists None, s1,
          ([EvLog INFO (AttemptOf (Z.of_nat k + 1) max_retries c)] ++ seg1),
          1%nat, (API_PRIORITY (conf E)), rest1.
        split; [reflexivity |]. split; [exact T01 |].
        split; [exact L01 |].
        repeat split; auto; try lia.
Qed.

Lemma backoff_bound (j : Z) :
  pause_in_range delay -> backoff_in_range (conf E) ->
  1 <= j < max_retries ->
  pause_in_range (delay * inject_Z (2 ^ (j - 1))).
Proof.
  intros [Hd0 _] [_ Hb] Hj.
  assert (Hp : (0 <= inject_Z (2 ^ (j - 1)))%Q).
  { change 0%Q with (inject_Z 0). rewrite <- Zle_Qle.
    apply Z.pow_nonneg. lia. }
  split; [now apply Qmult_le_0_compat |].
  eapply Qle_trans; [| exact Hb].
  rewrite !(Qmult_comm delay).
  apply Qmult_le_compat_r; [| exact Hd0].
  rewrite <- Zle_Qle. apply Z.pow_le_mono_r; lia.
Qed.

(** C3: for a city, the retry loop makes at most [MAX_RETRIES] attempts,
    and every attempt is a pass over the API priority list: it requests the
    URLs of the entries in priority order, all of them when it gives no
    record, and up to the entry that gives the record otherwise.  Every
    attempt but the last is followed by a backoff sleep, and the one slept
    before attempt [k] (attempts counted from 0, as the loop variable is)
    lasts [RESPECTFUL_DELAY_SECONDS * 2^(k-1)]; the loop's last mark is an
    attempt, so no backoff follows the final attempt.  Stated for pauses and
    backoffs in range ([pause_in_range], [backoff_in_range]): the loop then
    returns, and every backoff it sleeps is in range. *)
Theorem retry_attempts_and_backoff (c : string) (s : agent) :
  pause_in_range delay ->
  backoff_in_range (conf E) ->
  exists d s' seg n tried,
    retry_loop E c (range max_retries) None s = (Ok d, s') /\
    trace s' = trace s ++ seg /\
    skeleton seg = alternate delay 0 n /\
    List.length (filter is_attempt (skeleton seg)) = n /\
    (n <= Z.to_nat max_retries)%nat /\
    (d = None -> n = Z.to_nat max_retries) /\
    (forall pre post w,
       skeleton seg = pre ++ Wait w :: post ->
       exists k post',
         post = Attempt k :: post' /\
         w = (delay * inject_Z (2 ^ (k - 1)))%Q /\
         1 <= k <= 1024 /\
         pause_in_range w) /\
    (forall pre x, skeleton seg = pre ++ [x] -> exists k, x = Attempt k) /\
    timeline seg
    = schedule delay (pass_urls E c (API_PRIORITY (conf E)))
        (pass_urls E c tried) 0 n /\
    (exists rest, API_PRIORITY (conf E) = tried ++ rest) /\
    (d = None -> tried = API_PRIORITY (conf E)) /\
    (forall r, d = Some r ->
       (0 < n)%nat /\ exists pre, tried = pre ++ [api r]).
Proof.
  intros Hr Hb.
  assert (Hd : Qle_bool 0 delay = true) by (apply Qle_bool_iff, Hr).
  assert (Hm : Z.to_nat max_retries = 0%nat \/
               Z.of_nat (0 + Z.to_nat max_retries) = max_retries) by lia.
  destruct (retry_loop_timeline c Hd (Z.to_nat max_retries) 0 s Hm)
    as [d [s' [seg [n [tried [rest [H1 [T [L [Hle [Hpos [Hs [Hn Hp]]]]]]]]]]]]].
  cbn [Z.of_nat] in L.
  assert (Hsome : forall r, d = Some r -> (0 < n)%nat).
  { intros r ->. apply Hpos.
    destruct (Z.to_nat max_retries); [discriminate H1 | lia]. }
  assert (Hsk : skeleton seg = alternate delay 0 n).
  { now rewrite skeleton_timeline, L, steps_schedule. }
  exists d, s', seg, n, tried. rewrite Hsk.
  split; [exact H1 |]. split; [exact T |]. split; [reflexivity |].
  split; [apply alternate_attempts |]. split; [exact Hle |].
  split; [intros Hd0; now destruct (Hn Hd0) |].
  split.
  { intros pre post w Hw.
    destruct (alternate_wait_bound _ _ _ _ _ _ Hw) as [k [post' [P1 [P2 P3]]]].
    exists k, post'. split; [exact P1 |]. split; [exact P2 |].
    destruct Hb as [Hb1 Hb2].
    split; [lia |]. subst w. apply backoff_bound; auto; [split; auto | lia]. }
  split; [intros pre x Hx; eapply alternate_last; eauto |].
  split; [exact L |]. split; [now exists rest |].
  split; [intros Hd0; now destruct (Hn Hd0) |].
  intros r Hsr. split; [exact (Hsome r Hsr) | exact (Hp r Hsr)].
Qed.

(** One iteration of the loop over [CITIES], when it completes, either
    appends one raw and one processed record for the city or records one
    hard failure for it. *)
Lemma collect_city_wp (c : string) (s : agent) :
  wp (collect_city E c) s
     (fun _ s' => city_succeeded c s s' \/ city_failed max_retries c s s')
     (fun _ _ => True).
Proof.
  unfold collect_city. apply wp_bind.
  assert (Hm : Z.to_nat max_retries = 0%nat \/
               Z.of_nat (0 + Z.to_nat max_retries) = max_retries) by lia.
  eapply wp_mono;
    [apply (retry_loop_wp c (Z.to_nat max_retries) 0 s Hm) | | auto].
  intros d s1 [[B1 B2 B3 B4] [Hfresh _]].
  destruct d as [r |].
  - destruct (Hfresh r eq_refl) as [Hcity _].
    apply wp_bind. unfold append_raw. apply wp_modify.
    set (s2 := mk_agent _ _ _ _ _).
    apply wp_bind.
    eapply wp_mono; [apply (assess_quiet r s2) | | auto].
    intros r' s3 [[q [-> _]] [[C1 C2 C3 C4] _]].
    apply wp_bind. unfold set_last_raw. apply wp_modify.
    set (s4 := mk_agent _ _ _ _ _).
    apply wp_bind. unfold wp at 1. rewrite process_unfold.
    pose proof (mapping_keeps_city (with_quality_score r q)
                  (initial_processed E (with_quality_score r q))) as Hpc.
    destruct (mapping (with_quality_score r q)
                (initial_processed E (with_quality_score r q)))
      as [[u | e] p]; cbn [snd] in Hpc;
      unfold append_processed; apply wp_modify; left;
      [exists (with_quality_score r q), p
      | exists (with_quality_score r q), (set_quality (JInt 0) p)];
      subst s4; cbn; rewrite C1, C2, C3, C4; subst s2; cbn;
      rewrite removelast_last, B1, B2, B3, B4, Hpc; repeat split; auto.
  - apply wp_bind. unfold upd_metrics. apply wp_modify. apply wp_modify.
    right. cbn. unfold city_failed, hard_failures. cbn.
    rewrite filter_app. cbn. unfold hard_failures in B4.
    repeat split; auto; congruence.
Qed.

Lemma balanced_nil (s : agent) : balanced [] s s.
Proof. repeat split; intros; simpl; lia. Qed.

Lemma balanced_cons (c : string) (cs : list string) (s s1 s' : agent) :
  balanced [c] s s1 -> balanced cs s1 s' -> balanced (c :: cs) s s'.
Proof.
  intros [A1 [A2 A3]] [B1 [B2 B3]]. repeat split.
  - intros x. specialize (A1 x). specialize (B1 x). lia.
  - intros x. specialize (A2 x). specialize (B2 x).
    cbn [count_occ] in *. destruct (string_dec c x); lia.
  - lia.
Qed.

Lemma balanced_succeeded (c : string) (s s' : agent) :
  city_succeeded c s s' -> balanced [c] s s'.
Proof.
  intros [r [p [Hraw [Hr [Hproc [Hp [Hf Hh]]]]]]].
  unfold balanced, kept_raw, produced, failed, hard_cities.
  rewrite Hraw, Hproc, Hf, Hh, !map_app. cbn [map]. rewrite Hr, Hp.
  repeat split; intros; rewrite ?count_occ_app; cbn [count_occ];
    try destruct (string_dec c c0); lia.
Qed.

Lemma balanced_failed (c : string) (s s' : agent) :
  city_failed max_retries c s s' -> balanced [c] s s'.
Proof.
  intros [Hraw [Hproc [Hf Hh]]].
  unfold balanced, kept_raw, produced, failed, hard_cities.
  rewrite Hraw, Hproc, Hf, Hh, flat_map_app, length_app.
  cbn [flat_map issue_city app List.length].
  repeat split; intros; rewrite ?count_occ_app; cbn [count_occ];
    try destruct (string_dec c c0); lia.
Qed.

Lemma collect_cities_wp (cs : list string) :
  forall s, wp (collect_cities E cs) s (fun _ s' => balanced cs s s')
               (fun _ _ => True).
Proof.
  induction cs as [| c rest IH]; intros s.
  - apply wp_ret. apply balanced_nil.
  - cbn [collect_cities]. apply wp_bind.
    eapply wp_mono; [apply collect_city_wp | | auto].
    intros u1 s1 H1.
    eapply wp_mono; [apply IH | | auto].
    intros u2 s' H2. eapply balanced_cons; [| exact H2].
    destruct H1; [now apply balanced_succeeded | now apply balanced_failed].
Qed.

(** C1: when [collect_data] has completed, every city of [CITIES] has one
    outcome: for each city [c], the processed records for [c] (each with its
    raw record) and the hard-failure issues naming [c] together number the
    occurrences of [c] in [CITIES], and [failures] counts the hard-failure
    issues.  A city configured once has exactly one of the two: a processed
    record and no failure, or a failure and no record. *)
Theorem collect_data_one_outcome_per_city (s' : agent) :
  collect_data E init_agent = (Ok tt, s') ->
  forall c,
    kept_raw c s' = produced c s' /\
    (produced c s' + failed c s')%nat = count_occ string_dec (CITIES (conf E)) c /\
    failures (summary_metrics s') =
      Z.of_nat (List.length (hard_failures (summary_metrics s'))) /\
    (count_occ string_dec (CITIES (conf E)) c = 1%nat ->
       (produced c s' = 1%nat /\ failed c s' = 0%nat) \/
       (produced c s' = 0%nat /\ failed c s' = 1%nat)).
Proof.
  intros Hrun c.
  pose proof (collect_cities_wp (CITIES (conf E)) init_agent) as H.
  unfold collect_data in Hrun. unfold wp in H. rewrite Hrun in H.
  destruct H as [H1 [H2 H3]]. specialize (H1 c). specialize (H2 c).
  unfold kept_raw, produced, failed in *. cbn in H1, H2, H3.
  repeat split; try lia.
Qed.

End Collection.

(** ** The whole run ([run_agent]) *)

Section Run.

Variable E : env.

(** C7 (amended): when an exception escapes [collect_data], [run_agent]
    catches it, logs it as critical, appends the crash issue, and then
    generates the two reports (the quality report, then the collection
    summary) from the metrics and the raw collection as they are at that
    point.  Nothing else is written on this path: the data files and the
    metadata file are skipped.  (The collection summary itself divides by
    [total_requests] and raises when that is 0.) *)
Theorem run_agent_reports_after_crash (s s1 : agent) (e : exn) :
  collect_data E (snd (log INFO WorkflowStarting s)) = (Raise e, s1) ->
  let m := append_issue (AgentCrash e) (summary_metrics s1) in
  exists out s2,
    run_agent E s = (out, s2) /\
    raw_data s2 = raw_data s1 /\
    processed_data s2 = processed_data s1 /\
    summary_metrics s2 = m /\
    trace s2 =
      trace s1 ++
      [EvLog CRITICAL (AgentTerminated e);
       EvWrite (QualityReportFile m (raw_data s1));
       EvLog INFO QualityReportGenerated] ++
      (if total_requests m =? 0 then []
       else [EvWrite (CollectionSummaryFile m);
             EvLog INFO CollectionSummaryGenerated]) /\
    out = (if total_requests m =? 0 then Raise ZeroDivisionError else Ok tt).
Proof.
  intros Hc m. unfold run_agent, try_except.
  cbv [bind log emit modify snd] in Hc |- *. rewrite Hc.
  cbv [bind log emit modify upd_metrics _generate_quality_report
       _generate_collection_summary gets raise].
  cbn [summary_metrics raw_data processed_data trace requests_sent].
  fold m.
  destruct (total_requests m =? 0); eexists _, _;
    (split; [reflexivity |]);
    cbn [summary_metrics raw_data processed_data trace];
    rewrite <- ?app_assoc; repeat split; reflexivity.
Qed.

End Run.

(** C7 (as stated, refuted): WeatherAPI answers 200 with the body [5]; the
    assessment's forecast check raises [TypeError], which escapes
    [collect_data]; the run then writes the two reports and no metadata
    file. *)
Lemma crash_run_writes_no_metadata :
  fst (collect_data crash_env (snd (log INFO WorkflowStarting init_agent)))
    = Raise TypeError /\
  existsb is_report_write (trace (snd (run_agent crash_env init_agent))) = true /\
  existsb is_metadata_write (trace (snd (run_agent crash_env init_agent))) = false.
Proof. vm_compute. auto. Qed.

(** C4 (the code at the failing input): WeatherAPI, first in the priority
    list, answers 500, and the request to OpenWeatherMap follows with no
    sleep in between: [_fetch_wapi_data] never pauses. *)
Lemma wapi_call_not_followed_by_pause :
  pauses_kept (RESPECTFUL_DELAY_SECONDS (conf wapi_first_env)) false
    (trace (snd (collect_data wapi_first_env init_agent))) = false /\
  exists before after,
    trace (snd (collect_data wapi_first_env init_agent)) =
      before ++
      [EvGet (wapi_url wapi_first_env "Paris");
       EvLog WARNING (WapiFailed "Paris" 500);
       EvLog INFO (OwmRequesting "current" "Paris");
       EvGet (owm_current_url wapi_first_env "Paris")] ++ after.
Proof.
  split; [vm_compute; reflexivity |].
  eexists [_; _], _. vm_compute. reflexivity.
Qed.

(** The same check passes on a run that only ever reaches OpenWeatherMap
    or is followed by a backoff. *)
Example pauses_kept_on_partial_run :
  pauses_kept (RESPECTFUL_DELAY_SECONDS (conf partial_env)) false
    (trace (snd (collect_data partial_env init_agent))) = true.
Proof. vm_compute. reflexivity. Qed.

(** ** The theorems at sample inputs *)

Example assess_no_sections :
  fst (_assess_and_log_quality no_sections_record init_agent)
  = Ok (with_quality_score no_sections_record 65).
Proof. reflexivity. Qed.

Example assess_list_forecast :
  forecast_readable (api list_forecast_record) (data list_forecast_record)
    = false /\
  _assess_and_log_quality list_forecast_record init_agent
    = (Raise AttributeError, init_agent).
Proof. split; reflexivity. Qed.

Lemma collect_data_one_outcome_per_city_witness :
  kept_raw "Oslo" partial_run = produced "Oslo" partial_run /\
  (produced "Oslo" partial_run + failed "Oslo" partial_run)%nat =
    count_occ string_dec (CITIES (conf partial_env)) "Oslo" /\
  failures (summary_metrics partial_run) =
    Z.of_nat (List.length (hard_failures (summary_metrics partial_run))) /\
  (count_occ string_dec (CITIES (conf partial_env)) "Oslo" = 1%nat ->
     (produced "Oslo" partial_run = 1%nat /\ failed "Oslo" partial_run = 0%nat) \/
     (produced "Oslo" partial_run = 0%nat /\ failed "Oslo" partial_run = 1%nat)).
Proof.
  apply (collect_data_one_outcome_per_city partial_env partial_run).
  vm_compute. reflexivity.
Defined.

Lemma retry_attempts_and_backoff_witness :
  exists s' seg,
    retry_loop down_env "Paris" (range 3) None init_agent = (Ok None, s') /\
    trace s' = trace init_agent ++ seg /\
    skeleton seg = alternate (1 # 2) 0 3 /\
    timeline seg
    = schedule (1 # 2)
        (pass_urls down_env "Paris" ["OpenWeatherMap"; "WeatherAPI"])
        (pass_urls down_env "Paris" ["OpenWeatherMap"; "WeatherAPI"]) 0 3.
Proof.
  destruct (retry_attempts_and_backoff down_env "Paris" init_agent)
    as [d [s' [seg [n [tried [H1 [H2 [H3 [_ [_ [H6 [_ [_ [H9 [_ [H11 _]]]]]]]]]]]]]]]].
  - split; vm_compute; discriminate.
  - split; vm_compute; discriminate.
  - assert (Hd : d = None).
    { assert (Hr : fst (retry_loop down_env "Paris"
                          (range (MAX_RETRIES (conf down_env))) None
                          init_agent)
                   = Ok None) by (vm_compute; reflexivity).
      rewrite H1 in Hr. cbn [fst] in Hr. now injection Hr. }
    subst d. rewrite (H6 eq_refl) in H3, H9. rewrite (H11 eq_refl) in H9.
    exists s', seg. split; [exact H1 |]. split; [exact H2 |].
    split; [exact H3 | exact H9].
Defined.

Lemma fetch_absent_iff_all_failed_witness :
  exists d s',
    _fetch_owm_data partial_env "Paris" init_agent = (Ok d, s') /\
    d = Some (mk_record "OpenWeatherMap" "Paris"
                (JDict [("current", complete_current)]) None).
Proof.
  destruct (fetch_absent_iff_all_failed partial_env "Paris" init_agent)
    as [[d [s' [H1 [_ H3]]]] _].
  - split; vm_compute; discriminate.
  - exists d, s'. split; [exact H1 |].
    apply (H3 complete_current 500 None); [reflexivity | reflexivity | lia].
Defined.

Lemma run_agent_reports_after_crash_witness :
  exists out s2,
    run_agent crash_env init_agent = (out, s2) /\
    raw_data s2 = raw_data crash_state /\
    summary_metrics s2 =
      append_issue (AgentCrash TypeError) (summary_metrics crash_state).
Proof.
  destruct (run_agent_reports_after_crash crash_env init_agent crash_state
              TypeError)
    as [out [s2 [H1 [H2 [_ [H3 _]]]]]].
  - vm_compute. reflexivity.
  - exists out, s2. repeat split; assumption.
Defined.

(** * Further properties of the code *)

(** ** Accounts of the source clients *)

Lemma moved_refl (s : agent) : moved 0 0 0 0 s s.
Proof.
  constructor; try reflexivity; try lia.
  exists []. rewrite app_nil_r. auto.
Qed.

Lemma moved_trans (n1 n2 : nat) (o1 o2 w1 w2 k1 k2 : Z) (s s1 s2 : agent) :
  moved n1 o1 w1 k1 s s1 -> moved n2 o2 w2 k2 s1 s2 ->
  moved (n1 + n2) (o1 + o2) (w1 + w2) (k1 + k2) s s2.
Proof.
  intros [A1 A2 A3 A4 A5 A6 A7 A8 A9 A10 A11 [a [Ta [Ga Wa]]]]
         [B1 B2 B3 B4 B5 B6 B7 B8 B9 B10 B11 [b [Tb [Gb Wb]]]].
  constructor; try congruence; try lia.
  exists (a ++ b). rewrite Tb, Ta, app_assoc, filter_app, length_app, existsb_app.
  rewrite Ga, Gb, Wa, Wb. auto.
Qed.

Lemma moved_eq (n n' : nat) (o o' w w' k k' : Z) (s s' : agent) :
  moved n o w k s s' -> n = n' -> o = o' -> w = w' -> k = k' ->
  moved n' o' w' k' s s'.
Proof. now intros H -> -> -> ->. Qed.

Section Accounts.

Variable E : env.

#[local] Abbreviation delay := (RESPECTFUL_DELAY_SECONDS (conf E)).

Lemma owm_endpoint_moved (c name url : string)
    (acc : list (string * json) * bool) (s : agent) :
  Qle_bool 0 delay = true ->
  exists s',
    owm_endpoint E c name url acc s =
      (Ok (match section_of (http_get E (requests_sent s) url) with
           | Some j => (dict_set name j (fst acc), true)
           | None => acc
           end), s') /\
    moved 1 (b2z (succeeded (http_get E (requests_sent s) url))) 0 0 s s'.
Proof.
  intros Hd.
  unfold owm_endpoint, bind, try_except, upd_metrics, log, emit, modify,
    http_request, sleep, raise, ret.
  rewrite Hd. simpl.
  destruct (http_get E (requests_sent s) url) as [| code [j |]]; simpl;
    try destruct (code =? 200); simpl;
    (eexists; split; [reflexivity |]);
    (constructor; simpl; try reflexivity; try lia;
     eexists; split; [rewrite <- ?app_assoc; simpl; reflexivity |];
     split; reflexivity).
Qed.

Lemma fetch_wapi_moved (c : string) (s : agent) :
  exists s',
    _fetch_wapi_data E c s =
      (Ok (match section_of (http_get E (requests_sent s) (wapi_url E c)) with
           | Some j => Some (mk_record "WeatherAPI" c j None)
           | None => None
           end), s') /\
    moved 1 0 (b2z (status_200 (http_get E (requests_sent s) (wapi_url E c))))
          0 s s'.
Proof.
  unfold _fetch_wapi_data, bind, try_except, upd_metrics, log, emit, modify,
    http_request, raise, ret.
  simpl.
  destruct (http_get E (requests_sent s) (wapi_url E c)) as [| code [j |]];
    simpl; try destruct (code =? 200); simpl;
    (eexists; split; [reflexivity |]);
    (constructor; simpl; try reflexivity; try lia;
     eexists; split; [rewrite <- ?app_assoc; simpl; reflexivity |];
     split; reflexivity).
Qed.

Lemma fetch_owm_moved (c : string) (s : agent) :
  Qle_bool 0 delay = true ->
  exists s',
    _fetch_owm_data E c s =
      (Ok (let o1 := http_get E (requests_sent s) (owm_current_url E c) in
           let o2 := http_get E (S (requests_sent s)) (owm_forecast_url E c) in
           if succeeded o1 || succeeded o2
           then Some (mk_record "OpenWeatherMap" c
                        (JDict (owm_sections o1 o2)) None)
           else None), s') /\
    moved 2
      (b2z (succeeded (http_get E (requests_sent s) (owm_current_url E c)))
       + b2z (succeeded (http_get E (S (requests_sent s))
                           (owm_forecast_url E c))))
      0 0 s s'.
Proof.
  intros Hd. unfold _fetch_owm_data, owm_endpoints. cbn [owm_loop].
  unfold bind.
  destruct (owm_endpoint_moved c "current" (owm_current_url E c) ([], false)
              s Hd) as [s1 [H1 M1]].
  rewrite H1.
  match goal with
  | |- context [owm_endpoint E c "forecast" ?u ?acc s1] =>
      destruct (owm_endpoint_moved c "forecast" u acc s1 Hd) as [s2 [H2 M2]]
  end.
  rewrite H2.
  pose proof (moved_sent _ _ _ _ _ _ M1) as Hs1.
  rewrite Nat.add_1_r in Hs1. rewrite Hs1 in *.
  exists s2. split.
  - unfold ret, owm_sections.
    destruct (http_get E (requests_sent s) (owm_current_url E c))
      as [| c1 [j1 |]];
    destruct (http_get E (S (requests_sent s)) (owm_forecast_url E c))
      as [| c2 [j2 |]];
    simpl; try destruct (c1 =? 200); try destruct (c2 =? 200); reflexivity.
  - eapply moved_eq; [eapply moved_trans; [exact M1 | exact M2] | | | |];
      reflexivity.
Qed.

(** X1: the payload of an OpenWeatherMap fetch holds, under 'current' and
    under 'forecast', exactly the decoded body of the endpoint of that name
    when that call got HTTP 200 with a decodable body, and no other key. *)
Theorem fetch_owm_sections (c : string) (s : agent) (r : record) (s' : agent) :
  (0 <= delay)%Q ->
  _fetch_owm_data E c s = (Ok (Some r), s') ->
  api r = "OpenWeatherMap" /\ city r = c /\ quality_score r = None /\
  exists kvs,
    data r = JDict kvs /\
    forall k,
      dict_lookup k kvs =
        if String.eqb k "current"
        then section_of (http_get E (requests_sent s) (owm_current_url E c))
        else if String.eqb k "forecast"
        then section_of (http_get E (S (requests_sent s))
                           (owm_forecast_url E c))
        else None.
Proof.
  intros Hd Hf. apply Qle_bool_iff in Hd.
  destruct (fetch_owm_moved c s Hd) as [s1 [H1 _]].
  rewrite H1 in Hf. cbv zeta in Hf.
  destruct (succeeded _ || succeeded _); [| discriminate].
  injection Hf as <- _. cbn [api city quality_score data].
  repeat split. eexists. split; [reflexivity |].
  intros k. unfold owm_sections.
  destruct (section_of (http_get E (requests_sent s) (owm_current_url E c)));
  destruct (section_of (http_get E (S (requests_sent s))
                          (owm_forecast_url E c)));
  cbn [app dict_lookup];
  destruct (String.eqb k "current") eqn:Hk; try reflexivity;
  try (apply String.eqb_eq in Hk; subst k; reflexivity);
  destruct (String.eqb k "forecast"); reflexivity.
Qed.

(** X2: with a pause in range ([pause_in_range], which [time.sleep]
    accepts), an OpenWeatherMap fetch returns after sending two requests and
    counts both in [total_requests], whatever the answers; [owm_success]
    grows by the number of endpoints that answered 200 with a decodable
    body; the other counters, the issues and the collections are untouched
    and nothing is written. *)
Theorem fetch_owm_accounts (c : string) (s : agent) :
  pause_in_range delay ->
  exists d s',
    _fetch_owm_data E c s = (Ok d, s') /\
    moved 2
      (b2z (succeeded (http_get E (requests_sent s) (owm_current_url E c)))
       + b2z (succeeded (http_get E (S (requests_sent s))
                           (owm_forecast_url E c))))
      0 0 s s'.
Proof.
  intros [Hd _]. apply Qle_bool_iff in Hd.
  destruct (fetch_owm_moved c s Hd) as [s' [H1 H2]]. eauto.
Qed.

(** X3: a WeatherAPI fetch sends one request and counts it in
    [total_requests] whatever the answer; [wapi_success] grows on every HTTP
    200, also when the body cannot be decoded and the fetch returns [None];
    the other counters, the issues and the collections are untouched. *)
Theorem fetch_wapi_accounts (c : string) (s : agent) :
  exists d s',
    _fetch_wapi_data E c s = (Ok d, s') /\
    moved 1 0 (b2z (status_200 (http_get E (requests_sent s) (wapi_url E c))))
          0 s s' /\
    (forall code,
       http_get E (requests_sent s) (wapi_url E c) = Response code None ->
       d = None /\
       wapi_success (summary_metrics s')
       = wapi_success (summary_metrics s) + b2z (code =? 200)).
Proof.
  destruct (fetch_wapi_moved c s) as [s' [H1 H2]].
  eexists _, s'. split; [exact H1 |]. split; [exact H2 |].
  intros code Ho. rewrite Ho in *. split; [reflexivity |].
  now rewrite (moved_wapi _ _ _ _ _ _ H2).
Qed.

Lemma section_some (o : http_outcome) (j : json) :
  section_of o = Some j -> succeeded o = true /\ status_200 o = true.
Proof.
  destruct o as [| code [b |]]; simpl; try discriminate.
  destruct (code =? 200); [auto | discriminate].
Qed.

Lemma section_none (o : http_outcome) :
  section_of o = None -> succeeded o = false.
Proof.
  destruct o as [| code [b |]]; simpl; auto.
  destruct (code =? 200); [discriminate | auto].
Qed.

Lemma moved_incr_successful (n : nat) (o w k : Z) (s s1 : agent) :
  moved n o w k s s1 ->
  moved n o w (k + 1) s (snd (upd_metrics incr_successful_requests s1)).
Proof.
  intros [A1 A2 A3 A4 A5 A6 A7 A8 A9 A10 A11 A12].
  constructor; simpl; try assumption; lia.
Qed.

Lemma fresh_none (c : string) : fresh_for c None.
Proof. intros r [=]. Qed.

Lemma fresh_some (c : string) (r : record) :
  city r = c -> quality_score r = None -> fresh_for c (Some r).
Proof. intros H1 H2 r' [= <-]. now split. Qed.

(** The call an entry of the priority list stands for. *)
Lemma dispatch_moved (c a : string) (s : agent) :
  Qle_bool 0 delay = true ->
  exists d s' o w,
    (if String.eqb a "OpenWeatherMap" then _fetch_owm_data E c
     else if String.eqb a "WeatherAPI" then _fetch_wapi_data E c
     else ret None) s = (Ok d, s') /\
    moved (per_pass [a]) o w 0 s s' /\
    fresh_for c d /\
    0 <= o /\ 0 <= w /\ o + w <= Z.of_nat (per_pass [a]) /\
    b2z (is_some d) <= o + w /\
    (network_down E -> d = None).
Proof.
  intros Hd. cbn [per_pass].
  destruct (String.eqb a "OpenWeatherMap").
  - destruct (fetch_owm_moved c s Hd) as [s1 [H1 M1]].
    eexists _, s1, _, 0. split; [exact H1 |]. split; [exact M1 |].
    cbv zeta.
    set (o1 := http_get E (requests_sent s) (owm_current_url E c)).
    set (o2 := http_get E (S (requests_sent s)) (owm_forecast_url E c)).
    split.
    { destruct (succeeded o1 || succeeded o2);
        [now apply fresh_some | apply fresh_none]. }
    split; [destruct (succeeded o1), (succeeded o2); cbn; lia |].
    split; [lia |].
    split; [destruct (succeeded o1), (succeeded o2); cbn; lia |].
    split; [destruct (succeeded o1), (succeeded o2); cbn; lia |].
    intros Hdown. unfold o1, o2. now rewrite !Hdown.
  - destruct (String.eqb a "WeatherAPI").
    + destruct (fetch_wapi_moved c s) as [s1 [H1 M1]].
      eexists _, s1, 0, _. split; [exact H1 |]. split; [exact M1 |].
      set (o1 := http_get E (requests_sent s) (wapi_url E c)).
      destruct (section_of o1) as [j |] eqn:Hsec.
      * destruct (section_some _ _ Hsec) as [Hok H200]. rewrite H200.
        split; [now apply fresh_some |].
        cbn. repeat split; try lia.
        intros Hdown. unfold o1 in Hok. rewrite Hdown in Hok. discriminate.
      * split; [apply fresh_none |].
        destruct (status_200 o1); cbn; repeat split; lia.
    + exists None, s, 0, 0.
      split; [reflexivity |]. split; [apply moved_refl |].
      split; [apply fresh_none |]. cbn. repeat split; lia.
Qed.

(** One pass over the priority list. *)
Lemma api_loop_moved (c : string) (apis : list string) :
  Qle_bool 0 delay = true ->
  forall s,
  exists d s' n o w,
    api_loop E c apis None s = (Ok d, s') /\
    moved n o w (b2z (is_some d)) s s' /\
    fresh_for c d /\
    (n <= per_pass apis)%nat /\
    0 <= o /\ 0 <= w /\ o + w <= Z.of_nat n /\
    b2z (is_some d) <= o + w /\
    (d = None -> n = per_pass apis) /\
    (network_down E -> d = None).
Proof.
  intros Hd. induction apis as [| a rest IH]; intros s.
  - exists None, s, 0%nat, 0, 0.
    split; [reflexivity |]. split; [apply moved_refl |].
    split; [apply fresh_none |]. cbn. repeat split; lia.
  - cbn [api_loop]. unfold bind.
    destruct (dispatch_moved c a s Hd)
      as [d1 [s1 [o1 [w1 [H1 [M1 [F1 [Ho1 [Hw1 [Hn1 [Hk1 Hdown1]]]]]]]]]]].
    assert (Hpp : per_pass (a :: rest) = (per_pass [a] + per_pass rest)%nat).
    { cbn [per_pass]. lia. }
    destruct d1 as [r |].
    + destruct (String.eqb a "OpenWeatherMap");
        [| destruct (String.eqb a "WeatherAPI")]; rewrite H1;
        (exists (Some r), (snd (upd_metrics incr_successful_requests s1)),
           (per_pass [a]), o1, w1;
         split; [reflexivity |];
         split; [apply (moved_incr_successful _ _ _ _ _ _ M1) |];
         split; [exact F1 |];
         repeat split; try lia; try discriminate;
         intros Hdown; specialize (Hdown1 Hdown); discriminate).
    + destruct (IH s1)
        as [d [s' [n [o [w [H2 [M2 [F2 [Hn [Ho [Hw [Hs [Hk [Hnone Hdown]]]]]]]]]]]]]].
      destruct (String.eqb a "OpenWeatherMap");
        [| destruct (String.eqb a "WeatherAPI")]; rewrite H1, H2;
        (exists d, s', (per_pass [a] + n)%nat, (o1 + o), (w1 + w);
         split; [reflexivity |];
         split; [eapply moved_eq;
                 [eapply moved_trans; [exact M1 | exact M2] | | | |];
                 reflexivity |];
         split; [exact F2 |];
         repeat split; try lia; auto;
         intros Hdn; specialize (Hnone Hdn); lia).
Qed.


Lemma backoff_ok (a : Z) :
  Qle_bool 0 delay = true -> Qle_bool 0 (delay * inject_Z (2 ^ a)) = true.
Proof.
  intros Hd. apply Qle_bool_iff. apply Qle_bool_iff in Hd.
  apply Qmult_le_0_compat; [exact Hd |].
  unfold Qle. simpl. pose proof (Z.pow_nonneg 2 a). lia.
Qed.

Lemma moved_emit (e : event) (s : agent) :
  is_get e = false -> is_write e = false ->
  moved 0 0 0 0 s (snd (emit e s)).
Proof.
  intros Hg Hw. constructor; simpl; try reflexivity; try lia.
  exists [e]. simpl. rewrite Hg, Hw. auto.
Qed.

(** The retry loop over any list of attempt numbers. *)
Lemma retry_loop_moved (c : string) :
  Qle_bool 0 delay = true ->
  forall (attempts : list Z) (s : agent),
  exists d s' n o w,
    retry_loop E c attempts None s = (Ok d, s') /\
    moved n o w (b2z (is_some d)) s s' /\
    fresh_for c d /\
    (n <= List.length attempts * per_pass (API_PRIORITY (conf E)))%nat /\
    0 <= o /\ 0 <= w /\ o + w <= Z.of_nat n /\
    b2z (is_some d) <= o + w /\
    (d = None ->
     n = (List.length attempts * per_pass (API_PRIORITY (conf E)))%nat) /\
    (network_down E -> d = None).
Proof.
  intros Hd. induction attempts as [| a rest IH]; intros s.
  - exists None, s, 0%nat, 0, 0.
    split; [reflexivity |]. split; [apply moved_refl |].
    split; [apply fresh_none |]. cbn. repeat split; lia.
  - cbn [retry_loop]. unfold bind at 1.
    pose proof (moved_emit (EvLog INFO (AttemptOf (a + 1)
                  (MAX_RETRIES (conf E)) c)) s eq_refl eq_refl) as M0.
    unfold log at 1.
    destruct (emit (EvLog INFO (AttemptOf (a + 1) (MAX_RETRIES (conf E)) c)) s)
      as [[[] | e0] s0] eqn:He0; [| discriminate He0].
    cbn [snd] in M0. unfold bind at 1.
    destruct (api_loop_moved c (API_PRIORITY (conf E)) Hd s0)
      as [d1 [s1 [n1 [o1 [w1 [H1 [M1 [F1 [Hn1 [Ho1 [Hw1 [Hs1 [Hk1 [Hnone1 Hdown1]]]]]]]]]]]]]].
    rewrite H1.
    pose proof (moved_trans _ _ _ _ _ _ _ _ _ _ _ M0 M1) as M01.
    cbn [List.length]. destruct d1 as [r |].
    + exists (Some r), s1, n1, o1, w1.
      split; [reflexivity |].
      split; [eapply moved_eq; [exact M01 | | | |]; reflexivity |].
      split; [exact F1 |].
      repeat split; try lia; try discriminate.
      intros Hdn. specialize (Hdown1 Hdn). discriminate.
    + specialize (Hnone1 eq_refl). unfold bind at 1.
      assert (Hstep : exists s2,
                (if a <? MAX_RETRIES (conf E) - 1
                 then
                   log WARNING (NoDataRetrying c (delay * inject_Z (2 ^ a))) ;;
                   sleep Backoff (delay * inject_Z (2 ^ a))
                 else ret tt) s1 = (Ok tt, s2) /\ moved 0 0 0 0 s1 s2).
      { destruct (a <? MAX_RETRIES (conf E) - 1).
        - unfold bind, log, sleep. rewrite (backoff_ok a Hd).
          eexists. split; [reflexivity |].
          eapply moved_eq;
            [eapply moved_trans; apply moved_emit; reflexivity | | | |];
            reflexivity.
        - exists s1. split; [reflexivity | apply moved_refl]. }
      destruct Hstep as [s2 [H2 M2]]. rewrite H2.
      destruct (IH s2)
        as [d [s' [n [o [w [H3 [M3 [F3 [Hn [Ho [Hw [Hs [Hk [Hnone Hdown]]]]]]]]]]]]]].
      rewrite H3.
      exists d, s', (n1 + n)%nat, (o1 + o), (w1 + w).
      split; [reflexivity |].
      split.
      { eapply moved_eq;
          [eapply moved_trans;
           [eapply moved_trans; [exact M01 | exact M2] | exact M3] | | | |];
          cbn; lia. }
      split; [exact F3 |].
      repeat split; try lia; auto.
      intros Hdn. specialize (Hnone Hdn). lia.
Qed.

End Accounts.

Lemma fetch_owm_sections_witness :
  exists kvs,
    JDict [("current", complete_current)] = JDict kvs /\
    dict_lookup "current" kvs = Some complete_current /\
    dict_lookup "forecast" kvs = None.
Proof.
  destruct (fetch_owm_sections partial_env "Paris" init_agent
              (mk_record "OpenWeatherMap" "Paris"
                 (JDict [("current", complete_current)]) None)
              (snd (_fetch_owm_data partial_env "Paris" init_agent)))
    as [_ [_ [_ [kvs [H1 H2]]]]].
  - vm_compute. discriminate.
  - vm_compute. reflexivity.
  - exists kvs. split; [exact H1 |].
    split; [exact (H2 "current") | exact (H2 "forecast")].
Defined.

Lemma fetch_owm_accounts_witness :
  exists d s',
    _fetch_owm_data partial_env "Paris" init_agent = (Ok d, s') /\
    moved 2 1 0 0 init_agent s'.
Proof.
  destruct (fetch_owm_accounts partial_env "Paris" init_agent)
    as [d [s' [H1 H2]]].
  - split; vm_compute; discriminate.
  - exists d, s'. split; [exact H1 | exact H2].
Defined.

(** ** Accounts of the assessment *)

Lemma noted_refl (s : agent) : noted 0 0 [] s s.
Proof.
  constructor; try reflexivity; try lia.
  - now rewrite app_nil_r.
  - exists []. now rewrite app_nil_r.
Qed.

Lemma noted_trans (p1 p2 q1 q2 : Z) (i1 i2 : list issue) (s s1 s2 : agent) :
  noted p1 q1 i1 s s1 -> noted p2 q2 i2 s1 s2 ->
  noted (p1 + p2) (q1 + q2) (i1 ++ i2) s s2.
Proof.
  intros [A1 A2 A3 A4 A5 A6 A7 A8 A9 A10 A11 [a [Ta La]]]
         [B1 B2 B3 B4 B5 B6 B7 B8 B9 B10 B11 [b [Tb Lb]]].
  constructor; try congruence; try lia.
  - now rewrite B11, A11, app_assoc.
  - exists (a ++ b). rewrite Tb, Ta, app_assoc, forallb_app, La, Lb. auto.
Qed.

Lemma noted_eq (p p' q q' : Z) (i i' : list issue) (s s' : agent) :
  noted p q i s s' -> p = p' -> q = q' -> i = i' -> noted p' q' i' s s'.
Proof. now intros H -> -> ->. Qed.

Lemma noted_log (lvl : level) (m : log_msg) (s : agent) :
  noted 0 0 [] s (snd (log lvl m s)).
Proof.
  constructor; simpl; try reflexivity; try lia.
  - now rewrite app_nil_r.
  - eexists. split; reflexivity.
Qed.

Lemma suspect_out_of_range (t : json) :
  match suspect t with Ok b => b | Raise _ => false end = out_of_range t.
Proof.
  destruct t as [| b | z | f | | |]; try reflexivity.
  - destruct b; reflexivity.
  - simpl. destruct (z <? -70); reflexivity.
  - simpl. change (float_of_Z (-70)) with (-70)%float.
    change (float_of_Z 50) with 50%float.
    destruct (PrimFloat.ltb f (-70)); reflexivity.
Qed.

Lemma pair_ok_eq (z z' : Z) (s : agent) :
  z = z' -> (Ok z, s) = (Ok z', s).
Proof. now intros ->. Qed.

Section AssessmentAccounts.

Lemma forecast_check_exact (c a : string) (d : json) (score : Z) (s : agent) :
  forecast_readable a d = true ->
  exists s',
    forecast_check c a d score s
      = (Ok (score - 20 * b2z (forecast_short a d)), s') /\
    noted 0 0 [] s s'.
Proof.
  unfold forecast_readable, forecast_check, forecast_short.
  destruct (String.eqb a "OpenWeatherMap").
  { unfold bind, lift.
    destruct (forecast_incomplete d "list" 30) as [[] | e]; [| | discriminate];
      intros _; eexists; (split; [cbn; apply pair_ok_eq; lia |]);
      [apply noted_log | apply noted_refl]. }
  destruct (String.eqb a "WeatherAPI").
  { unfold bind, lift.
    destruct (forecast_incomplete d "forecastday" 5) as [[] | e];
      [| | discriminate];
      intros _; eexists; (split; [cbn; apply pair_ok_eq; lia |]);
      [apply noted_log | apply noted_refl]. }
  intros _. exists s. split; [cbn; apply pair_ok_eq; lia | apply noted_refl].
Qed.

Lemma check_field_exact (c a : string) (d : json) (score : Z) (field : string)
    (s : agent) :
  exists s',
    check_field c a d score field s
      = (Ok (score - 5 * b2z (negb (resolves d field))), s') /\
    noted (b2z (resolves d field)) 0 [] s s'.
Proof.
  unfold check_field, try_except_only, try_except, bind, lift, resolves.
  destruct (walk (split_dot field) d) as [v | e] eqn:Hw.
  - eexists. split; [cbn; apply pair_ok_eq; lia |].
    constructor; simpl; try reflexivity; try lia.
    + now rewrite app_nil_r.
    + exists []. now rewrite app_nil_r.
  - rewrite (walk_raises _ _ _ Hw).
    eexists. split; [cbn; reflexivity |]. apply noted_log.
Qed.

Lemma check_fields_exact (c a : string) (d : json) (fields : list string) :
  forall (score : Z) (s : agent),
  exists s',
    check_fields c a d fields score s
      = (Ok (score - 5 * Z.of_nat (List.length
                 (filter (fun f => negb (resolves d f)) fields))), s') /\
    noted (Z.of_nat (List.length (filter (resolves d) fields))) 0 [] s s'.
Proof.
  induction fields as [| field rest IH]; intros score s.
  - exists s. split; [cbn; apply pair_ok_eq; lia | apply noted_refl].
  - cbn [check_fields]. unfold bind.
    destruct (check_field_exact c a d score field s) as [s1 [H1 N1]].
    rewrite H1.
    destruct (IH (score - 5 * b2z (negb (resolves d field))) s1)
      as [s2 [H2 N2]].
    rewrite H2. exists s2. cbn [filter].
    split.
    + f_equal. f_equal. destruct (resolves d field); cbn [negb b2z List.length]; lia.
    + eapply noted_eq; [eapply noted_trans; [exact N1 | exact N2] | | |];
        try reflexivity.
      destruct (resolves d field); cbn [b2z List.length]; lia.
Qed.

Lemma validity_check_exact (c a : string) (d : json) (score : Z) (s : agent) :
  exists s',
    validity_check c a d score s
      = (Ok (score - 10 * b2z (is_some (suspect_temp a d))), s') /\
    noted 0 0 (suspect_issue c a d) s s'.
Proof.
  unfold validity_check, try_except, bind, lift, suspect_issue, suspect_temp.
  destruct (read_temp a d) as [t | e].
  - rewrite <- (suspect_out_of_range t).
    destruct (suspect t) as [[] | e'].
    + eexists. split; [cbn; reflexivity |].
      constructor; simpl; try reflexivity; try lia.
      exists []. now rewrite app_nil_r.
    + exists s. split; [cbn; apply pair_ok_eq; lia | apply noted_refl].
    + exists s. split; [cbn; apply pair_ok_eq; lia | apply noted_refl].
  - exists s. split; [cbn; apply pair_ok_eq; lia | apply noted_refl].
Qed.

Lemma filter_split_length {A} (f : A -> bool) (l : list A) :
  (List.length (filter f l) + List.length (filter (fun x => negb (f x)) l)
   = List.length l)%nat.
Proof.
  induction l as [| x rest IH]; [reflexivity |].
  cbn [filter]. destruct (f x); cbn [negb List.length]; lia.
Qed.

Lemma counts_bound (a : string) (d : json) :
  0 <= resolved_count a d /\ 0 <= missing_count a d /\
  resolved_count a d + missing_count a d
  = Z.of_nat (List.length (required_fields a)) /\
  resolved_count a d + missing_count a d <= 3.
Proof.
  unfold resolved_count, missing_count.
  pose proof (filter_split_length (resolves d) (required_fields a)).
  pose proof (required_fields_length a). lia.
Qed.

Lemma expected_score_bounds (a : string) (d : json) :
  55 <= expected_score a d <= 100.
Proof.
  unfold expected_score. pose proof (counts_bound a d).
  destruct (forecast_short a d), (is_some (suspect_temp a d)); cbn [b2z]; lia.
Qed.

(** The assessment of a record whose forecast check can be evaluated, with
    its effect on the agent. *)
Lemma assessment_noted (r : record) (s : agent) :
  forecast_readable (api r) (data r) = true ->
  exists s',
    _assess_and_log_quality r s
      = (Ok (with_quality_score r (expected_score (api r) (data r))), s') /\
    noted (resolved_count (api r) (data r))
          (expected_score (api r) (data r))
          (suspect_issue (city r) (api r) (data r)) s s'.
Proof.
  intros Hr.
  unfold _assess_and_log_quality, completeness_score, bind.
  destruct (forecast_check_exact (city r) (api r) (data r) 100 s Hr)
    as [s1 [H1 N1]].
  rewrite H1.
  destruct (check_fields_exact (city r) (api r) (data r)
              (required_fields (api r))
              (100 - 20 * b2z (forecast_short (api r) (data r))) s1)
    as [s2 [H2 N2]].
  rewrite H2.
  destruct (validity_check_exact (city r) (api r) (data r)
              (100 - 20 * b2z (forecast_short (api r) (data r))
               - 5 * Z.of_nat (List.length
                       (filter (fun f => negb (resolves (data r) f))
                          (required_fields (api r))))) s2)
    as [s3 [H3 N3]].
  rewrite H3.
  fold (missing_count (api r) (data r)).
  fold (expected_score (api r) (data r)).
  pose proof (expected_score_bounds (api r) (data r)) as Hb.
  rewrite Z.max_r by lia.
  eexists. split; [reflexivity |].
  pose proof (noted_trans _ _ _ _ _ _ _ _ _ N1 (noted_trans _ _ _ _ _ _ _ _ _ N2 N3))
    as N.
  destruct N as [A1 A2 A3 A4 A5 A6 A7 A8 A9 A10 A11 [seg [Tr Lg]]].
  constructor; simpl; try assumption; try lia.
  - unfold resolved_count. lia.
  - exists (seg ++ [EvLog INFO (DataQuality (city r) (api r)
                       (expected_score (api r) (data r)))]).
    rewrite Tr, app_assoc, forallb_app, Lg. auto.
Qed.

(** X4: when the forecast check can be evaluated, the assessment attaches
    exactly 100 minus 20 for an incomplete forecast, minus 5 for each
    required field that does not resolve, minus 10 for a suspect
    temperature (a number below -70 or above 50).  It adds the number of
    resolved fields to [data_points_collected] and the score to
    [total_quality_score], appends one 'Suspect Temp' issue exactly when the
    temperature is suspect, and otherwise only logs. *)
Theorem assess_exact (r : record) (s : agent) :
  forecast_readable (api r) (data r) = true ->
  exists s',
    _assess_and_log_quality r s
      = (Ok (with_quality_score r (expected_score (api r) (data r))), s') /\
    noted (resolved_count (api r) (data r))
          (expected_score (api r) (data r))
          (suspect_issue (city r) (api r) (data r)) s s'.
Proof. exact (assessment_noted r s). Qed.

Lemma get_or_default (v : json) (k : string) (d0 x : json) :
  get v k d0 = Ok x -> getitem v k = Ok x \/ x = d0.
Proof.
  destruct v; simpl; try discriminate.
  destruct (dict_lookup k kvs); intros [= <-]; auto.
Qed.

Lemma get_empty (k : string) (d0 : json) : get (JDict []) k d0 = Ok d0.
Proof. reflexivity. Qed.

(** A temperature the validity check flags sits where the first required
    field is looked for. *)
Lemma suspect_temp_resolves (a : string) (d t : json) :
  suspect_temp a d = Some t ->
  exists field rest,
    required_fields a = field :: rest /\ resolves d field = true.
Proof.
  unfold suspect_temp, read_temp, required_fields, resolves.
  destruct (String.eqb a "OpenWeatherMap").
  { intros H. exists "current.main.temp". eexists. split; [reflexivity |].
    change (split_dot "current.main.temp") with ["current"; "main"; "temp"].
    cbn [walk].
    destruct (get d "current" (JDict [])) as [cur |] eqn:H1;
      cbn [rbind] in H; [| discriminate].
    destruct (get cur "main" (JDict [])) as [m |] eqn:H2;
      cbn [rbind] in H; [| discriminate].
    destruct (get m "temp" JNull) as [x |] eqn:H3; [| discriminate].
    destruct (out_of_range x) eqn:Hx; [| discriminate].
    destruct (get_or_default _ _ _ _ H3) as [G3 | ->]; [| discriminate].
    destruct (get_or_default _ _ _ _ H2) as [G2 | ->];
      [| rewrite get_empty in H3; injection H3 as <-; discriminate].
    destruct (get_or_default _ _ _ _ H1) as [G1 | ->];
      [| rewrite get_empty in H2; injection H2 as <-;
         rewrite get_empty in H3; injection H3 as <-; discriminate].
    rewrite G1. cbn [rbind]. rewrite G2. cbn [rbind]. rewrite G3. reflexivity. }
  destruct (String.eqb a "WeatherAPI").
  { intros H. exists "current.temp_c". eexists. split; [reflexivity |].
    change (split_dot "current.temp_c") with ["current"; "temp_c"].
    cbn [walk].
    destruct (get d "current" (JDict [])) as [cur |] eqn:H1;
      cbn [rbind] in H; [| discriminate].
    destruct (get cur "temp_c" JNull) as [x |] eqn:H3; [| discriminate].
    destruct (out_of_range x) eqn:Hx; [| discriminate].
    destruct (get_or_default _ _ _ _ H3) as [G3 | ->]; [| discriminate].
    destruct (get_or_default _ _ _ _ H1) as [G1 | ->];
      [| rewrite get_empty in H3; injection H3 as <-; discriminate].
    rewrite G1. cbn [rbind]. rewrite G3. reflexivity. }
  discriminate.
Qed.

Lemma expected_score_at_least_60 (a : string) (d : json) :
  60 <= expected_score a d.
Proof.
  unfold expected_score. pose proof (counts_bound a d) as Hc.
  destruct (suspect_temp a d) as [t |] eqn:Ht; cbn [is_some b2z];
    [| destruct (forecast_short a d); cbn [b2z]; lia].
  destruct (suspect_temp_resolves a d t Ht) as [field [rest [Hf Hres]]].
  assert (Hm : missing_count a d <= 2).
  { unfold missing_count. rewrite Hf. cbn [filter]. rewrite Hres.
    cbn [negb].
    pose proof (required_fields_length a) as Hl. rewrite Hf in Hl.
    cbn [List.length] in Hl.
    pose proof (filter_length_le (fun f => negb (resolves d f)) rest). lia. }
  destruct (forecast_short a d); cbn [b2z]; lia.
Qed.

(** X5: a score the assessment attaches is never below 60: the 10 points
    for a suspect temperature and the 5 points for a missing temperature
    exclude each other, since the validity check reads the temperature where
    the first required field is looked for. *)
Theorem assess_score_at_least_60 (r r' : record) (s s' : agent) (q : Z) :
  _assess_and_log_quality r s = (Ok r', s') ->
  quality_score r' = Some q ->
  60 <= q <= 100.
Proof.
  intros Ha Hq.
  destruct (forecast_readable (api r) (data r)) eqn:Hr.
  - destruct (assessment_noted r s Hr) as [s1 [H1 _]].
    rewrite H1 in Ha. injection Ha as <- _. cbn in Hq. injection Hq as <-.
    pose proof (expected_score_at_least_60 (api r) (data r)).
    pose proof (expected_score_bounds (api r) (data r)). lia.
  - destruct (assess_unreadable r s Hr) as [e He]. congruence.
Qed.

End AssessmentAccounts.

Lemma assess_exact_witness :
  exists s',
    _assess_and_log_quality hot_record init_agent
      = (Ok (with_quality_score hot_record 60), s') /\
    noted 1 60 [SuspectTemp "Paris" "OpenWeatherMap" (JInt 100)] init_agent s'.
Proof.
  destruct (assess_exact hot_record init_agent eq_refl) as [s' [H1 H2]].
  exists s'. split; [exact H1 | exact H2].
Defined.

Lemma assess_score_at_least_60_witness : 60 <= 60 <= 100.
Proof.
  apply (assess_score_at_least_60 hot_record
           (with_quality_score hot_record 60) init_agent
           (snd (_assess_and_log_quality hot_record init_agent)) 60);
    reflexivity.
Defined.

(** ** The books of a run *)

Section Books.

Variable E : env.

#[local] Abbreviation delay := (RESPECTFUL_DELAY_SECONDS (conf E)).
#[local] Abbreviation max_retries := (MAX_RETRIES (conf E)).

(** Standardizing a record, with its effect on the agent. *)
Lemma process_noted (r : record) (s : agent) :
  exists p s',
    _process_raw_data E r s = (Ok p, s') /\
    noted 0 0 [] s s' /\
    p_city p = city r /\
    p_source_api p = api r /\
    p_collection_timestamp p = collection_timestamp E /\
    (p_quality_score p =
       match quality_score r with Some q => JInt q | None => JStr "N/A" end
     \/ p_quality_score p = JInt 0).
Proof.
  rewrite process_unfold.
  pose proof (mapping_keeps_city r (initial_processed E r)) as Hc.
  pose proof (mapping_keeps_quality r (initial_processed E r)) as Hq.
  destruct (mapping_keeps_identity r (initial_processed E r)) as [Ha Ht].
  destruct (mapping r (initial_processed E r)) as [[u | e] p];
    cbn [snd] in Hc, Hq, Ha, Ht.
  - exists p, s. split; [reflexivity |]. split; [apply noted_refl |].
    repeat split; auto.
  - eexists _, _. split; [reflexivity |]. split; [apply noted_log |].
    cbn. repeat split; auto.
Qed.


Lemma log_only (seg : list event) :
  forallb is_log seg = true ->
  filter is_get seg = [] /\ existsb is_write seg = false.
Proof.
  induction seg as [| e rest IH]; [auto |].
  cbn [forallb filter existsb]. intros H. apply andb_prop in H.
  destruct H as [He Hrest]. destruct (IH Hrest) as [IH1 IH2].
  destruct e; try discriminate. cbn. auto.
Qed.

Lemma score_sum_app (l : list record) (r : record) :
  score_sum (l ++ [r]) = score_sum l + score_of r.
Proof.
  unfold score_sum.
  induction l as [| x rest IH]; simpl; [lia | rewrite IH; lia].
Qed.

Lemma sound_init : sound init_agent.
Proof. constructor; cbn; try reflexivity; lia. Qed.

Lemma settled_init : settled (collection_timestamp E) init_agent.
Proof. constructor. Qed.

(** One iteration of the loop over [CITIES], on the books. *)
Lemma collect_city_books (c : string) (s : agent) :
  Qle_bool 0 delay = true ->
  sound s -> settled (collection_timestamp E) s ->
  match collect_city E c s with
  | (Ok _, s') =>
      sound s' /\ settled (collection_timestamp E) s' /\
      successful_requests (summary_metrics s') + failures (summary_metrics s')
      = successful_requests (summary_metrics s) + failures (summary_metrics s) + 1
  | (Raise _, s') => sound s'
  end.
Proof.
  intros Hd [S1 S2 S3 S4 S5 S6 S7 S8 S9 S10 S11 S12] Hset.
  pose proof (Forall2_length Hset) as Hlen.
  unfold collect_city, bind.
  destruct (retry_loop_moved E c Hd (range max_retries) s)
    as [d [s1 [n [o [w [H1 [M1 [F1 [Hn [Ho [Hw [Hs [Hk [Hnone Hdown]]]]]]]]]]]]]].
  rewrite H1.
  destruct M1 as [A1 A2 A3 A4 A5 A6 A7 A8 A9 A10 A11 [seg1 [T1 [G1 W1]]]].
  destruct d as [r |].
  - cbn [is_some b2z] in *.
    destruct (F1 r eq_refl) as [Hcity Hnoscore].
    unfold append_raw at 1, modify at 1.
    set (s2 := mk_agent _ _ _ _ _).
    destruct (forecast_readable (api r) (data r)) eqn:Hr.
    + destruct (assessment_noted r s2 Hr) as [s3 [H3 N3]]. rewrite H3.
      destruct N3 as [B1 B2 B3 B4 B5 B6 B7 B8 B9 B10 B11 [seg3 [T3 L3]]].
      unfold set_last_raw at 1, modify at 1.
      set (s4 := mk_agent _ _ _ _ _).
      destruct (process_noted
                  (with_quality_score r (expected_score (api r) (data r))) s4)
        as [p [s5 [H5 [N5 [P1 [P2 [P3 P4]]]]]]].
      rewrite H5.
      destruct N5 as [C1 C2 C3 C4 C5 C6 C7 C8 C9 C10 C11 [seg5 [T5 L5]]].
      unfold append_processed, modify.
      destruct (log_only _ L3) as [LG3 LW3].
      destruct (log_only _ L5) as [LG5 LW5].
      pose proof (expected_score_at_least_60 (api r) (data r)) as Hq60.
      pose proof (expected_score_bounds (api r) (data r)) as Hq100.
      pose proof (counts_bound (api r) (data r)) as Hcnt.
      assert (Hraw : raw_data s5 = raw_data s ++
                [with_quality_score r (expected_score (api r) (data r))]).
      { rewrite C1. subst s4. cbn [raw_data]. rewrite B1. subst s2.
        cbn [raw_data]. now rewrite removelast_last, A1. }
      assert (Hproc : processed_data s5 = processed_data s).
      { rewrite C2. subst s4. cbn [processed_data]. rewrite B2. subst s2.
        cbn [processed_data]. exact A2. }
      subst s4 s2. cbn [raw_data processed_data summary_metrics requests_sent
                        trace] in *.
      split; [| split].
      * constructor;
          cbn [raw_data processed_data summary_metrics requests_sent trace];
          rewrite ?Hraw, ?Hproc, ?length_app; cbn [List.length];
          try rewrite score_sum_app; cbn [score_of quality_score with_quality_score];
          try lia.
        -- rewrite T5, T3, T1, !filter_app, LG3, LG5, !app_nil_r, length_app.
           lia.
        -- rewrite T5, T3, T1, !existsb_app, S3, W1, LW3, LW5. reflexivity.
        -- unfold hard_failures in *. rewrite C11, B11, A11, !app_nil_r.
           rewrite C6, B6, A6.
           assert (Hsi : filter is_hard_failure
                     (issues (summary_metrics s) ++
                      suspect_issue (city r) (api r) (data r))
                   = filter is_hard_failure (issues (summary_metrics s))).
           { rewrite filter_app. unfold suspect_issue.
             destruct (suspect_temp (api r) (data r)); cbn; apply app_nil_r. }
           rewrite Hsi. exact S10.
      * unfold settled.
        cbn [raw_data processed_data]. rewrite Hraw, Hproc.
        apply Forall2_app; [exact Hset |].
        constructor; [| constructor].
        unfold standardizes. cbn [city api quality_score with_quality_score] in *.
        repeat split; auto.
        exists (expected_score (api r) (data r)). repeat split; auto; lia.
      * cbn [summary_metrics]. lia.
    + destruct (assess_unreadable r s2 Hr) as [e He]. rewrite He.
      subst s2.
      constructor;
        cbn [raw_data processed_data summary_metrics requests_sent trace];
        rewrite ?A1, ?A2, ?length_app; cbn [List.length];
        try rewrite score_sum_app; rewrite ?Hnoscore;
        unfold score_of; rewrite ?Hnoscore; try lia.
      * rewrite T1, filter_app, length_app. lia.
      * rewrite T1, existsb_app, S3, W1. reflexivity.
      * unfold hard_failures in *. rewrite A11, A6. exact S10.
  - cbn [is_some b2z] in *. specialize (Hnone eq_refl).
    unfold upd_metrics, modify.
    cbn [raw_data processed_data summary_metrics requests_sent trace].
    split; [| split].
    + constructor;
        cbn [raw_data processed_data summary_metrics requests_sent trace
             incr_failures append_issue total_requests successful_requests
             failures data_points_collected owm_success wapi_success
             total_quality_score issues];
        rewrite ?A1, ?A2; try lia.
      * rewrite T1, filter_app, length_app. lia.
      * rewrite T1, existsb_app, S3, W1. reflexivity.
      * unfold hard_failures, append_issue, incr_failures in *.
        cbn [issues]. rewrite filter_app, length_app, A11. cbn. lia.
    + unfold settled. cbn [raw_data processed_data]. now rewrite A1, A2.
    + simpl. lia.
Qed.

Lemma collect_cities_books (cs : list string) :
  Qle_bool 0 delay = true ->
  forall s,
  sound s -> settled (collection_timestamp E) s ->
  match collect_cities E cs s with
  | (Ok _, s') =>
      sound s' /\ settled (collection_timestamp E) s' /\
      successful_requests (summary_metrics s') + failures (summary_metrics s')
      = successful_requests (summary_metrics s) + failures (summary_metrics s)
        + Z.of_nat (List.length cs)
  | (Raise _, s') => sound s'
  end.
Proof.
  intros Hd. induction cs as [| c rest IH]; intros s Hs Hset.
  - cbn [collect_cities List.length]. unfold ret.
    split; [exact Hs | split; [exact Hset | lia]].
  - cbn [collect_cities]. unfold bind.
    pose proof (collect_city_books c s Hd Hs Hset) as H1.
    destruct (collect_city E c s) as [[u | e] s1]; [| exact H1].
    destruct H1 as [Hs1 [Hset1 Hn1]].
    specialize (IH s1 Hs1 Hset1).
    destruct (collect_cities E rest s1) as [[u' | e] s2]; [| exact IH].
    destruct IH as [Hs2 [Hset2 Hn2]].
    split; [exact Hs2 | split; [exact Hset2 |]]. cbn [List.length]. lia.
Qed.

(** X7: wherever [collect_data] is left, normally or by an exception of the
    assessment, the books agree: [total_requests] is the number of requests
    sent, [successful_requests] is the number of raw records and is at most
    [owm_success + wapi_success], which is at most [total_requests];
    [failures] counts the hard-failure issues; [total_quality_score] is the
    sum of the scores attached to the raw records; at most three data
    points are counted per record; at most the last raw record lacks its
    processed record; and no file has been written. *)
Theorem collect_data_books :
  (0 <= delay)%Q ->
  let s' := snd (collect_data E init_agent) in
  let m := summary_metrics s' in
  total_requests m = Z.of_nat (requests_sent s') /\
  List.length (filter is_get (trace s')) = requests_sent s' /\
  existsb is_write (trace s') = false /\
  Z.of_nat (List.length (raw_data s')) = successful_requests m /\
  successful_requests m <= owm_success m + wapi_success m /\
  owm_success m + wapi_success m <= total_requests m /\
  0 <= owm_success m /\ 0 <= wapi_success m /\
  failures m = Z.of_nat (List.length (hard_failures m)) /\
  total_quality_score m = score_sum (raw_data s') /\
  0 <= data_points_collected m <= 3 * successful_requests m /\
  (List.length (processed_data s') <= List.length (raw_data s')
   <= List.length (processed_data s') + 1)%nat.
Proof.
  intros Hd s' m. apply Qle_bool_iff in Hd.
  pose proof (collect_cities_books (CITIES (conf E)) Hd init_agent
                sound_init settled_init) as H.
  assert (Hs : sound s').
  { subst s'. unfold collect_data.
    destruct (collect_cities E (CITIES (conf E)) init_agent) as [[u | e] s1];
      [destruct H as [H _] |]; exact H. }
  destruct Hs as [S1 S2 S3 S4 S5 S6 S7 S8 S9 S10 S11 S12].
  subst m. repeat split; auto; lia.
Qed.


Lemma range_length (n : Z) : List.length (range n) = Z.to_nat n.
Proof. unfold range. now rewrite length_map, length_seq. Qed.

Lemma collect_city_down (c : string) (s : agent) :
  Qle_bool 0 delay = true ->
  network_down E \/
  (Z.to_nat max_retries * per_pass (API_PRIORITY (conf E)) = 0)%nat ->
  exists s',
    collect_city E c s = (Ok tt, s') /\
    gave_up max_retries
      (Z.to_nat max_retries * per_pass (API_PRIORITY (conf E))) [c] s s'.
Proof.
  intros Hd Hdown. unfold collect_city, bind.
  destruct (retry_loop_moved E c Hd (range max_retries) s)
    as [d [s1 [n [o [w [H1 [M1 [F1 [Hn [Ho [Hw [Hs [Hk [Hnone Hdn]]]]]]]]]]]]]].
  rewrite H1. rewrite range_length in Hn, Hnone.
  assert (Hd0 : d = None).
  { destruct Hdown as [Hdown | Hzero]; [now apply Hdn |].
    destruct d as [r |]; [| reflexivity]. cbn [is_some b2z] in Hk. lia. }
  rewrite Hd0 in *. specialize (Hnone eq_refl).
  destruct M1 as [A1 A2 A3 A4 A5 A6 A7 A8 A9 A10 A11 A12].
  eexists. split; [reflexivity |].
  unfold gave_up. simpl. rewrite A1, A2, A3, A4, A5, A6, A11, Hnone.
  cbn [is_some b2z]. repeat split; lia.
Qed.

Lemma collect_cities_down (cs : list string) :
  Qle_bool 0 delay = true ->
  network_down E \/
  (Z.to_nat max_retries * per_pass (API_PRIORITY (conf E)) = 0)%nat ->
  forall s,
  exists s',
    collect_cities E cs s = (Ok tt, s') /\
    gave_up max_retries
      (Z.to_nat max_retries * per_pass (API_PRIORITY (conf E))) cs s s'.
Proof.
  intros Hd Hdown. induction cs as [| c rest IH]; intros s.
  - exists s. split; [reflexivity |]. unfold gave_up. cbn.
    rewrite app_nil_r. repeat split; lia.
  - cbn [collect_cities]. unfold bind.
    destruct (collect_city_down c s Hd Hdown) as [s1 [H1 G1]]. rewrite H1.
    destruct (IH s1) as [s2 [H2 G2]]. rewrite H2.
    exists s2. split; [reflexivity |].
    destruct G1 as [A1 [A2 [A3 [A4 [A5 [A6 A7]]]]]].
    destruct G2 as [B1 [B2 [B3 [B4 [B5 [B6 B7]]]]]].
    unfold gave_up. cbn [List.length map] in *.
    repeat split; try congruence; try lia.
    rewrite B5, A5, <- app_assoc. reflexivity.
Qed.

(** X9: with pauses and backoffs in range ([pause_in_range],
    [backoff_in_range]), when no request of the run is answered with HTTP
    200 and a decodable body, [collect_data] completes with no record at all, one
    'Hard failure for {city} after {MAX_RETRIES} attempts.' issue per
    configured city, in order, [failures] grown by the number of cities and
    [successful_requests] unchanged, after sending, for every city,
    [MAX_RETRIES] times the requests of one pass over the priority list (two
    per 'OpenWeatherMap' entry, one per 'WeatherAPI' entry, none for an
    unknown name). *)
Theorem collect_data_network_down (s : agent) :
  pause_in_range delay -> backoff_in_range (conf E) -> network_down E ->
  exists s',
    collect_data E s = (Ok tt, s') /\
    raw_data s' = raw_data s /\
    processed_data s' = processed_data s /\
    successful_requests (summary_metrics s')
      = successful_requests (summary_metrics s) /\
    failures (summary_metrics s')
      = failures (summary_metrics s)
        + Z.of_nat (List.length (CITIES (conf E))) /\
    issues (summary_metrics s')
      = issues (summary_metrics s)
        ++ map (fun c => HardFailure c max_retries) (CITIES (conf E)) /\
    total_requests (summary_metrics s')
      = total_requests (summary_metrics s)
        + Z.of_nat (List.length (CITIES (conf E))
                    * (Z.to_nat max_retries
                       * per_pass (API_PRIORITY (conf E)))).
Proof.
  intros [Hd _] _ Hdown. apply Qle_bool_iff in Hd.
  destruct (collect_cities_down (CITIES (conf E)) Hd (or_introl Hdown) s)
    as [s' [H1 [A1 [A2 [A3 [A4 [A5 [A6 A7]]]]]]]].
  exists s'. unfold collect_data. repeat split; assumption.
Qed.


End Books.

Lemma collect_data_books_witness :
  total_requests (summary_metrics partial_run)
  = Z.of_nat (requests_sent partial_run) /\
  existsb is_write (trace partial_run) = false /\
  total_quality_score (summary_metrics partial_run)
  = score_sum (raw_data partial_run).
Proof.
  assert (Hd : (0 <= RESPECTFUL_DELAY_SECONDS (conf partial_env))%Q)
    by (vm_compute; discriminate).
  pose proof (collect_data_books partial_env Hd) as H. cbv zeta in H.
  destruct H as [H1 [_ [H3 [_ [_ [_ [_ [_ [_ [H10 _]]]]]]]]]].
  split; [exact H1 |]. split; [exact H3 | exact H10].
Defined.


Lemma collect_data_network_down_witness :
  exists s',
    collect_data down_env init_agent = (Ok tt, s') /\
    raw_data s' = [] /\
    issues (summary_metrics s')
      = [HardFailure "Paris" 3; HardFailure "Oslo" 3] /\
    total_requests (summary_metrics s') = 18.
Proof.
  destruct (collect_data_network_down down_env init_agent)
    as [s' [H1 [H2 [_ [_ [_ [H6 H7]]]]]]].
  - split; vm_compute; discriminate.
  - split; vm_compute; discriminate.
  - intros n url. reflexivity.
  - exists s'. split; [exact H1 |]. split; [exact H2 |].
    split; [exact H6 | exact H7].
Defined.


(** ** The end of a run *)

Lemma log_run (lvl : level) (m : log_msg) (s : agent) :
  log lvl m s = (Ok tt, extend s [EvLog lvl m]).
Proof. reflexivity. Qed.

Lemma extend_extend (s : agent) (a b : list event) :
  extend (extend s a) b = extend s (a ++ b).
Proof. unfold extend. cbn. now rewrite app_assoc. Qed.

Lemma save_data_run (s : agent) :
  _save_data s = (Ok tt, extend s (save_events s)).
Proof.
  unfold _save_data, save_events, bind, gets.
  destruct (raw_data s) as [| r0 raw] eqn:Hraw; [reflexivity |].
  unfold log, emit, modify, extend. cbn. rewrite Hraw, <- !app_assoc.
  reflexivity.
Qed.

Lemma metadata_run (s : agent) :
  _generate_and_save_metadata s = (Ok tt, extend s (metadata_events s)).
Proof.
  unfold _generate_and_save_metadata, metadata_events, bind, gets, log, emit,
    modify, extend.
  cbn. now rewrite <- !app_assoc.
Qed.

Lemma report_run (s : agent) :
  _generate_quality_report s = (Ok tt, extend s (report_events s)).
Proof.
  unfold _generate_quality_report, report_events, bind, gets, log, emit,
    modify, extend.
  cbn. now rewrite <- !app_assoc.
Qed.

Lemma summary_run (s : agent) :
  _generate_collection_summary s =
  if total_requests (summary_metrics s) =? 0
  then (Raise ZeroDivisionError, s)
  else (Ok tt, extend s (summary_events s)).
Proof.
  unfold _generate_collection_summary, summary_events, bind, gets, log, emit,
    modify, extend, raise.
  destruct (total_requests (summary_metrics s) =? 0); [reflexivity |].
  cbn. now rewrite <- !app_assoc.
Qed.

Lemma metadata_extend (s : agent) (a : list event) :
  metadata_events (extend s a) = metadata_events s.
Proof. reflexivity. Qed.

Lemma report_extend (s : agent) (a : list event) :
  report_events (extend s a) = report_events s.
Proof. reflexivity. Qed.

Lemma summary_extend (s : agent) (a : list event) :
  summary_events (extend s a) = summary_events s.
Proof. reflexivity. Qed.

Lemma crash_run (e : exn) (s : agent) :
  upd_metrics (append_issue (AgentCrash e)) s = (Ok tt, with_crash e s).
Proof. reflexivity. Qed.

Lemma existsb_false_filter {A} (f : A -> bool) (l : list A) :
  existsb f l = false -> filter f l = [].
Proof.
  induction l as [| x rest IH]; [reflexivity |].
  cbn [existsb filter]. destruct (f x); [discriminate | exact IH].
Qed.

Section RunEnd.

Variable E : env.

(** The [except] branch of [run_agent], from the state the exception left. *)
Lemma handler_run (e : exn) (s1 : agent) :
  (log CRITICAL (AgentTerminated e) ;;
   upd_metrics (append_issue (AgentCrash e)) ;;
   _generate_quality_report ;;
   _generate_collection_summary) s1
  = let s2 := with_crash e (extend s1 [EvLog CRITICAL (AgentTerminated e)]) in
    let s3 := extend s2 (report_events s2) in
    if total_requests (summary_metrics s1) =? 0
    then (Raise ZeroDivisionError, s3)
    else (Ok tt, extend s3 (summary_events s3)).
Proof.
  unfold bind. rewrite log_run, crash_run, report_run, summary_run.
  reflexivity.
Qed.

(** The [try] branch of [run_agent] after [collect_data]. *)
Lemma closing_run (s1 : agent) :
  (_save_data ;;
   _generate_and_save_metadata ;;
   _generate_quality_report ;;
   _generate_collection_summary ;;
   log INFO WorkflowCompleted) s1
  = let s2 := extend s1 (save_events s1 ++ metadata_events s1 ++ report_events s1) in
    if total_requests (summary_metrics s1) =? 0
    then (Raise ZeroDivisionError, s2)
    else (Ok tt, extend s2 (summary_events s1 ++ [EvLog INFO WorkflowCompleted])).
Proof.
  unfold bind. rewrite save_data_run, metadata_run, report_run, summary_run.
  rewrite !extend_extend, !metadata_extend, !report_extend, !summary_extend.
  cbn [summary_metrics extend].
  destruct (total_requests (summary_metrics s1) =? 0);
    [now rewrite <- ?app_assoc |].
  rewrite log_run, !extend_extend, <- ?app_assoc. reflexivity.
Qed.

Lemma run_agent_unfold (s : agent) :
  run_agent E s =
  match collect_data E (extend s [EvLog INFO WorkflowStarting]) with
  | (Ok _, s1) =>
      match (_save_data ;;
             _generate_and_save_metadata ;;
             _generate_quality_report ;;
             _generate_collection_summary ;;
             log INFO WorkflowCompleted) s1 with
      | (Ok a, s2) => (Ok a, s2)
      | (Raise e, s2) =>
          (log CRITICAL (AgentTerminated e) ;;
           upd_metrics (append_issue (AgentCrash e)) ;;
           _generate_quality_report ;;
           _generate_collection_summary) s2
      end
  | (Raise e, s1) =>
      (log CRITICAL (AgentTerminated e) ;;
       upd_metrics (append_issue (AgentCrash e)) ;;
       _generate_quality_report ;;
       _generate_collection_summary) s1
  end.
Proof.
  unfold run_agent, try_except. unfold bind at 1. rewrite log_run.
  unfold bind at 1.
  destruct (collect_data E (extend s [EvLog INFO WorkflowStarting]))
    as [[u | e] s1]; reflexivity.
Qed.



(** X13: a run that can send no request (no configured city; or, with
    pauses and backoffs in range, a non-positive [MAX_RETRIES] or no known
    name in [API_PRIORITY]) ends with an uncaught [ZeroDivisionError]: no
    data file and no collection summary is written, only the metadata file
    and the quality report, the latter twice, the second time with the crash
    issue added. *)
Theorem run_agent_crashes_without_requests :
  CITIES (conf E) = [] \/
  (pause_in_range (RESPECTFUL_DELAY_SECONDS (conf E)) /\
   backoff_in_range (conf E) /\
   (Z.to_nat (MAX_RETRIES (conf E)) * per_pass (API_PRIORITY (conf E))
    = 0)%nat) ->
  exists s2 m,
    run_agent E init_agent = (Raise ZeroDivisionError, s2) /\
    total_requests m = 0 /\
    summary_metrics s2 = append_issue (AgentCrash ZeroDivisionError) m /\
    raw_data s2 = [] /\
    filter is_write (trace s2) =
      [EvWrite (MetadataFile m);
       EvWrite (QualityReportFile m []);
       EvWrite (QualityReportFile
                  (append_issue (AgentCrash ZeroDivisionError) m) [])].
Proof.
  intros Hno.
  set (s0 := extend init_agent [EvLog INFO WorkflowStarting]).
  assert (Hc : exists s1,
             collect_data E s0 = (Ok tt, s1) /\
             raw_data s1 = [] /\
             total_requests (summary_metrics s1) = 0 /\
             filter is_write (trace s1) = []).
  { destruct Hno as [Hno | [[Hd _] [_ Hno]]].
    - exists s0. unfold collect_data. rewrite Hno. repeat split.
    - apply Qle_bool_iff in Hd.
      destruct (collect_cities_down E (CITIES (conf E)) Hd (or_intror Hno) s0)
        as [s1 [H1 [A1 [_ [_ [_ [_ [A6 _]]]]]]]].
      assert (Hs0 : sound s0) by (constructor; cbn; try reflexivity; lia).
      assert (Hset0 : settled (collection_timestamp E) s0) by constructor.
      pose proof (collect_cities_books E (CITIES (conf E)) Hd s0 Hs0 Hset0)
        as Hb.
      rewrite H1 in Hb. destruct Hb as [Hs1 _].
      exists s1. unfold collect_data. split; [exact H1 |].
      split; [exact A1 |].
      split; [rewrite A6, Hno; cbn; lia |].
      apply existsb_false_filter. apply (sound_writes _ Hs1). }
  destruct Hc as [s1 [Hc [Hraw [Ht Hw]]]].
  rewrite run_agent_unfold. fold s0. rewrite Hc, closing_run. cbv zeta.
  rewrite Ht. cbn [Z.eqb]. rewrite handler_run. cbv zeta.
  cbn [summary_metrics extend]. rewrite Ht. cbn [Z.eqb].
  eexists _, (summary_metrics s1). split; [reflexivity |].
  split; [exact Ht |].
  cbn [raw_data processed_data summary_metrics trace extend with_crash].
  split; [reflexivity |].
  split; [exact Hraw |].
  rewrite <- !app_assoc, !filter_app, Hw.
  unfold save_events, metadata_events, report_events. rewrite Hraw.
  cbn [raw_data processed_data summary_metrics trace extend with_crash].
  rewrite Hraw. reflexivity.
Qed.

End RunEnd.


Lemma run_agent_crashes_without_requests_witness :
  (exists s2 m,
     run_agent no_city_env init_agent = (Raise ZeroDivisionError, s2) /\
     total_requests m = 0 /\
     summary_metrics s2 = append_issue (AgentCrash ZeroDivisionError) m /\
     raw_data s2 = [] /\
     filter is_write (trace s2) =
       [EvWrite (MetadataFile m);
        EvWrite (QualityReportFile m []);
        EvWrite (QualityReportFile
                   (append_issue (AgentCrash ZeroDivisionError) m) [])]) /\
  (exists s2 m,
     run_agent unknown_source_env init_agent
       = (Raise ZeroDivisionError, s2) /\
     total_requests m = 0 /\
     summary_metrics s2 = append_issue (AgentCrash ZeroDivisionError) m /\
     raw_data s2 = [] /\
     filter is_write (trace s2) =
       [EvWrite (MetadataFile m);
        EvWrite (QualityReportFile m []);
        EvWrite (QualityReportFile
                   (append_issue (AgentCrash ZeroDivisionError) m) [])]).
Proof.
  split.
  - apply (run_agent_crashes_without_requests no_city_env).
    left. reflexivity.
  - apply (run_agent_crashes_without_requests unknown_source_env).
    right. split; [split; vm_compute; discriminate |].
    split; [split; vm_compute; discriminate | reflexivity].
Defined.

(** ** Standardization details *)

Section Standardization.

Variable E : env.

(** X14: for an OpenWeatherMap record whose 'current' section has dicts
    under 'main' and 'wind', the standardized temperature, humidity and wind
    speed are the values found under 'temp', 'humidity' and 'speed', copied
    as they are ([None] when the key is absent), whatever the 'forecast'
    section holds.  When the forecast list starts with a dict, the summary
    is '3-hour steps starting ' followed by its 'dt_txt', the score is the
    record's and nothing is logged. *)
Theorem process_owm_copies (r : record)
    (kvs cur m w : list (string * json)) (s : agent) :
  api r = "OpenWeatherMap" ->
  data r = JDict kvs ->
  dict_lookup "current" kvs = Some (JDict cur) ->
  dict_lookup "main" cur = Some (JDict m) ->
  dict_lookup "wind" cur = Some (JDict w) ->
  exists p s',
    _process_raw_data E r s = (Ok p, s') /\
    current_temp_c p = or_null (dict_lookup "temp" m) /\
    current_humidity_p p = or_null (dict_lookup "humidity" m) /\
    current_wind_speed_m_s p = or_null (dict_lookup "speed" w) /\
    (forall f first rest,
       dict_lookup "forecast" kvs = Some (JDict f) ->
       dict_lookup "list" f = Some (JList (JDict first :: rest)) ->
       forecast_summary p
         = Some ("3-hour steps starting ", or_null (dict_lookup "dt_txt" first)) /\
       p_quality_score p
         = match quality_score r with Some q => JInt q | None => JStr "N/A" end /\
       s' = s).
Proof.
  intros Ha Hd Hcur Hmain Hwind.
  assert (Hfields :
    wp (mapping r) (initial_processed E r)
       (fun _ p => current_temp_c p = or_null (dict_lookup "temp" m) /\
                   current_humidity_p p = or_null (dict_lookup "humidity" m) /\
                   current_wind_speed_m_s p = or_null (dict_lookup "speed" w))
       (fun _ p => current_temp_c p = or_null (dict_lookup "temp" m) /\
                   current_humidity_p p = or_null (dict_lookup "humidity" m) /\
                   current_wind_speed_m_s p = or_null (dict_lookup "speed" w))).
  { unfold mapping. rewrite Ha, Hd. simpl String.eqb. cbv iota.
    unfold map_owm.
    apply wp_bind, wp_lift. simpl get. rewrite Hcur.
    apply wp_bind, wp_lift. simpl get. rewrite Hmain.
    apply wp_bind, wp_lift. simpl get. rewrite Hwind.
    apply wp_bind, wp_lift. simpl get.
    replace (match dict_lookup "temp" m with Some x => Ok x | None => Ok JNull end)
      with (Ok (or_null (dict_lookup "temp" m)))
      by (destruct (dict_lookup "temp" m); reflexivity).
    apply wp_bind. unfold set_temp. apply wp_modify.
    apply wp_bind, wp_lift. simpl get.
    replace (match dict_lookup "humidity" m with
             | Some x => Ok x | None => Ok JNull end)
      with (Ok (or_null (dict_lookup "humidity" m)))
      by (destruct (dict_lookup "humidity" m); reflexivity).
    apply wp_bind. unfold set_humidity. apply wp_modify.
    apply wp_bind, wp_lift. simpl get.
    replace (match dict_lookup "speed" w with
             | Some x => Ok x | None => Ok JNull end)
      with (Ok (or_null (dict_lookup "speed" w)))
      by (destruct (dict_lookup "speed" w); reflexivity).
    apply wp_bind. unfold set_wind. apply wp_modify.
    unfold set_summary. repeat wp_step; repeat split; reflexivity. }
  assert (Hfull : forall f first rest,
            dict_lookup "forecast" kvs = Some (JDict f) ->
            dict_lookup "list" f = Some (JList (JDict first :: rest)) ->
            exists p,
              mapping r (initial_processed E r) = (Ok tt, p) /\
              forecast_summary p
              = Some ("3-hour steps starting ",
                      or_null (dict_lookup "dt_txt" first))).
  { intros f first rest Hf Hl.
    unfold mapping. rewrite Ha, Hd.
    change (String.eqb "OpenWeatherMap" "OpenWeatherMap") with true.
    cbv iota.
    unfold map_owm, bind, lift.
    cbn [get]. rewrite Hcur. cbn [get]. rewrite Hmain, Hwind.
    cbn [get]. rewrite Hf. cbn [get]. rewrite Hl.
    cbn [truthy index0 get].
    destruct (dict_lookup "temp" m), (dict_lookup "humidity" m),
      (dict_lookup "speed" w), (dict_lookup "dt_txt" first);
      cbn; eexists; split; reflexivity. }
  rewrite process_unfold. unfold wp in Hfields.
  pose proof (mapping_keeps_quality r (initial_processed E r)) as Hq.
  destruct (mapping r (initial_processed E r)) as [[u | e] p] eqn:Hm.
  - exists p, s. split; [reflexivity |].
    destruct Hfields as [F1 [F2 F3]].
    split; [exact F1 | split; [exact F2 | split; [exact F3 |]]].
    intros f first rest Hf Hl.
    destruct (Hfull f first rest Hf Hl) as [p' [Hp' Hsum]].
    assert (p' = p) by congruence. subst p'.
    split; [exact Hsum |]. split; [exact Hq | reflexivity].
  - eexists _, _. split; [reflexivity |].
    destruct Hfields as [F1 [F2 F3]]. cbn.
    split; [exact F1 | split; [exact F2 | split; [exact F3 |]]].
    intros f first rest Hf Hl.
    destruct (Hfull f first rest Hf Hl) as [p' [Hp' _]]. discriminate.
Qed.

(** X15: for a WeatherAPI record whose 'current' section is a dict with a
    'wind_kph' that is not [None] and cannot be multiplied by a float (a
    string, a list, a dict, an int too large for a float), the standardized
    record keeps the temperature and humidity copied before the failure,
    leaves the wind speed and the forecast summary unset even if a forecast
    is present, has score 0, and exactly one error line is logged. *)
Theorem process_wapi_bad_wind (r : record) (kvs cur : list (string * json))
    (v : json) (e : exn) (s : agent) :
  api r = "WeatherAPI" ->
  data r = JDict kvs ->
  dict_lookup "current" kvs = Some (JDict cur) ->
  dict_lookup "wind_kph" cur = Some v ->
  v <> JNull ->
  mul_float v kph_to_m_s = Raise e ->
  exists p,
    _process_raw_data E r s
      = (Ok p, snd (log ERROR (StandardizationError (city r) (api r) e) s)) /\
    current_temp_c p = or_null (dict_lookup "temp_c" cur) /\
    current_humidity_p p = or_null (dict_lookup "humidity" cur) /\
    current_wind_speed_m_s p = JNull /\
    forecast_summary p = None /\
    p_quality_score p = JInt 0.
Proof.
  intros Ha Hd Hcur Hwind Hnn Hmul.
  rewrite process_unfold.
  assert (Hm : mapping r (initial_processed E r)
               = (Raise e,
                  mk_processed (city r) (collection_timestamp E) (api r)
                    (match quality_score r with
                     | Some q => JInt q | None => JStr "N/A" end)
                    (or_null (dict_lookup "temp_c" cur))
                    (or_null (dict_lookup "humidity" cur)) JNull None)).
  { unfold mapping.
    replace (String.eqb (api r) "OpenWeatherMap") with false
      by (rewrite Ha; reflexivity).
    replace (String.eqb (api r) "WeatherAPI") with true
      by (rewrite Ha; reflexivity).
    rewrite Hd. unfold map_wapi, bind, lift.
    cbn [get]. rewrite Hcur. cbn [get]. rewrite Hwind.
    destruct (dict_lookup "temp_c" cur), (dict_lookup "humidity" cur);
      destruct v; try contradiction; rewrite Hmul; reflexivity. }
  rewrite Hm. eexists. split; [reflexivity |]. cbn. auto.
Qed.

End Standardization.

Lemma process_owm_copies_witness :
  exists p s',
    _process_raw_data partial_env owm_full_record init_agent = (Ok p, s') /\
    current_temp_c p = JFloat 21.5 /\
    current_humidity_p p = JInt 40 /\
    current_wind_speed_m_s p = JFloat 3.5 /\
    forecast_summary p
      = Some ("3-hour steps starting ", JStr "2025-01-01 00:00:00") /\
    p_quality_score p = JInt 80 /\
    s' = init_agent.
Proof.
  destruct (process_owm_copies partial_env owm_full_record
              [("current", complete_current);
               ("forecast",
                JDict [("list",
                        JList [JDict [("dt_txt",
                                       JStr "2025-01-01 00:00:00")]])])]
              [("main", JDict [("temp", JFloat 21.5); ("humidity", JInt 40)]);
               ("wind", JDict [("speed", JFloat 3.5)])]
              [("temp", JFloat 21.5); ("humidity", JInt 40)]
              [("speed", JFloat 3.5)]
              init_agent)
    as [p [s' [H1 [H2 [H3 [H4 H5]]]]]]; try reflexivity.
  destruct (H5 [("list",
                 JList [JDict [("dt_txt", JStr "2025-01-01 00:00:00")]])]
              [("dt_txt", JStr "2025-01-01 00:00:00")] []
              eq_refl eq_refl) as [H6 [H7 H8]].
  exists p, s'. repeat split; assumption.
Defined.

Lemma process_wapi_bad_wind_witness :
  exists p,
    _process_raw_data partial_env bad_wind_record init_agent
      = (Ok p,
         snd (log ERROR (StandardizationError "Paris" "WeatherAPI" TypeError)
                init_agent)) /\
    current_temp_c p = JFloat 21.5 /\
    current_humidity_p p = JInt 40 /\
    current_wind_speed_m_s p = JNull /\
    forecast_summary p = None /\
    p_quality_score p = JInt 0.
Proof.
  apply (process_wapi_bad_wind partial_env bad_wind_record
           [("current",
             JDict [("temp_c", JFloat 21.5); ("humidity", JInt 40);
                    ("wind_kph", JStr "36")]);
            ("forecast",
             JDict [("forecastday",
                     JList [JDict [("date", JStr "2025-01-01")]])])]
           [("temp_c", JFloat 21.5); ("humidity", JInt 40);
            ("wind_kph", JStr "36")]
           (JStr "36") TypeError init_agent);
    try reflexivity.
  discriminate.
Defined.

(** ** A negative pause *)

Section NegativeDelay.

Variable E : env.

(** With a negative pause the first endpoint is requested and counted, and
    the pause that follows raises. *)
Lemma owm_endpoint_aborts (c name url : string)
    (acc : list (string * json) * bool) (s : agent) :
  Qle_bool 0 (RESPECTFUL_DELAY_SECONDS (conf E)) = false ->
  exists s',
    owm_endpoint E c name url acc s = (Raise ValueError, s') /\
    moved 1 (b2z (succeeded (http_get E (requests_sent s) url))) 0 0 s s'.
Proof.
  intros Hd.
  unfold owm_endpoint, bind, try_except, upd_metrics, log, emit, modify,
    http_request, sleep, raise, ret.
  rewrite Hd. simpl.
  destruct (http_get E (requests_sent s) url) as [| code [j |]]; simpl;
    try destruct (code =? 200); simpl;
    (eexists; split; [reflexivity |]);
    (constructor; simpl; try reflexivity; try lia;
     eexists; split; [rewrite <- ?app_assoc; simpl; reflexivity |];
     split; reflexivity).
Qed.

Lemma collect_data_aborts (c : string) (cs rest : list string) (s : agent) :
  Qle_bool 0 (RESPECTFUL_DELAY_SECONDS (conf E)) = false ->
  CITIES (conf E) = c :: cs ->
  0 < MAX_RETRIES (conf E) ->
  API_PRIORITY (conf E) = "OpenWeatherMap" :: rest ->
  exists s',
    collect_data E s = (Raise ValueError, s') /\
    moved 1 (b2z (succeeded (http_get E (requests_sent s)
                               (owm_current_url E c)))) 0 0 s s'.
Proof.
  intros Hd Hc Hm Hp.
  unfold collect_data. rewrite Hc. cbn [collect_cities].
  unfold bind at 1. unfold collect_city. unfold bind at 1.
  assert (Hr : exists tl, range (MAX_RETRIES (conf E)) = 0 :: tl).
  { unfold range. destruct (Z.to_nat (MAX_RETRIES (conf E))) eqn:Hn; [lia |].
    cbn. eexists. reflexivity. }
  destruct Hr as [tl ->]. cbn [retry_loop].
  unfold bind at 1. rewrite log_run. unfold bind at 1.
  rewrite Hp. cbn [api_loop].
  change (String.eqb "OpenWeatherMap" "OpenWeatherMap") with true. cbv iota.
  unfold bind at 1. unfold _fetch_owm_data. unfold bind at 1.
  cbn [owm_endpoints owm_loop]. unfold bind at 1.
  destruct (owm_endpoint_aborts c "current" (owm_current_url E c) ([], false)
              (extend s [EvLog INFO (AttemptOf (0 + 1) (MAX_RETRIES (conf E)) c)])
              Hd) as [s' [H1 M1]].
  rewrite H1. eexists. split; [reflexivity |].
  eapply moved_eq;
    [eapply moved_trans;
       [apply (moved_emit
                 (EvLog INFO (AttemptOf (0 + 1) (MAX_RETRIES (conf E)) c)) s);
        reflexivity
       | exact M1]
    | | | |]; reflexivity.
Qed.

(** X16: with a negative [RESPECTFUL_DELAY_SECONDS] (of at most [max_pause]
    in absolute value: beyond the 64-bit range [time.sleep] raises
    [OverflowError] instead), a city to collect, a
    positive [MAX_RETRIES] and 'OpenWeatherMap' first in [API_PRIORITY], the
    run stops at the first pause: exactly one request is sent, no record is
    collected and no city is marked as failed, the only issue is the crash
    issue for [ValueError], no data or metadata file is written, and
    [run_agent] still returns normally after writing the quality report and
    the collection summary. *)
Theorem run_agent_negative_delay (c : string) (cs rest : list string) :
  (- max_pause <= RESPECTFUL_DELAY_SECONDS (conf E))%Q ->
  (RESPECTFUL_DELAY_SECONDS (conf E) < 0)%Q ->
  CITIES (conf E) = c :: cs ->
  0 < MAX_RETRIES (conf E) ->
  API_PRIORITY (conf E) = "OpenWeatherMap" :: rest ->
  exists s2,
    run_agent E init_agent = (Ok tt, s2) /\
    requests_sent s2 = 1%nat /\
    total_requests (summary_metrics s2) = 1 /\
    successful_requests (summary_metrics s2) = 0 /\
    failures (summary_metrics s2) = 0 /\
    issues (summary_metrics s2) = [AgentCrash ValueError] /\
    raw_data s2 = [] /\
    processed_data s2 = [] /\
    filter is_write (trace s2) =
      [EvWrite (QualityReportFile (summary_metrics s2) []);
       EvWrite (CollectionSummaryFile (summary_metrics s2))].
Proof.
  intros _ Hd Hc Hm Hp.
  assert (Hd' : Qle_bool 0 (RESPECTFUL_DELAY_SECONDS (conf E)) = false).
  { destruct (Qle_bool 0 (RESPECTFUL_DELAY_SECONDS (conf E))) eqn:H;
      [| reflexivity].
    apply Qle_bool_iff in H. exfalso. exact (Qlt_not_le _ _ Hd H). }
  destruct (collect_data_aborts c cs rest
              (extend init_agent [EvLog INFO WorkflowStarting]) Hd' Hc Hm Hp)
    as [s1 [H1 M1]].
  rewrite run_agent_unfold, H1, handler_run. cbv zeta.
  destruct M1 as [A1 A2 A3 A4 A5 A6 A7 A8 A9 A10 A11 [seg [T [G W]]]].
  cbn [raw_data processed_data summary_metrics requests_sent trace extend
       init_agent init_metrics total_requests successful_requests failures
       issues] in A1, A2, A3, A4, A5, A6, A11, T.
  rewrite A4. cbn [Z.add Z.of_nat Pos.of_succ_nat Z.eqb].
  eexists. split; [reflexivity |].
  cbn [raw_data processed_data summary_metrics requests_sent trace extend
       with_crash append_issue total_requests successful_requests failures
       issues report_events summary_events].
  rewrite A1, A2, A3, A4, A5, A6, A11, T.
  rewrite !filter_app, (existsb_false_filter _ _ W).
  repeat split.
  unfold report_events, summary_events.
  cbn [raw_data summary_metrics extend with_crash filter is_write app].
  rewrite A1. reflexivity.
Qed.

End NegativeDelay.

Lemma run_agent_negative_delay_witness :
  exists s2,
    run_agent negative_delay_env init_agent = (Ok tt, s2) /\
    requests_sent s2 = 1%nat /\
    raw_data s2 = [] /\
    issues (summary_metrics s2) = [AgentCrash ValueError].
Proof.
  destruct (run_agent_negative_delay negative_delay_env "Paris" ["Oslo"]
              ["WeatherAPI"])
    as [s2 [H1 [H2 [_ [_ [_ [H6 [H7 _]]]]]]]].
  - vm_compute. discriminate.
  - vm_compute. reflexivity.
  - reflexivity.
  - reflexivity.
  - reflexivity.
  - exists s2. split; [exact H1 |]. split; [exact H2 |].
    split; [exact H7 | exact H6].
Defined.
